(** * Venue analyser of the Scholar content script (content.js)

    A shallow embedding of [normalizeVenue], [extractVenueData],
    [loadAllPublications], [waitForNewPublicationsOptimized],
    [analyzeAllVenues] and the message listener, together with the fragment
    of the ECMAScript String and RegExp built-ins they rely on. *)

From Stdlib Require Import List NArith Arith Lia Bool String Ascii ZArith.
From Stdlib Require Import DecimalString Permutation Sorted.
Import ListNotations.

Set Implicit Arguments.

(** ** ECMAScript strings: sequences of UTF-16 code units *)

Definition jsstring := list N.

(** A string literal of the script, written with ASCII characters only. *)
Definition js (s : string) : jsstring :=
  map N_of_ascii (list_ascii_of_string s).

Definition jsstring_eqb (a b : jsstring) : bool :=
  if list_eq_dec N.eq_dec a b then true else false.

Module Char.

Definition between (lo hi c : N) : bool := (lo <=? c)%N && (c <=? hi)%N.

(** [\d] *)
Definition isDigit (c : N) : bool := between 48 57 c.

(** [\w] without the unicode flag: [A-Za-z0-9_] *)
Definition isWordChar (c : N) : bool :=
  between 97 122 c || between 65 90 c || between 48 57 c || (c =? 95)%N.

(** LineTerminator: LF, CR, LS, PS. *)
Definition isLineTerminator (c : N) : bool :=
  (c =? 10)%N || (c =? 13)%N || (c =? 8232)%N || (c =? 8233)%N.

(** WhiteSpace: TAB, VT, FF, SP, NBSP, ZWNBSP and the Zs category. *)
Definition isWhiteSpace (c : N) : bool :=
  (c =? 9)%N || (c =? 11)%N || (c =? 12)%N || (c =? 32)%N || (c =? 160)%N
  || (c =? 65279)%N || (c =? 5760)%N || between 8192 8202 c
  || (c =? 8239)%N || (c =? 8287)%N || (c =? 12288)%N.

(** [\s], and the characters removed by [String.prototype.trim]. *)
Definition isSpace (c : N) : bool := isWhiteSpace c || isLineTerminator c.

(** Canonicalize of the RegExp semantics (ignoreCase, no unicode flag),
    on the code units where it can meet an ASCII pattern character: an
    ASCII lower-case letter goes to its capital; a code unit from 128 up
    never canonicalizes to an ASCII one. *)
Definition canonicalize (c : N) : N :=
  if between 97 122 c then (c - 32)%N else c.

(** Lower-casing of one code unit of the Basic Latin and Latin-1 blocks. *)
Definition toLower (c : N) : N :=
  if between 65 90 c then (c + 32)%N
  else if between 192 214 c || between 216 222 c then (c + 32)%N
  else c.

End Char.

Module JSString.

(** [String.prototype.toLowerCase] on strings of code units below U+0100
    (and of code units without a lower-case mapping, such as U+2026). *)
Definition toLowerCase (s : jsstring) : jsstring := map Char.toLower s.

Fixpoint trimStart (s : jsstring) : jsstring :=
  match s with
  | c :: s' => if Char.isSpace c then trimStart s' else s
  | [] => []
  end.

Definition trimEnd (s : jsstring) : jsstring := rev (trimStart (rev s)).

(** [String.prototype.trim] *)
Definition trim (s : jsstring) : jsstring := trimEnd (trimStart s).

Fixpoint startsWith (p s : jsstring) : bool :=
  match p, s with
  | [], _ => true
  | a :: p', b :: s' => (a =? b)%N && startsWith p' s'
  | _ :: _, [] => false
  end.

(** [String.prototype.includes] *)
Fixpoint includes (s p : jsstring) : bool :=
  startsWith p s || match s with [] => false | _ :: s' => includes s' p end.

(** Number::toString for a non-negative integer. *)
Definition ofNat (n : nat) : jsstring :=
  js (NilEmpty.string_of_uint (Nat.to_uint n)).

End JSString.

(** ** Regular expressions

    The abstract syntax covers what the patterns of the script use.  Groups
    only group: no pattern has a back-reference and no caller reads a
    capture.  [r+] is [Seq r (Star true r)], [r?] is [Alt r Eps] and [r{n}]
    is [r] written [n] times. *)

Module RegExp.

Inductive classItem :=
| CChar (c : N)
| CDigit
| CSpace.

Inductive regex :=
| Eps
| Chr (c : N)
| Dot
| Class (items : list classItem)
| Seq (a b : regex)
| Alt (a b : regex)
| Star (greedy : bool) (a : regex)
| Bol
| Eol
| WordB.

(** A position in the input: the code units before it, last one first,
    and the code units from it on. *)
Definition state := (list N * list N)%type.

Definition remaining (x : state) : nat := List.length (snd x).

Definition charEq (ic : bool) (a c : N) : bool :=
  if ic then (Char.canonicalize a =? Char.canonicalize c)%N else (a =? c)%N.

Definition itemMatches (ic : bool) (c : N) (i : classItem) : bool :=
  match i with
  | CChar a => charEq ic a c
  | CDigit => Char.isDigit c
  | CSpace => Char.isSpace c
  end.

Definition isWordAt (o : option N) : bool :=
  match o with Some c => Char.isWordChar c | None => false end.

Definition atWordBoundary (x : state) : bool :=
  negb (Bool.eqb (isWordAt (hd_error (fst x))) (isWordAt (hd_error (snd x)))).

(** One code unit accepted by [ok]. *)
Definition stepChar (ok : N -> bool) (k : state -> option state)
    (x : state) : option state :=
  match x with
  | (l, c :: r) => if ok c then k (c :: l, r) else None
  | (_, []) => None
  end.

(** RepeatMatcher for [*] and [*?]: a greedy quantifier tries one more
    iteration of [m] before the continuation, a lazy one the continuation
    first, and an iteration that consumes nothing is refused.  [n] bounds
    the code units left: every accepted iteration consumes one at least,
    so with none left only the continuation remains. *)
Fixpoint repeatMatcher
    (m : (state -> option state) -> state -> option state)
    (greedy : bool) (k : state -> option state) (n : nat) (x : state)
    {struct n} : option state :=
  match n with
  | O => k x
  | S n' =>
      let d (y : state) :=
        if remaining y =? remaining x then None
        else repeatMatcher m greedy k n' y in
      if greedy then
        match m d x with Some z => Some z | None => k x end
      else
        match k x with Some z => Some z | None => m d x end
  end.

(** The backtracking matcher in continuation-passing style, as in the
    semantics of the language; alternatives are tried left to right. *)
Fixpoint matcher (ic : bool) (re : regex) (k : state -> option state)
    (x : state) {struct re} : option state :=
  match re with
  | Eps => k x
  | Chr a => stepChar (charEq ic a) k x
  | Dot => stepChar (fun c => negb (Char.isLineTerminator c)) k x
  | Class items => stepChar (fun c => existsb (itemMatches ic c) items) k x
  | Seq a b => matcher ic a (matcher ic b k) x
  | Alt a b =>
      match matcher ic a k x with
      | Some y => Some y
      | None => matcher ic b k x
      end
  | Star greedy a => repeatMatcher (matcher ic a) greedy k (remaining x) x
  | Bol => match fst x with [] => k x | _ :: _ => None end
  | Eol => match snd x with [] => k x | _ :: _ => None end
  | WordB => if atWordBoundary x then k x else None
  end.

(** A compiled pattern with its ignoreCase flag. *)
Record pattern := { source : regex; ignoreCase : bool }.

(** The first match from [x] on: where it starts and where it ends. *)
Fixpoint search (p : pattern) (l r : list N) {struct r}
    : option (state * state) :=
  match matcher (ignoreCase p) (source p) Some (l, r) with
  | Some y => Some ((l, r), y)
  | None =>
      match r with
      | [] => None
      | c :: r' => search p (c :: l) r'
      end
  end.

(** [RegExp.prototype.test] (no global flag) *)
Definition test (p : pattern) (s : jsstring) : bool :=
  match search p [] s with Some _ => true | None => false end.

(** [String.prototype.replace] with a pattern without the global flag and
    a replacement string free of [$]: the first match is replaced. *)
Definition replace (p : pattern) (by_ : jsstring) (s : jsstring) : jsstring :=
  match search p [] s with
  | Some ((l, _), (_, r')) => rev l ++ by_ ++ r'
  | None => s
  end.

(** [String.prototype.replace] with the global flag: the matches are
    replaced from left to right, the search resuming where the last match
    ended, one code unit further after an empty match.  [skip] counts the
    code units of the current position that a match already consumed. *)
Fixpoint replaceFrom (p : pattern) (by_ : jsstring) (skip : nat)
    (l r : list N) {struct r} : jsstring :=
  match skip with
  | S skip' =>
      match r with
      | [] => []
      | c :: r' => replaceFrom p by_ skip' (c :: l) r'
      end
  | O =>
      match matcher (ignoreCase p) (source p) Some (l, r) with
      | Some y =>
          match r with
          | [] => by_
          | c :: r' =>
              match remaining (l, r) - remaining y with
              | O => by_ ++ c :: replaceFrom p by_ 0 (c :: l) r'
              | S skip' => by_ ++ replaceFrom p by_ skip' (c :: l) r'
              end
          end
      | None =>
          match r with
          | [] => []
          | c :: r' => c :: replaceFrom p by_ 0 (c :: l) r'
          end
      end
  end.

Definition replaceAll (p : pattern) (by_ : jsstring) (s : jsstring) : jsstring :=
  replaceFrom p by_ 0 [] s.

(** [String.prototype.split] with a pattern, no limit: the pieces between
    the matches, a match being tried at every index before the end; a
    match that ends where the current piece starts does not split.
    [piece] is the current piece, last code unit first. *)
Fixpoint splitFrom (p : pattern) (skip : nat) (piece : list N)
    (l r : list N) {struct r} : list jsstring :=
  match r with
  | [] => [rev piece]
  | c :: r' =>
      match skip with
      | S skip' => splitFrom p skip' piece (c :: l) r'
      | O =>
          match matcher (ignoreCase p) (source p) Some (l, r) with
          | Some y =>
              match remaining (l, r) - remaining y, piece with
              | O, [] => splitFrom p 0 [c] (c :: l) r'
              | O, _ :: _ => rev piece :: splitFrom p 0 [c] (c :: l) r'
              | S skip', _ => rev piece :: splitFrom p skip' [] (c :: l) r'
              end
          | None => splitFrom p 0 (c :: piece) (c :: l) r'
          end
      end
  end.

Definition split (p : pattern) (s : jsstring) : list jsstring :=
  match s with
  | [] => match matcher (ignoreCase p) (source p) Some ([], []) with
          | Some _ => []
          | None => [[]]
          end
  | _ :: _ => splitFrom p 0 [] [] s
  end.

(** *** Pattern text

    The patterns are kept as the text between the slashes of the script
    and read by [parse], which refuses what it does not cover. *)

Definition plus (a : regex) : regex := Seq a (Star true a).
Definition opt (a : regex) : regex := Alt a Eps.

Fixpoint times (n : nat) (a : regex) : regex :=
  match n with
  | O => Eps
  | S O => a
  | S n' => Seq a (times n' a)
  end.

Definition chr (c : ascii) : regex := Chr (N_of_ascii c).

Definition digitVal (c : ascii) : option nat :=
  let n := nat_of_ascii c in
  if (48 <=? n) && (n <=? 57) then Some (n - 48) else None.

Fixpoint parseNat (acc : nat) (s : list ascii) : nat * list ascii :=
  match s with
  | c :: s' =>
      match digitVal c with
      | Some d => parseNat (10 * acc + d) s'
      | None => (acc, s)
      end
  | [] => (acc, s)
  end.

(** SyntaxCharacter *)
Definition isSyntaxChar (c : ascii) : bool :=
  existsb (Ascii.eqb c)
    ["^"; "$"; "\"; "."; "*"; "+"; "?"; "("; ")"; "["; "]"; "{"; "}"; "|"; "/"]%char.

(** The body of a character class, after the opening bracket. *)
Fixpoint parseClass (acc : list classItem) (s : list ascii)
    : option (list classItem * list ascii) :=
  match s with
  | [] => None
  | "]" :: s' => Some (rev acc, s')
  | "\" :: "d" :: s' => parseClass (CDigit :: acc) s'
  | "\" :: "s" :: s' => parseClass (CSpace :: acc) s'
  | "\" :: _ => None
  | "-" :: "]" :: s' => Some (rev (CChar 45 :: acc), s')
  | "-" :: s' =>
      match acc with
      | [] => parseClass [CChar 45] s'
      | _ :: _ => None
      end
  | "^" :: s' =>
      match acc with
      | [] => None
      | _ :: _ => parseClass (CChar 94 :: acc) s'
      end
  | c :: s' => parseClass (CChar (N_of_ascii c) :: acc) s'
  end%char.

Definition parseQuantifier (a : regex) (s : list ascii)
    : option (regex * list ascii) :=
  match s with
  | "*" :: "?" :: s' => Some (Star false a, s')
  | "*" :: s' => Some (Star true a, s')
  | "+" :: "?" :: _ => None
  | "+" :: s' => Some (plus a, s')
  | "?" :: "?" :: _ => None
  | "?" :: s' => Some (opt a, s')
  | "{" :: s' =>
      match digitVal (hd " " s'), parseNat 0 s' with
      | Some _, (n, "}" :: "?" :: _) => None
      | Some _, (n, "}" :: s'') => Some (times n a, s'')
      | _, _ => None
      end
  | _ => Some (a, s)
  end%char.

Fixpoint parseDisjunction (fuel : nat) (s : list ascii) {struct fuel}
    : option (regex * list ascii) :=
  match fuel with
  | O => None
  | S f =>
      match parseAlternative f s with
      | Some (a, "|" :: s')%char =>
          match parseDisjunction f s' with
          | Some (b, s'') => Some (Alt a b, s'')
          | None => None
          end
      | other => other
      end
  end
with parseAlternative (fuel : nat) (s : list ascii) {struct fuel}
    : option (regex * list ascii) :=
  match fuel with
  | O => None
  | S f =>
      match s with
      | [] => Some (Eps, s)
      | "|" :: _ => Some (Eps, s)
      | ")" :: _ => Some (Eps, s)
      | _ =>
          match parseTerm f s with
          | Some (t, s') =>
              match parseAlternative f s' with
              | Some (Eps, s'') => Some (t, s'')
              | Some (u, s'') => Some (Seq t u, s'')
              | None => None
              end
          | None => None
          end
      end%char
  end
with parseTerm (fuel : nat) (s : list ascii) {struct fuel}
    : option (regex * list ascii) :=
  match fuel with
  | O => None
  | S f =>
      match s with
      | "^" :: s' => Some (Bol, s')
      | "$" :: s' => Some (Eol, s')
      | "\" :: "b" :: s' => Some (WordB, s')
      | "\" :: "d" :: s' => parseQuantifier (Class [CDigit]) s'
      | "\" :: "s" :: s' => parseQuantifier (Class [CSpace]) s'
      | "\" :: c :: s' =>
          if isSyntaxChar c then parseQuantifier (chr c) s' else None
      | "." :: s' => parseQuantifier Dot s'
      | "[" :: s' =>
          match parseClass [] s' with
          | Some (items, s'') => parseQuantifier (Class items) s''
          | None => None
          end
      | "(" :: "?" :: _ => None
      | "(" :: s' =>
          match parseDisjunction f s' with
          | Some (a, ")" :: s'') => parseQuantifier a s''
          | _ => None
          end
      | c :: s' =>
          if isSyntaxChar c then None else parseQuantifier (chr c) s'
      | [] => None
      end%char
  end.

Definition parse (text : string) : option regex :=
  let s := list_ascii_of_string text in
  match parseDisjunction (4 * List.length s + 8) s with
  | Some (a, []) => Some a
  | _ => None
  end.

Definition parses (text : string) : bool :=
  match parse text with Some _ => true | None => false end.

(** A pattern of the script; the certificate says that [parse] reads
    its text. *)
Definition compile (ic : bool) (text : string) (_ : parses text = true)
    : pattern :=
  {| source := match parse text with Some a => a | None => Class [] end;
     ignoreCase := ic |}.

End RegExp.

(** [/text/] and [/text/i] *)
Notation "'rx' text" := (RegExp.compile false text eq_refl)
  (at level 9, text at level 0, only parsing).
Notation "'rxi' text" := (RegExp.compile true text eq_refl)
  (at level 9, text at level 0, only parsing).

Import RegExp.

(** Early return: [when c ret v;; k] is [if (c) return v;] followed by [k]. *)
Notation "'when' c 'ret' v ;; k" := (if c then Some v else k)
  (at level 10, c at level 99, v at level 9, k at level 200, only parsing).

(** [a <|> b]: the statements of [b] run when those of [a] returned nothing. *)
Notation "a <|> b" := (match a with Some v => Some v | None => b end)
  (at level 60, right associativity, only parsing).

(** ** VenueNormalizer: [normalizeVenue] *)

Section Normalizer.

(** [String.prototype.toLowerCase], whose mapping beyond Latin-1 is a table
    of the host; what is proved for every string is proved for every such
    function, and [JSString.toLowerCase] instantiates it on examples. *)
Variable toLowerCase : jsstring -> jsstring.

(** [/…$/]: the pattern text holds U+2026. *)
Definition trailingEllipsis : pattern :=
  {| source := Seq (Chr 8230) Eol; ignoreCase := false |}.

(** The preprocessing of [venueText], up to the whitespace clean-up. *)
Definition preprocess (venueText : jsstring) : jsstring :=
  let venueText := JSString.trim (replace trailingEllipsis [] venueText) in
  let venueText := replace (rx "\s*,\s*\d{4}(\s|$)") (js " ") venueText in
  let venueText := replace (rx "\s*\d{4}\s*$") [] venueText in
  let venueText := replace (rx "^\d{4}\s+") [] venueText in
  let venueText :=
    replace (rx "\s*,\s*\d+(\s*\(\d+\))?(\s|$)") (js " ") venueText in
  let venueText := replace (rxi "\s*,\s*pp?\s*[\d-]+") [] venueText in
  let venueText := replace (rx "\s*,\s*\d+-\d+\s*$") [] venueText in
  let venueText :=
    replace (rxi "^(proceedings of the |proceedings of |proceedings )") []
      venueText in
  JSString.trim (replaceAll (rx "\s+") (js " ") venueText).

(** [isWorkshop] *)
Definition workshopFlag (venueText : jsstring) : bool :=
  test (rxi "workshop|ws\b") venueText.

(** COMPUTER VISION CONFERENCES *)
Definition computerVisionConferences (lowerVenue : jsstring) (isWorkshop : bool)
    : option jsstring :=
  when test (rxi "computer vision and pattern recognition|cvpr|cvf.*?computer vision and pattern|proceedings.*?cvpr|ieee.*?cvf.*?computer vision and pattern recognition") lowerVenue
       || test (rxi "ieee.*?computer.*?society.*?conference.*?computer vision and pattern") lowerVenue
       || test (rxi "proceedings.*?ieee.*?conference.*?computer vision and pattern") lowerVenue
       || test (rxi "ieee.*?conference.*?computer vision and pattern") lowerVenue
       || test (rxi "\d{4}.*?proceedings.*?ieee.*?conference.*?computer vision and pattern") lowerVenue
       || test (rxi "\d{4}.*?ieee.*?computer.*?society.*?conference.*?computer vision") lowerVenue
  ret (if isWorkshop then js "CVPR Workshop" else js "CVPR");;
  when test (rxi "international conference on computer vision|iccv|proceedings.*?iccv|ieee.*?international conference on computer vision") lowerVenue
       || test (rxi "ieee.*?international.*?conference.*?computer vision") lowerVenue
       || test (rxi "proceedings.*?ieee.*?international.*?conference.*?computer vision") lowerVenue
  ret (if isWorkshop then js "ICCV Workshop" else js "ICCV");;
  when test (rxi "european conference on computer vision|eccv|proceedings.*?eccv") lowerVenue
       || test (rxi "european.*?conference.*?computer vision") lowerVenue
  ret (if isWorkshop then js "ECCV Workshop" else js "ECCV");;
  when test (rxi "winter conference on applications of computer vision|wacv|ieee.*?cvf.*?winter conference|cvf.*?winter conference") lowerVenue
  ret (if isWorkshop then js "WACV Workshop" else js "WACV");;
  when test (rxi "british machine vision conference|bmvc") lowerVenue
  ret (if isWorkshop then js "BMVC Workshop" else js "BMVC");;
  when test (rxi "asian conference on computer vision|accv") lowerVenue
  ret (if isWorkshop then js "ACCV Workshop" else js "ACCV");;
  None.

(** MACHINE LEARNING CONFERENCES *)
Definition machineLearningConferences (lowerVenue : jsstring) (isWorkshop : bool)
    : option jsstring :=
  when test (rxi "neural information processing systems|neurips|nips|advances in neural information processing|conference.*?neural information processing|proceedings.*?nips|proceedings.*?neurips") lowerVenue
  ret (if isWorkshop then js "NeurIPS Workshop" else js "NeurIPS");;
  when test (rxi "international conference on machine learning|icml|proceedings.*?icml") lowerVenue
  ret (if isWorkshop then js "ICML Workshop" else js "ICML");;
  when test (rxi "international conference on learning representations|iclr") lowerVenue
  ret (if isWorkshop then js "ICLR Workshop" else js "ICLR");;
  when test (rxi "artificial intelligence and statistics|aistats|international conference on artificial intelligence and statistics") lowerVenue
  ret (if isWorkshop then js "AISTATS Workshop" else js "AISTATS");;
  None.

(** AI CONFERENCES *)
Definition aiConferences (lowerVenue : jsstring) (isWorkshop : bool)
    : option jsstring :=
  when test (rxi "aaai|association for the advancement of artificial intelligence|national conference on artificial intelligence|proceedings.*?aaai") lowerVenue
  ret (if isWorkshop then js "AAAI Workshop" else js "AAAI");;
  when test (rxi "international joint conference on artificial intelligence|ijcai") lowerVenue
  ret (if isWorkshop then js "IJCAI Workshop" else js "IJCAI");;
  when test (rxi "uncertainty in artificial intelligence|uai") lowerVenue
  ret (if isWorkshop then js "UAI Workshop" else js "UAI");;
  None.

(** NLP CONFERENCES *)
Definition nlpConferences (lowerVenue : jsstring) (isWorkshop : bool)
    : option jsstring :=
  when test (rxi "association for computational linguistics|acl|proceedings.*?acl") lowerVenue
       && negb (test (rxi "naacl|eacl") lowerVenue)
  ret (if isWorkshop then js "ACL Workshop" else js "ACL");;
  when test (rxi "north american chapter|naacl|findings.*?naacl") lowerVenue
  ret (if isWorkshop then js "NAACL Workshop" else js "NAACL");;
  when test (rxi "empirical methods in natural language processing|emnlp") lowerVenue
  ret (if isWorkshop then js "EMNLP Workshop" else js "EMNLP");;
  when test (rxi "conference on computational natural language learning|conll") lowerVenue
  ret (if isWorkshop then js "CoNLL Workshop" else js "CoNLL");;
  when test (rxi "european chapter.*?acl|eacl") lowerVenue
  ret (if isWorkshop then js "EACL Workshop" else js "EACL");;
  when test (rxi "international conference on computational linguistics|coling") lowerVenue
  ret (if isWorkshop then js "COLING Workshop" else js "COLING");;
  None.

(** DATA MINING AND WEB CONFERENCES *)
Definition dataMiningAndWebConferences (lowerVenue : jsstring) (isWorkshop : bool)
    : option jsstring :=
  when test (rxi "sigkdd|knowledge discovery and data mining|kdd|proceedings.*?kdd") lowerVenue
  ret (if isWorkshop then js "KDD Workshop" else js "ACM SIGKDD");;
  when test (rxi "international conference on data mining|icdm") lowerVenue
  ret (if isWorkshop then js "ICDM Workshop" else js "ICDM");;
  when test (rxi "world wide web conference|www|international world wide web") lowerVenue
  ret (if isWorkshop then js "WWW Workshop" else js "WWW");;
  None.

(** ROBOTICS CONFERENCES *)
Definition roboticsConferences (lowerVenue : jsstring) (isWorkshop : bool)
    : option jsstring :=
  when test (rxi "international conference on robotics and automation|icra|ieee.*?robotics and automation") lowerVenue
  ret (if isWorkshop then js "ICRA Workshop" else js "ICRA");;
  when test (rxi "intelligent robots and systems|iros|ieee.*?rsj.*?intelligent robots") lowerVenue
  ret (if isWorkshop then js "IROS Workshop" else js "IROS");;
  None.

(** SIGNAL PROCESSING CONFERENCES *)
Definition signalProcessingConferences (lowerVenue : jsstring) (isWorkshop : bool)
    : option jsstring :=
  when test (rxi "acoustics.*?speech.*?signal processing|icassp|international conference on acoustics") lowerVenue
  ret (if isWorkshop then js "ICASSP Workshop" else js "ICASSP");;
  when test (rxi "international conference on image processing|icip") lowerVenue
  ret (if isWorkshop then js "ICIP Workshop" else js "ICIP");;
  None.

(** MEDICAL IMAGING CONFERENCES *)
Definition medicalImagingConferences (lowerVenue : jsstring) (isWorkshop : bool)
    : option jsstring :=
  when test (rxi "medical image computing and computer.assisted intervention|miccai") lowerVenue
       || test (rxi "international conference on medical image computing and computer.assisted") lowerVenue
       || test (rxi "medical image computing and computer.assisted") lowerVenue
  ret (if isWorkshop then js "MICCAI Workshop" else js "MICCAI");;
  when test (rxi "information processing in medical imaging|ipmi") lowerVenue
  ret (if isWorkshop then js "IPMI Workshop" else js "IPMI");;
  None.

(** GRAPHICS AND VISUALIZATION *)
Definition graphicsAndVisualization (lowerVenue : jsstring) (isWorkshop : bool)
    : option jsstring :=
  when test (rxi "siggraph|computer graphics and interactive techniques") lowerVenue
  ret (if isWorkshop then js "SIGGRAPH Workshop" else js "SIGGRAPH");;
  when test (rxi "ieee visualization|vis\s|visualization conference") lowerVenue
  ret (if isWorkshop then js "IEEE VIS Workshop" else js "IEEE VIS");;
  None.

(** IEEE TRANSACTIONS (JOURNALS) *)
Definition ieeeTransactions (lowerVenue : jsstring) (isWorkshop : bool)
    : option jsstring :=
  when test (rxi "transactions on pattern analysis and machine intelligence|tpami|ieee.*?pattern analysis") lowerVenue
  ret (js "IEEE TPAMI");;
  when test (rxi "transactions on image processing|tip") lowerVenue
  ret (js "IEEE TIP");;
  when test (rxi "transactions on neural networks|tnn|tnnls") lowerVenue
  ret (js "IEEE TNN");;
  when test (rxi "transactions on cybernetics|tcyb") lowerVenue
  ret (js "IEEE TCYB");;
  when test (rxi "transactions on multimedia|tmm") lowerVenue
  ret (js "IEEE TMM");;
  when test (rxi "ieee access") lowerVenue
  ret (js "IEEE Access");;
  None.

(** OTHER MAJOR JOURNALS *)
Definition otherMajorJournals (lowerVenue : jsstring) (isWorkshop : bool)
    : option jsstring :=
  when test (rxi "international journal of computer vision|ijcv") lowerVenue
  ret (js "IJCV");;
  when test (rxi "journal of machine learning research|jmlr") lowerVenue
  ret (js "JMLR");;
  when test (rxi "machine learning journal|^machine learning$") lowerVenue
  ret (js "Machine Learning Journal");;
  when test (rxi "computer vision and image understanding|cviu") lowerVenue
  ret (js "CVIU");;
  when test (rxi "pattern recognition\s|pattern recognition$") lowerVenue
  ret (js "Pattern Recognition");;
  when test (rxi "medical image analysis") lowerVenue
  ret (js "Medical Image Analysis");;
  when test (rxi "neurocomputing") lowerVenue
  ret (js "Neurocomputing");;
  None.

(** HIGH-IMPACT JOURNALS *)
Definition highImpactJournals (lowerVenue : jsstring) (isWorkshop : bool)
    : option jsstring :=
  when test (rxi "^science\s|^\s*science$") lowerVenue
  ret (js "Science");;
  when test (rxi "nature communications") lowerVenue
  ret (js "Nature Communications");;
  when test (rxi "nature machine intelligence") lowerVenue
  ret (js "Nature Machine Intelligence");;
  when test (rxi "^nature$") lowerVenue
  ret (js "Nature");;
  when test (rxi "proceedings of the national academy of sciences|pnas") lowerVenue
  ret (js "PNAS");;
  None.

(** PREPRINTS AND OTHER SOURCES *)
Definition preprintsAndOtherSources (lowerVenue : jsstring) (isWorkshop : bool)
    : option jsstring :=
  when test (rxi "arxiv|ar xiv|corr") lowerVenue
  ret (js "arXiv");;
  when test (rxi "biorxiv") lowerVenue
  ret (js "bioRxiv");;
  when test (rxi "patent|us patent") lowerVenue
  ret (js "US Patents");;
  when test (rxi "ssrn|social science research network") lowerVenue
  ret (js "Available at SSRN");;
  None.

(** PUBLISHERS *)
Definition publishers (lowerVenue : jsstring) (isWorkshop : bool)
    : option jsstring :=
  when test (rxi "springer|lecture notes in computer science|lncs") lowerVenue
  ret (js "Springer");;
  when test (rxi "mit press") lowerVenue
  ret (js "MIT Press");;
  None.

(** ADDITIONAL CONFERENCES *)
Definition additionalConferences (lowerVenue : jsstring) (isWorkshop : bool)
    : option jsstring :=
  when test (rxi "conference on human factors|chi\s|acm chi") lowerVenue
  ret (if isWorkshop then js "CHI Workshop" else js "ACM CHI");;
  when test (rxi "sigir|information retrieval") lowerVenue
  ret (if isWorkshop then js "SIGIR Workshop" else js "ACM SIGIR");;
  when test (rxi "interspeech") lowerVenue
  ret (if isWorkshop then js "INTERSPEECH Workshop" else js "INTERSPEECH");;
  when test (rxi "isca") lowerVenue
  ret (js "ISCA");;
  None.

(** WORKSHOP DETECTION *)
Definition workshopDetection (lowerVenue : jsstring) (isWorkshop : bool)
    : option jsstring :=
  if isWorkshop then
    when test (rxi "cvpr") lowerVenue
    ret (js "CVPR Workshop");;
    when test (rxi "iccv") lowerVenue
    ret (js "ICCV Workshop");;
    when test (rxi "eccv") lowerVenue
    ret (js "ECCV Workshop");;
    when test (rxi "neurips|nips") lowerVenue
    ret (js "NeurIPS Workshop");;
    when test (rxi "icml") lowerVenue
    ret (js "ICML Workshop");;
    when test (rxi "aaai") lowerVenue
    ret (js "AAAI Workshop");;
    when test (rxi "ijcai") lowerVenue
    ret (js "IJCAI Workshop");;
    Some (js "Workshop")
  else
  None.

(** ADDITIONAL PATTERN MATCHING FOR COMMON ISSUES *)
Definition additionalPatternMatching (lowerVenue : jsstring) (isWorkshop : bool)
    : option jsstring :=
  when test (rxi "computer vision.*pattern") lowerVenue
       && test (rxi "ieee|conference|proceedings") lowerVenue
  ret (if isWorkshop then js "CVPR Workshop" else js "CVPR");;
  when test (rxi "international.*computer vision") lowerVenue
       && test (rxi "ieee|conference|proceedings") lowerVenue
       && negb (test (rxi "pattern") lowerVenue)
  ret (if isWorkshop then js "ICCV Workshop" else js "ICCV");;
  when test (rxi "european.*computer vision") lowerVenue
  ret (if isWorkshop then js "ECCV Workshop" else js "ECCV");;
  when test (rxi "medical.*image.*computing") lowerVenue
  ret (if isWorkshop then js "MICCAI Workshop" else js "MICCAI");;
  None.

(** The rules in the order of the script: the first one that returns
    decides. *)
Definition classify (lowerVenue : jsstring) (isWorkshop : bool)
    : option jsstring :=
  computerVisionConferences lowerVenue isWorkshop
  <|> machineLearningConferences lowerVenue isWorkshop
  <|> aiConferences lowerVenue isWorkshop
  <|> nlpConferences lowerVenue isWorkshop
  <|> dataMiningAndWebConferences lowerVenue isWorkshop
  <|> roboticsConferences lowerVenue isWorkshop
  <|> signalProcessingConferences lowerVenue isWorkshop
  <|> medicalImagingConferences lowerVenue isWorkshop
  <|> graphicsAndVisualization lowerVenue isWorkshop
  <|> ieeeTransactions lowerVenue isWorkshop
  <|> otherMajorJournals lowerVenue isWorkshop
  <|> highImpactJournals lowerVenue isWorkshop
  <|> preprintsAndOtherSources lowerVenue isWorkshop
  <|> publishers lowerVenue isWorkshop
  <|> additionalConferences lowerVenue isWorkshop
  <|> workshopDetection lowerVenue isWorkshop
  <|> additionalPatternMatching lowerVenue isWorkshop.

(** FALLBACK PROCESSING: [simplifiedVenue] before the final test.  The
    array of [split] has a first element, see [split_first]. *)
Definition simplify (venueText : jsstring) : jsstring :=
  let simplifiedVenue :=
    JSString.trim (hd [] (split (rx "[,.(]") venueText)) in
  let simplifiedVenue :=
    replace
      (rxi "^(proceedings of the |proceedings of |proceedings |proc\.?\s+|the\s+)")
      [] simplifiedVenue in
  let simplifiedVenue :=
    replace (rxi "\s+(proceedings|proc\.?)$") [] simplifiedVenue in
  let simplifiedVenue := replace (rx "\s+\d{4}$") [] simplifiedVenue in
  let simplifiedVenue := replace (rx "\s+\d+$") [] simplifiedVenue in
  JSString.trim simplifiedVenue.

Definition fallback (venueText : jsstring) : option jsstring :=
  let simplifiedVenue := simplify venueText in
  if (List.length simplifiedVenue <? 3)
     || test (rxi "^(the|a|an|in|on|of|and|for|with)$") simplifiedVenue
  then None
  else
    match simplifiedVenue with
    | [] => None
    | _ :: _ => Some simplifiedVenue
    end.

(** [normalizeVenue]; [None] is [null]. *)
Definition normalizeVenue (venueText : jsstring) : option jsstring :=
  match venueText with
  | [] => None
  | _ :: _ =>
      let venueText := preprocess venueText in
      let lowerVenue := toLowerCase venueText in
      let isWorkshop := workshopFlag venueText in
      classify lowerVenue isWorkshop <|> fallback venueText
  end.

End Normalizer.

(** The labels that the rules return. *)
Definition canonicalLabels : list jsstring :=
  map js
    ["CVPR Workshop"; "CVPR"; "ICCV Workshop"; "ICCV"; "ECCV Workshop";
     "ECCV"; "WACV Workshop"; "WACV"; "BMVC Workshop"; "BMVC";
     "ACCV Workshop"; "ACCV"; "NeurIPS Workshop"; "NeurIPS"; "ICML Workshop";
     "ICML"; "ICLR Workshop"; "ICLR"; "AISTATS Workshop"; "AISTATS";
     "AAAI Workshop"; "AAAI"; "IJCAI Workshop"; "IJCAI"; "UAI Workshop";
     "UAI"; "ACL Workshop"; "ACL"; "NAACL Workshop"; "NAACL";
     "EMNLP Workshop"; "EMNLP"; "CoNLL Workshop"; "CoNLL"; "EACL Workshop";
     "EACL"; "COLING Workshop"; "COLING"; "KDD Workshop"; "ACM SIGKDD";
     "ICDM Workshop"; "ICDM"; "WWW Workshop"; "WWW"; "ICRA Workshop"; "ICRA";
     "IROS Workshop"; "IROS"; "ICASSP Workshop"; "ICASSP"; "ICIP Workshop";
     "ICIP"; "MICCAI Workshop"; "MICCAI"; "IPMI Workshop"; "IPMI";
     "SIGGRAPH Workshop"; "SIGGRAPH"; "IEEE VIS Workshop"; "IEEE VIS";
     "IEEE TPAMI"; "IEEE TIP"; "IEEE TNN"; "IEEE TCYB"; "IEEE TMM";
     "IEEE Access"; "IJCV"; "JMLR"; "Machine Learning Journal"; "CVIU";
     "Pattern Recognition"; "Medical Image Analysis"; "Neurocomputing";
     "Science"; "Nature Communications"; "Nature Machine Intelligence";
     "Nature"; "PNAS"; "arXiv"; "bioRxiv"; "US Patents"; "Available at SSRN";
     "Springer"; "MIT Press"; "CHI Workshop"; "ACM CHI"; "SIGIR Workshop";
     "ACM SIGIR"; "INTERSPEECH Workshop"; "INTERSPEECH"; "ISCA"; "Workshop"]%string.

(** ** Values and the ordinary object used as the venue table *)

Module JSValue.

Inductive value :=
| Undefined
| NaN
| Number (n : nat)
| String (s : jsstring)
| Function (name : jsstring)   (* a built-in function object *)
| ObjectPrototype.             (* %Object.prototype% *)

(** ToBoolean *)
Definition truthy (v : value) : bool :=
  match v with
  | Undefined | NaN | Number O | String [] => false
  | _ => true
  end.

(** [a || b] *)
Definition or (a b : value) : value := if truthy a then a else b.

(** ToPrimitive followed by ToString.  The text of a built-in function is
    the one of V8, the engine of the host of this script. *)
Definition toString (v : value) : jsstring :=
  match v with
  | Undefined => js "undefined"
  | NaN => js "NaN"
  | Number n => JSString.ofNat n
  | String s => s
  | Function name => js "function " ++ name ++ js "() { [native code] }"
  | ObjectPrototype => js "[object Object]"
  end.

Definition isString (v : value) : bool :=
  match v with
  | String _ | Function _ | ObjectPrototype => true
  | _ => false
  end.

(** [a + b] *)
Definition add (a b : value) : value :=
  if isString a || isString b then String (toString a ++ toString b)
  else
    match a, b with
    | Number n, Number m => Number (n + m)
    | _, _ => NaN
    end.

Fixpoint digits (acc : N) (s : jsstring) : option N :=
  match s with
  | [] => Some acc
  | c :: s' =>
      if Char.isDigit c then digits (10 * acc + (c - 48))%N s'
      else None
  end.

(** ToNumber; [None] is NaN.  Of the numeric strings only the unsigned
    decimal integers are read: every string that this script stores is
    the text of an object followed by ones. *)
Definition toNumber (v : value) : option Z :=
  match v with
  | Number n => Some (Z.of_nat n)
  | String s =>
      match JSString.trim s with
      | [] => Some 0%Z
      | t => option_map Z.of_N (digits 0 t)
      end
  | _ => None
  end.

(** [a - b]; [None] is NaN. *)
Definition sub (a b : value) : option Z :=
  match toNumber a, toNumber b with
  | Some x, Some y => Some (x - y)%Z
  | _, _ => None
  end.

End JSValue.

Module JSObject.
Import JSValue.

(** The own properties of an object made by [{}], in creation order.  Its
    prototype is %Object.prototype%. *)
Definition object := list (jsstring * value).

Definition empty : object := [].

Fixpoint getOwn (o : object) (k : jsstring) : option value :=
  match o with
  | [] => None
  | (k', v) :: o' => if jsstring_eqb k' k then Some v else getOwn o' k
  end.

Definition objectPrototypeFunctions : list jsstring :=
  map js
    ["hasOwnProperty"; "isPrototypeOf"; "propertyIsEnumerable";
     "toLocaleString"; "toString"; "valueOf"; "__defineGetter__";
     "__defineSetter__"; "__lookupGetter__"; "__lookupSetter__"]%string.

(** The properties of %Object.prototype%, read through an object made by
    [{}]: [constructor] is %Object%, and the getter of [__proto__] gives
    the prototype of the receiver. *)
Definition inherited (k : jsstring) : value :=
  if jsstring_eqb k (js "constructor") then Function (js "Object")
  else if existsb (jsstring_eqb k) objectPrototypeFunctions then Function k
  else if jsstring_eqb k (js "__proto__") then ObjectPrototype
  else Undefined.

(** [o[k]] *)
Definition get (o : object) (k : jsstring) : value :=
  match getOwn o k with
  | Some v => v
  | None => inherited k
  end.

Fixpoint update (o : object) (k : jsstring) (v : value) : object :=
  match o with
  | [] => []
  | (k', v') :: o' =>
      if jsstring_eqb k' k then (k', v) :: o' else (k', v') :: update o' k v
  end.

Definition isObject (v : value) : bool :=
  match v with
  | Function _ | ObjectPrototype => true
  | _ => false
  end.

(** [o[k] = v]: an own property keeps its place; the setter of [__proto__]
    ignores a value that is not an object; otherwise (the inherited data
    properties are writable) a new own property is created. *)
Definition set (o : object) (k : jsstring) (v : value) : object :=
  match getOwn o k with
  | Some _ => update o k v
  | None =>
      if jsstring_eqb k (js "__proto__") && negb (isObject v) then o
      else o ++ [(k, v)]
  end.

(** An array index: the canonical decimal text of an integer below
    2^32 - 1. *)
Definition arrayIndex (k : jsstring) : option N :=
  match k with
  | [] => None
  | c :: k' =>
      if (c =? 48)%N && negb (List.length k' =? 0) then None
      else if 10 <? List.length k then None
      else
        match digits 0 k with
        | Some n => if (n <? 4294967295)%N then Some n else None
        | None => None
        end
  end.

Fixpoint insertIndex (e : N * (jsstring * value))
    (l : list (N * (jsstring * value))) : list (N * (jsstring * value)) :=
  match l with
  | [] => [e]
  | e' :: l' => if (fst e <? fst e')%N then e :: l else e' :: insertIndex e l'
  end.

Fixpoint indexed (o : object) : list (N * (jsstring * value)) :=
  match o with
  | [] => []
  | (k, v) :: o' =>
      match arrayIndex k with
      | Some n => insertIndex (n, (k, v)) (indexed o')
      | None => indexed o'
      end
  end.

Definition named (o : object) : object :=
  filter (fun kv => match arrayIndex (fst kv) with
                    | Some _ => false
                    | None => true
                    end) o.

(** [Object.entries(o)]: the array indices in ascending order, then the
    other keys in creation order. *)
Definition entries (o : object) : list (jsstring * value) :=
  map snd (indexed o) ++ named o.

End JSObject.

Module JSArray.

(** [Array.prototype.sort] with a comparator: stable; a NaN from the
    comparator counts as zero.  [x] goes before the first element that it
    does not have to follow.  (With a comparator that is not consistent
    the language leaves the order to the implementation; this is the order
    of an insertion sort.) *)
Section Sort.
Variable A : Type.
Variable comparefn : A -> A -> option Z.

Definition after (x y : A) : bool :=
  match comparefn x y with
  | Some d => (0 <? d)%Z
  | None => false
  end.

Fixpoint insert (x : A) (l : list A) : list A :=
  match l with
  | [] => [x]
  | y :: l' => if after x y then y :: insert x l' else x :: l
  end.

Fixpoint sort (l : list A) : list A :=
  match l with
  | [] => []
  | x :: l' => insert x (sort l')
  end.
End Sort.

End JSArray.

Import JSValue.

(** ** RecordExtractor and aggregation: [extractVenueData] *)

(** What the script reads of one row [tr.gsc_a_tr]: the text of its
    [.gs_gray] elements in document order and of its first [.gsc_a_j]
    element. *)
Record publication := {
  gs_gray : list jsstring;
  gsc_a_j : option jsstring
}.

Record venueData := {
  venues : list (jsstring * value);   (* { venue, count } *)
  processedCount : nat;
  skippedCount : nat
}.

Section Extraction.

Variable toLowerCase : jsstring -> jsstring.

(** The text of [venueElement], when there is one. *)
Definition venueElement (pub : publication) : option jsstring :=
  match gs_gray pub with
  | _ :: second :: _ => Some second
  | [only] => Some only
  | [] =>
      match gsc_a_j pub with
      | Some e => Some e
      | None => hd_error (gs_gray pub)
      end
  end.

(** The callback of [publications.forEach], on the table and the two
    counters, from the text of [venueElement] on. *)
Definition visitText (acc : JSObject.object * nat * nat)
    (element : option jsstring) : JSObject.object * nat * nat :=
  let '(venues, processedCount, skippedCount) := acc in
  match element with
  | Some textContent =>
      let venueText := JSString.trim textContent in
      match normalizeVenue toLowerCase venueText with
      | Some ((_ :: _) as normalizedVenue) =>
          (JSObject.set venues normalizedVenue
             (add (or (JSObject.get venues normalizedVenue) (Number 0))
                  (Number 1)),
           S processedCount, skippedCount)
      | Some [] | None => (venues, processedCount, S skippedCount)
      end
  | None => (venues, processedCount, S skippedCount)
  end.

Definition visit (acc : JSObject.object * nat * nat) (pub : publication)
    : JSObject.object * nat * nat :=
  visitText acc (venueElement pub).

(** [(a, b) => b.count - a.count] *)
Definition byCountDescending (a b : jsstring * value) : option Z :=
  sub (snd b) (snd a).

Definition extractVenueData (publications : list publication) : venueData :=
  let '(venues, processedCount, skippedCount) :=
    fold_left visit publications (JSObject.empty, 0, 0) in
  {| venues := JSArray.sort byCountDescending (JSObject.entries venues);
     processedCount := processedCount;
     skippedCount := skippedCount |}.

End Extraction.

(** [venues.reduce((sum, item) => sum + item.count, 0)], the cross-check of
    [analyzeAllVenues]. *)
Definition totalPubsFromVenues (venues : list (jsstring * value)) : value :=
  fold_left (fun sum item => add sum (snd item)) venues (Number 0).

(** ** The page as the script sees it *)

(** A thrown [Error], by its message. *)
Inductive result (A : Type) :=
| Ok (a : A)
| Throw (message : jsstring).
Arguments Ok {A} a.
Arguments Throw {A} message.

(** The content source.  [page] is the state of the document together with
    whatever drives it.  [findShowMoreButtonSync] stands for the DOM queries
    of that function and of [isValidShowMoreButtonFast]; [click] for the
    statements on [showMoreButton] (its [tagName], [addEventListener] and
    [click()]), which leave a page behind even when they throw; [elapse d]
    for a timer of [d] milliseconds: the page when the timer fires and by how
    many milliseconds it fires late.  Counting the rows reads the document
    and cannot throw. *)
Record ContentSource := {
  page : Type;
  button : Type;
  href : page -> jsstring;
  rows : page -> list publication;
  findShowMoreButtonSync : page -> result (option button);
  click : button -> page -> page * option jsstring;
  elapse : N -> page -> page * N
}.

(** [document.querySelectorAll("tr.gsc_a_tr").length] *)
Definition countRows (src : ContentSource) (p : page src) : nat :=
  List.length (rows src p).

(** ** IncrementalLoader *)

Section Loader.

Variable src : ContentSource.

(** The delay before the next check, from [consecutiveFailures]. *)
Definition progressiveDelay (consecutiveFailures : nat) : N :=
  if consecutiveFailures <? 5 then 50
  else if consecutiveFailures <? 15 then 200
  else 500.

Record waited := {
  currentCount : nat;
  pageNow : page src;
  checkCount : nat          (* ghost: the checks made *)
}.

(** [checkForNewPublications], [elapsed] being [Date.now() - startTime].
    One unit of [budget] is spent per check; [None] is a budget spent
    before the promise resolves. *)
Fixpoint checkForNewPublications (budget : nat) (previousCount : nat)
    (timeout elapsed : N) (checks consecutiveFailures : nat)
    (p : page src) {struct budget} : option waited :=
  match budget with
  | O => None
  | S budget' =>
      let checks := S checks in
      let currentCount := countRows src p in
      if previousCount <? currentCount then
        Some {| currentCount := currentCount; pageNow := p;
                checkCount := checks |}
      else if (timeout <? elapsed)%N then
        Some {| currentCount := currentCount; pageNow := p;
                checkCount := checks |}
      else
        let consecutiveFailures := S consecutiveFailures in
        let delay := progressiveDelay consecutiveFailures in
        let (p', late) := elapse src delay p in
        checkForNewPublications budget' previousCount timeout
          (elapsed + delay + late)%N checks consecutiveFailures p'
  end.

(** [waitForNewPublicationsOptimized]: every timer takes its delay at
    least, so [timeout + 2] checks are a budget that is never spent
    (lemma [waitForNewPublicationsOptimized_resolves]). *)
Definition waitForNewPublicationsOptimized (previousCount : nat)
    (timeout : N) (p : page src) : option waited :=
  checkForNewPublications (S (S (N.to_nat timeout))) previousCount timeout
    0 0 0 p.

Definition maxAttempts : nat := 200.

Inductive exit :=
| NoButton        (* no show more button found *)
| NoGrowth        (* no new publications loaded *)
| ClickError      (* error during pagination, caught *)
| Ceiling.        (* attempts reached maxAttempts *)

Record paginated := {
  attempts : nat;
  pageAtExit : page src;
  reason : exit             (* ghost: which way the loop was left *)
}.

(** The [while (attempts < maxAttempts)] loop; [left] is
    [maxAttempts - attempts]. *)
Fixpoint paginate (left attempts publicationsBefore : nat) (p : page src)
    {struct left} : option (result paginated) :=
  match left with
  | O => Some (Ok {| attempts := attempts; pageAtExit := p;
                     reason := Ceiling |})
  | S left' =>
      match findShowMoreButtonSync src p with
      | Throw e => Some (Throw e)
      | Ok None => Some (Ok {| attempts := attempts; pageAtExit := p;
                               reason := NoButton |})
      | Ok (Some showMoreButton) =>
          match click src showMoreButton p with
          | (p1, Some _) =>
              Some (Ok {| attempts := attempts; pageAtExit := p1;
                          reason := ClickError |})
          | (p1, None) =>
              match waitForNewPublicationsOptimized publicationsBefore
                      10000 p1 with
              | None => None
              | Some w =>
                  let newCount := currentCount w in
                  if newCount =? publicationsBefore then
                    Some (Ok {| attempts := attempts;
                                pageAtExit := pageNow w;
                                reason := NoGrowth |})
                  else
                    let (p3, _) := elapse src 300 (pageNow w) in
                    paginate left' (S attempts) newCount p3
              end
          end
      end
  end.

Record loaded := {
  finalCount : nat;          (* the value returned *)
  attemptsUsed : nat;        (* ghost *)
  exitReason : exit;         (* ghost *)
  pageCounted : page src;    (* ghost: the page when [finalCount] was read *)
  pageAfter : page src       (* the page when the function returns *)
}.

Definition loadAllPublications (p : page src) : option (result loaded) :=
  let publicationsBefore := countRows src p in
  match paginate maxAttempts 0 publicationsBefore p with
  | None => None
  | Some (Throw e) => Some (Throw e)
  | Some (Ok r) =>
      let finalCount := countRows src (pageAtExit r) in
      let (p', _) := elapse src 500 (pageAtExit r) in
      Some (Ok {| finalCount := finalCount; attemptsUsed := attempts r;
                  exitReason := reason r; pageCounted := pageAtExit r;
                  pageAfter := p' |})
  end.

End Loader.

(** ** AnalysisOrchestrator *)

Record analysisData := {
  data_venues : list (jsstring * value);
  totalFound : nat;
  totalProcessed : nat;
  totalSkipped : nat
}.

Definition notAProfile : jsstring :=
  js "This page doesn't appear to be a Google Scholar profile with publications. Please navigate to a profile page like: scholar.google.com/citations?user=...".

Definition noPublications : jsstring :=
  js "No publications found on this page. Make sure you are on the 'ARTICLES' tab of a Google Scholar profile page with publications.".

Definition noVenues : jsstring :=
  js "No venues could be extracted from the publications. Please check if you're on the ARTICLES tab of a Scholar profile.".

Section Orchestrator.

Variable toLowerCase : jsstring -> jsstring.
Variable src : ContentSource.

Definition isValidScholarProfilePage (p : page src) : bool :=
  let url := href src p in
  if negb (JSString.includes url (js "scholar.google.")) then false
  else if negb (JSString.includes url (js "/citations?")) then false
  else if JSString.includes url (js "view_op=view_citation") then false
  else
    JSString.includes url (js "user=")
    && (JSString.includes url (js "view_op=list_works")
        || negb (JSString.includes url (js "view_op="))
        || JSString.includes url (js "view_op=list_colleagues")).

(** Steps 4 and 5 of [analyzeAllVenues], on the page that the loader
    left: extraction, aggregation and the result. *)
Definition analyzeLoaded (p : page src) : result analysisData :=
  let actualCount := countRows src p in
  let venueAnalysisResult := extractVenueData toLowerCase (rows src p) in
  if List.length (venues venueAnalysisResult) =? 0 then Throw noVenues
  else
    Ok {| data_venues := venues venueAnalysisResult;
          totalFound := actualCount;
          totalProcessed := processedCount venueAnalysisResult;
          totalSkipped := skippedCount venueAnalysisResult |}.

(** [analyzeAllVenues]: the data of the success response, or the error
    thrown. *)
Definition analyzeAllVenues (p : page src) : option (result analysisData) :=
  if negb (isValidScholarProfilePage p) then Some (Throw notAProfile)
  else
    let initialCount := countRows src p in
    if initialCount =? 0 then Some (Throw noPublications)
    else
      match loadAllPublications src p with
      | None => None
      | Some (Throw e) => Some (Throw e)
      | Some (Ok l) => Some (analyzeLoaded (pageAfter l))
      end.

End Orchestrator.

(** ** The message listener *)

(** What [sendResponse] is given; a field that is [None] is absent. *)
Record response := {
  success : option bool;
  error : option jsstring;
  analysis : option analysisData   (* venues and the three totals *)
}.

Definition alreadyInProgress : jsstring :=
  js "Analysis already in progress - please wait".

(** The script between two events: the flag, and the runs whose promise has
    not settled yet, each with the [sendResponse] it will call and the way it
    will settle. *)
Record script := {
  isAnalyzing : bool;
  inFlight : list (nat * result analysisData)
}.

Record reaction := {
  next : script;
  sent : list (nat * response);   (* calls of [sendResponse] *)
  returned : bool                 (* [true], or nothing *)
}.

Section Listener.

Variable toLowerCase : jsstring -> jsstring.
Variable src : ContentSource.

(** The listener of [chrome.runtime.onMessage] for a request with the
    given [action], the page being [p]; [None] when the run that it
    starts never settles. *)
Definition onMessage (st : script) (action : jsstring) (sendResponse : nat)
    (p : page src) : option reaction :=
  if jsstring_eqb action (js "analyzeVenues") then
    if isAnalyzing st then
      Some {| next := st;
              sent := [(sendResponse,
                        {| success := None;
                           error := Some alreadyInProgress;
                           analysis := None |})];
              returned := true |}
    else
      match analyzeAllVenues toLowerCase src p with
      | None => None
      | Some outcome =>
          Some {| next := {| isAnalyzing := true;
                             inFlight := inFlight st
                                         ++ [(sendResponse, outcome)] |};
                  sent := [];
                  returned := true |}
      end
  else Some {| next := st; sent := []; returned := false |}.

(** The promise of the oldest run settles: [then] or [catch]. *)
Definition onSettled (st : script) : reaction :=
  match inFlight st with
  | [] => {| next := st; sent := []; returned := false |}
  | (sendResponse, outcome) :: others =>
      {| next := {| isAnalyzing := false; inFlight := others |};
         sent := [(sendResponse,
                   match outcome with
                   | Ok analysisData =>
                       {| success := Some true; error := None;
                          analysis := Some analysisData |}
                   | Throw message =>
                       {| success := Some false; error := Some message;
                          analysis := None |}
                   end)];
         returned := false |}
  end.

(** The listener of [beforeunload]. *)
Definition onBeforeUnload (st : script) : script :=
  {| isAnalyzing := false; inFlight := inFlight st |}.

End Listener.

(** ** The search for the show more button

    The document as [findShowMoreButtonSync] and
    [isValidShowMoreButtonFast] read it: its elements in document order,
    each with the properties and attributes that the two functions look
    at. *)

Module Dom.

(** [element.href]: absent (undefined or null), a string, or an object
    without an [includes] method (the SVGAnimatedString of an SVG link). *)
Inductive hrefValue :=
| NoHref
| HrefString (s : jsstring)
| HrefObject.

Record element := {
  localName : jsstring;         (* as type selectors match it *)
  id : jsstring;
  classList : list jsstring;
  role : option jsstring;       (* the attribute [role] *)
  onclick : option jsstring;    (* the attribute [onclick] *)
  textContent : jsstring;
  offsetParent : bool;          (* [offsetParent !== null] *)
  disabled : bool;              (* [disabled] is truthy *)
  href : hrefValue;
  inTitleCell : bool            (* [closest("td.gsc_a_t")] is not null *)
}.

Definition document := list element.

Definition hasClass (c : jsstring) (e : element) : bool :=
  existsb (jsstring_eqb c) (classList e).

Definition attributeContains (a : option jsstring) (w : jsstring) : bool :=
  match a with
  | Some v => JSString.includes v w
  | None => false
  end.

Definition attributeIs (a : option jsstring) (w : jsstring) : bool :=
  match a with
  | Some v => jsstring_eqb v w
  | None => false
  end.

(** The selectors of [specificSelectors]. *)
Definition specificSelectors : list (element -> bool) :=
  [ (fun e => jsstring_eqb (id e) (js "gsc_bpf_more"));
    (fun e => jsstring_eqb (localName e) (js "button")
              && jsstring_eqb (id e) (js "gsc_bpf_more"));
    hasClass (js "gsc_pgn_pnx") ].

(** [button, span[role="button"], div[role="button"]] *)
Definition buttonLike (e : element) : bool :=
  jsstring_eqb (localName e) (js "button")
  || (jsstring_eqb (localName e) (js "span")
      && attributeIs (role e) (js "button"))
  || (jsstring_eqb (localName e) (js "div")
      && attributeIs (role e) (js "button")).

(** [[onclick*="gsc"], [onclick*="more"]] *)
Definition hasOnclick (e : element) : bool :=
  attributeContains (onclick e) (js "gsc")
  || attributeContains (onclick e) (js "more").

(** [document.querySelector] *)
Definition querySelector (selector : element -> bool) (doc : document)
    : option element :=
  find selector doc.

(** [document.querySelectorAll] *)
Definition querySelectorAll (selector : element -> bool) (doc : document)
    : list element :=
  filter selector doc.

Section Discovery.

Variable toLowerCase : jsstring -> jsstring.

(** [element.textContent.toLowerCase().trim()] *)
Definition lowerText (e : element) : jsstring :=
  JSString.trim (toLowerCase (textContent e)).

(** [isNotPaperLink]; the conjunction stops at its first false operand, and
    calling [includes] on an object that has none throws. *)
Definition isNotPaperLink (e : element) : result bool :=
  if inTitleCell e then Ok false
  else if hasClass (js "gsc_a_at") e then Ok false
  else
    match href e with
    | NoHref => Ok true
    | HrefString s => Ok (negb (JSString.includes s (js "view_citation")))
    | HrefObject => Throw (js "element.href?.includes is not a function")
    end.

Definition isValidShowMoreButtonFast (e : element) : result bool :=
  let isVisible := offsetParent e in
  let isEnabled := negb (disabled e) in
  let text := lowerText e in
  let hasValidText :=
    JSString.includes text (js "show more")
    || JSString.includes text (js "more")
    || jsstring_eqb text (js "show")
    || jsstring_eqb (id e) (js "gsc_bpf_more") in
  match isNotPaperLink e with
  | Throw m => Throw m
  | Ok isNotPaperLink =>
      Ok (isVisible && isEnabled && hasValidText && isNotPaperLink)
  end.

(** One of the three loops, on its candidates: the first valid one is
    returned. *)
Fixpoint firstValid (candidates : list element) : result (option element) :=
  match candidates with
  | [] => Ok None
  | e :: others =>
      match isValidShowMoreButtonFast e with
      | Throw m => Throw m
      | Ok true => Ok (Some e)
      | Ok false => firstValid others
      end
  end.

(** The elements that [querySelector] finds for the specific selectors. *)
Definition specific (doc : document) : list element :=
  flat_map (fun selector => match querySelector selector doc with
                            | Some e => [e]
                            | None => []
                            end) specificSelectors.

(** The condition on the text in the second loop. *)
Definition saysShowMore (e : element) : bool :=
  let text := lowerText e in
  jsstring_eqb text (js "show more") || jsstring_eqb text (js "more")
  || JSString.includes text (js "show more").

Definition findShowMoreButtonSync (doc : document)
    : result (option element) :=
  match firstValid (specific doc) with
  | Throw m => Throw m
  | Ok (Some button) => Ok (Some button)
  | Ok None =>
      match firstValid (filter saysShowMore (querySelectorAll buttonLike doc))
      with
      | Throw m => Throw m
      | Ok (Some element) => Ok (Some element)
      | Ok None => firstValid (querySelectorAll hasOnclick doc)
      end
  end.

End Discovery.

End Dom.

(** ** Content sources used as examples *)

Module Scenario.

Definition profileUrl : jsstring :=
  js "https://scholar.google.com/citations?user=abc123&hl=en".

(** A row with an author line and a venue line. *)
Definition row (venue : jsstring) : publication :=
  {| gs_gray := [js "A Author, B Author"; venue]; gsc_a_j := None |}.

(** A listing that is fully shown: no show more button. *)
Definition staticListing (pubs : list publication) : ContentSource :=
  {| page := unit; button := unit;
     href := fun _ => profileUrl;
     rows := fun _ => pubs;
     findShowMoreButtonSync := fun _ => Ok None;
     click := fun _ p => (p, None);
     elapse := fun _ p => (p, 0%N) |}.



(** A document on which the search for the button throws. *)
Definition brokenDiscovery (pubs : list publication) : ContentSource :=
  {| page := unit; button := unit;
     href := fun _ => profileUrl;
     rows := fun _ => pubs;
     findShowMoreButtonSync :=
       fun _ => Throw (js "element.href?.includes is not a function");
     click := fun _ p => (p, None);
     elapse := fun _ p => (p, 0%N) |}.

(** A listing of [batches] batches of twenty rows; the page is the number
    of batches shown, and a click shows the next one 120 ms later. *)
Definition paged (batches : nat) : ContentSource :=
  {| page := nat * bool; button := unit;
     href := fun _ => profileUrl;
     rows := fun p => repeat (row (js "CVPR")) (20 * fst p);
     findShowMoreButtonSync :=
       fun p => Ok (if fst p <? batches then Some tt else None);
     click := fun _ p => ((fst p, true), None);
     elapse := fun d p =>
                 if snd p && (100 <=? d)%N then ((S (fst p), false), 3%N)
                 else (p, 1%N) |}.


(** Five records: a venue met three times, one met once, and a record whose
    text has no label. *)
Definition mixedRecords : list publication :=
  [row (js "arXiv preprint arXiv:1706.03762");
   row (js "Advances in neural information processing systems 30, 2017");
   row (js "arXiv preprint arXiv:1810.04805, 2018");
   row (js "of");
   row (js "arXiv preprint arXiv:2005.14165")].

(** The three records of the end-to-end scenario. *)
Definition threeRecords : list publication :=
  [row (js "2021 IEEE/CVF Conference on Computer Vision and Pattern Recognition, 2021");
   row (js "arXiv preprint arXiv:2001.00001");
   row (js "2021 IEEE/CVF Conference on Computer Vision and Pattern Recognition Workshops")].

End Scenario.

(** * Vocabulary of the properties *)

(** ** What a pattern matches

    [Match ic re x y]: [re] matches the input from position [x] to position
    [y], an iteration of a quantifier consuming one code unit at least. *)

Inductive Match (ic : bool) : regex -> state -> state -> Prop :=
| MEps x : Match ic Eps x x
| MChr a l c r : charEq ic a c = true -> Match ic (Chr a) (l, c :: r) (c :: l, r)
| MDot l c r :
    Char.isLineTerminator c = false -> Match ic Dot (l, c :: r) (c :: l, r)
| MClass items l c r :
    existsb (itemMatches ic c) items = true ->
    Match ic (Class items) (l, c :: r) (c :: l, r)
| MSeq a b x y z : Match ic a x y -> Match ic b y z -> Match ic (Seq a b) x z
| MAltL a b x y : Match ic a x y -> Match ic (Alt a b) x y
| MAltR a b x y : Match ic b x y -> Match ic (Alt a b) x y
| MStarO g a x : Match ic (Star g a) x x
| MStarS g a x y z :
    Match ic a x y -> remaining y <> remaining x ->
    Match ic (Star g a) y z -> Match ic (Star g a) x z
| MBol r : Match ic Bol ([], r) ([], r)
| MEol l : Match ic Eol (l, []) (l, [])
| MWordB x : atWordBoundary x = true -> Match ic WordB x x.

(** The text that a position belongs to. *)
Definition text (x : state) : jsstring := rev (fst x) ++ snd x.

(** ** Text in a string *)

(** [s] has the text [w] in it. *)
Definition contains (w s : jsstring) : Prop :=
  exists pre post, s = pre ++ w ++ post.

(** The same up to the case of the ASCII letters. *)
Definition sameIgnoringCase (w mid : jsstring) : Prop :=
  Forall2 (fun a c => charEq true a c = true) w mid.

Definition containsIgnoringCase (w s : jsstring) : Prop :=
  exists pre mid post, s = pre ++ mid ++ post /\ sameIgnoringCase w mid.

Definition lastOf (s : jsstring) : option N := hd_error (rev s).

(** "ws" (in either case) at the end of a word: what follows is not a word
    character. *)
Definition wsEndsWord (s : jsstring) : Prop :=
  exists pre a b post,
    s = pre ++ a :: b :: post
    /\ charEq true 119 a = true /\ charEq true 115 b = true
    /\ isWordAt (hd_error post) = false.

(** "ws" as a token of its own: no word character before or after. *)
Definition wsToken (s : jsstring) : Prop :=
  exists pre a b post,
    s = pre ++ a :: b :: post
    /\ charEq true 119 a = true /\ charEq true 115 b = true
    /\ isWordAt (lastOf pre) = false
    /\ isWordAt (hd_error post) = false.

(** The pattern that [parse] makes of literal text. *)
Fixpoint literal (w : jsstring) : regex :=
  match w with
  | [] => Eps
  | c :: w' =>
      match w' with
      | [] => Chr c
      | _ :: _ => Seq (Chr c) (literal w')
      end
  end.

(** ** Labels and rules *)

Definition isCanonicalLabel (l : jsstring) : bool :=
  existsb (jsstring_eqb l) canonicalLabels.

Definition canonical (l : jsstring) : Prop := isCanonicalLabel l = true.

Definition fixedBy (normalize : jsstring -> option jsstring) (l : jsstring)
    : bool :=
  match normalize l with
  | Some l' => jsstring_eqb l' l
  | None => false
  end.

(** What the rules say of the input [s]. *)
Definition fromRule (toLowerCase : jsstring -> jsstring) (s : jsstring)
    : option jsstring :=
  classify (toLowerCase (preprocess s)) (workshopFlag (preprocess s)).

Definition notACL (l : jsstring) : Prop :=
  l <> js "ACL" /\ l <> js "ACL Workshop".

(** The condition of the CVPR rule. *)
Definition matchesCVPR (lowerVenue : jsstring) : bool :=
  test (rxi "computer vision and pattern recognition|cvpr|cvf.*?computer vision and pattern|proceedings.*?cvpr|ieee.*?cvf.*?computer vision and pattern recognition") lowerVenue
  || test (rxi "ieee.*?computer.*?society.*?conference.*?computer vision and pattern") lowerVenue
  || test (rxi "proceedings.*?ieee.*?conference.*?computer vision and pattern") lowerVenue
  || test (rxi "ieee.*?conference.*?computer vision and pattern") lowerVenue
  || test (rxi "\d{4}.*?proceedings.*?ieee.*?conference.*?computer vision and pattern") lowerVenue
  || test (rxi "\d{4}.*?ieee.*?computer.*?society.*?conference.*?computer vision") lowerVenue.

Definition stopWords : list jsstring :=
  map js ["the"; "a"; "an"; "in"; "on"; "of"; "and"; "for"; "with"]%string.

(** A label made of a base name followed by " Workshop": the labels of the
    rules and of the acronyms of the workshop pass. *)
Definition isWorkshopVariant (l : jsstring) : bool :=
  JSString.startsWith (rev (js " Workshop")) (rev l).

(** ** The venue table *)

Definition numeric (o : JSObject.object) : Prop :=
  Forall (fun kv => exists n, snd kv = Number n) o.

Definition countOf (v : value) : nat :=
  match v with
  | Number n => n
  | _ => 0
  end.

Definition sumOf (o : JSObject.object) : nat :=
  list_sum (map (fun kv => countOf (snd kv)) o).

(** ** The loader *)

(** The least time on the clock after a number of failed checks. *)
Fixpoint leastElapsed (failures : nat) : N :=
  match failures with
  | O => 0
  | S n => leastElapsed n + progressiveDelay (S n)
  end.

(** What the loop can be left with. *)
Definition paginateOutcome (src : ContentSource) (bound : nat)
    (out : result (paginated src)) : Prop :=
  match out with
  | Ok r => attempts r <= bound /\ (reason r = Ceiling -> attempts r = bound)
  | Throw e => exists q, findShowMoreButtonSync src q = Throw e
  end.


(** ** Runs of the listener *)

(** What happens to the script: a request arrives, or the promise of the
    oldest run settles. *)
Inductive event (src : ContentSource) :=
| Request (action : jsstring) (sendResponse : nat) (p : page src)
| Settled.
Arguments Request {src} action sendResponse p.
Arguments Settled {src}.

Definition idle : script := {| isAnalyzing := false; inFlight := [] |}.

Definition afterEvent (toLowerCase : jsstring -> jsstring)
    (src : ContentSource) (st : script) (ev : event src) : option script :=
  match ev with
  | Request action sendResponse p =>
      option_map next (onMessage toLowerCase src st action sendResponse p)
  | Settled => Some (next (onSettled st))
  end.

Fixpoint afterEvents (toLowerCase : jsstring -> jsstring)
    (src : ContentSource) (st : script) (evs : list (event src))
    : option script :=
  match evs with
  | [] => Some st
  | ev :: evs' =>
      match afterEvent toLowerCase st ev with
      | Some st' => afterEvents toLowerCase st' evs'
      | None => None
      end
  end.

(** At most one run in flight, and the flag set exactly when there is
    one. *)
Definition exclusive (st : script) : Prop :=
  List.length (inFlight st) <= 1
  /\ (isAnalyzing st = true <-> inFlight st <> []).

(** The object given to [sendResponse] when a run settles. *)
Definition responseOf (outcome : result analysisData) : response :=
  match outcome with
  | Ok d => {| success := Some true; error := None; analysis := Some d |}
  | Throw message =>
      {| success := Some false; error := Some message; analysis := None |}
  end.




(** ** Sources that always grow *)


(** ** Labels of a listing *)

(** The label under which [extractVenueData] counts a record, if any. *)
Definition labelOf (toLowerCase : jsstring -> jsstring) (pub : publication)
    : option jsstring :=
  match venueElement pub with
  | Some textContent =>
      match normalizeVenue toLowerCase (JSString.trim textContent) with
      | Some ((_ :: _) as normalizedVenue) => Some normalizedVenue
      | _ => None
      end
  | None => None
  end.

(** The labels of the records that have one, in the order of the rows. *)
Definition labelsOf (toLowerCase : jsstring -> jsstring)
    (pubs : list publication) : list jsstring :=
  flat_map (fun pub => match labelOf toLowerCase pub with
                       | Some l => [l]
                       | None => []
                       end) pubs.

Definition occurrences (k : jsstring) (labels : list jsstring) : nat :=
  count_occ (list_eq_dec N.eq_dec) labels k.

(** No label is the name of a property that [{}] inherits. *)
Definition plainLabels (labels : list jsstring) : Prop :=
  Forall (fun l => JSObject.inherited l = Undefined) labels.

(** One more record under the label [k]. *)
Definition countLabel (o : JSObject.object) (k : jsstring)
    : JSObject.object :=
  JSObject.set o k (add (or (JSObject.get o k) (Number 0)) (Number 1)).

(** The table holds, for every label, the number of its occurrences. *)
Definition tallies (o : JSObject.object) (labels : list jsstring) : Prop :=
  NoDup (map fst o)
  /\ forall k,
       JSObject.getOwn o k
       = if occurrences k labels =? 0 then None
         else Some (Number (occurrences k labels)).

(** By count, largest first. *)
Definition countDescending (a b : jsstring * value) : Prop :=
  countOf (snd b) <= countOf (snd a).

(** ** Shapes of labels *)

(** The labels of the rules that have no workshop variant. *)
Definition fixedLabels : list jsstring :=
  map js
    ["IEEE TPAMI"; "IEEE TIP"; "IEEE TNN"; "IEEE TCYB"; "IEEE TMM";
     "IEEE Access"; "IJCV"; "JMLR"; "Machine Learning Journal"; "CVIU";
     "Pattern Recognition"; "Medical Image Analysis"; "Neurocomputing";
     "Science"; "Nature Communications"; "Nature Machine Intelligence";
     "Nature"; "PNAS"; "arXiv"; "bioRxiv"; "US Patents";
     "Available at SSRN"; "Springer"; "MIT Press"; "ISCA"]%string.

(** A label that says workshop. *)
Definition isWorkshopLabel (l : jsstring) : bool :=
  isWorkshopVariant l || jsstring_eqb l (js "Workshop").

(** What a rule may return with the workshop flag set, and without it. *)
Definition agreesWithFlag (isWorkshop : bool) (l : jsstring) : bool :=
  if isWorkshop then isWorkshopLabel l || existsb (jsstring_eqb l) fixedLabels
  else negb (isWorkshopLabel l).

(** The rules placed before the workshop pass, in their order: the fifteen
    groups by area, journals, preprints and publishers. *)
Definition areaRules (lowerVenue : jsstring) (isWorkshop : bool)
    : option jsstring :=
  computerVisionConferences lowerVenue isWorkshop
  <|> machineLearningConferences lowerVenue isWorkshop
  <|> aiConferences lowerVenue isWorkshop
  <|> nlpConferences lowerVenue isWorkshop
  <|> dataMiningAndWebConferences lowerVenue isWorkshop
  <|> roboticsConferences lowerVenue isWorkshop
  <|> signalProcessingConferences lowerVenue isWorkshop
  <|> medicalImagingConferences lowerVenue isWorkshop
  <|> graphicsAndVisualization lowerVenue isWorkshop
  <|> ieeeTransactions lowerVenue isWorkshop
  <|> otherMajorJournals lowerVenue isWorkshop
  <|> highImpactJournals lowerVenue isWorkshop
  <|> preprintsAndOtherSources lowerVenue isWorkshop
  <|> publishers lowerVenue isWorkshop
  <|> additionalConferences lowerVenue isWorkshop.

(** The label that stands for a base name when the workshop flag is set:
    the base name followed by " Workshop", but for three base names that
    lose their "ACM SIG" or "ACM", and for the labels of the rules without a
    workshop variant, which stay. *)
Definition workshopName (base : jsstring) : jsstring :=
  if existsb (jsstring_eqb base) fixedLabels then base
  else if jsstring_eqb base (js "ACM SIGKDD") then js "KDD Workshop"
  else if jsstring_eqb base (js "ACM CHI") then js "CHI Workshop"
  else if jsstring_eqb base (js "ACM SIGIR") then js "SIGIR Workshop"
  else base ++ js " Workshop".

Definition isSpaceAt (o : option N) : bool :=
  match o with Some c => Char.isSpace c | None => false end.

(** No whitespace at either end. *)
Definition isTrimmed (l : jsstring) : bool :=
  negb (isSpaceAt (hd_error l)) && negb (isSpaceAt (hd_error (rev l))).

(** A comma, a period or an opening parenthesis. *)
Definition isSeparator (c : N) : bool :=
  (c =? 44)%N || (c =? 46)%N || (c =? 40)%N.

(** Every whitespace code unit is U+0020 and none follows it. *)
Definition singleSpaced (s : jsstring) : Prop :=
  forall pre c post,
    s = pre ++ c :: post ->
    Char.isSpace c = true ->
    c = 32%N /\ isSpaceAt (hd_error post) = false.

(** ** The search for the button: vocabulary and example documents *)

(** An element that one of the three loops of [findShowMoreButtonSync]
    hands to [isValidShowMoreButtonFast]. *)
Definition candidate (toLowerCase : jsstring -> jsstring)
    (doc : Dom.document) (e : Dom.element) : Prop :=
  In e (Dom.specific doc)
  \/ (In e doc /\ Dom.buttonLike e = true
      /\ Dom.saysShowMore toLowerCase e = true)
  \/ (In e doc /\ Dom.hasOnclick e = true).

(** The address of the element does not point to a paper. *)
Definition hrefIsFine (e : Dom.element) : Prop :=
  match Dom.href e with
  | Dom.NoHref => True
  | Dom.HrefString s => ~ contains (js "view_citation") s
  | Dom.HrefObject => False
  end.

(** A visible, enabled element outside the title cells, whose text or id
    is that of the button. *)
Definition usable (toLowerCase : jsstring -> jsstring) (e : Dom.element)
    : Prop :=
  Dom.offsetParent e = true
  /\ Dom.disabled e = false
  /\ Dom.inTitleCell e = false
  /\ Dom.hasClass (js "gsc_a_at") e = false
  /\ hrefIsFine e
  /\ (contains (js "more") (Dom.lowerText toLowerCase e)
      \/ Dom.lowerText toLowerCase e = js "show"
      \/ Dom.id e = js "gsc_bpf_more").

(** The element throws when its address is read as a string. *)
Definition hrefThrows (e : Dom.element) : Prop :=
  Dom.href e = Dom.HrefObject
  /\ Dom.inTitleCell e = false
  /\ Dom.hasClass (js "gsc_a_at") e = false.

Module Page.
Import Dom.

Definition showMore : element :=
  {| localName := js "button"; id := js "gsc_bpf_more"; classList := [];
     role := None; onclick := None; textContent := js " Show more ";
     offsetParent := true; disabled := false; href := NoHref;
     inTitleCell := false |}.

Definition showMoreDisabled : element :=
  {| localName := js "button"; id := js "gsc_bpf_more"; classList := [];
     role := None; onclick := None; textContent := js " Show more ";
     offsetParent := true; disabled := true; href := NoHref;
     inTitleCell := false |}.

(** The title of a paper, a link in a title cell. *)
Definition titleLink : element :=
  {| localName := js "a"; id := []; classList := [js "gsc_a_at"];
     role := None; onclick := None;
     textContent := js "More is different";
     offsetParent := true; disabled := false;
     href := HrefString (js "/citations?view_op=view_citation&user=x");
     inTitleCell := true |}.

(** A link inside an SVG image, with a click handler. *)
Definition svgLink : element :=
  {| localName := js "a"; id := []; classList := [];
     role := None; onclick := Some (js "gsc_chart()");
     textContent := []; offsetParent := true; disabled := false;
     href := HrefObject; inTitleCell := false |}.

(** A link of the page menu with a click handler. *)
Definition menuLink : element :=
  {| localName := js "a"; id := []; classList := [];
     role := None; onclick := Some (js "gsc_menu()");
     textContent := js "More options"; offsetParent := true;
     disabled := false; href := HrefString (js "/settings");
     inTitleCell := false |}.

Definition profile : document := [titleLink; menuLink; showMore].

Definition exhausted : document := [titleLink; showMoreDisabled].

Definition withChart : document := [titleLink; showMoreDisabled; svgLink].

End Page.

(** * Properties *)

(** ** The matcher and the matches

    The matcher finds a match exactly when there is one that its
    continuation accepts. *)

Module RegExpFacts.

Create HintDb regexp.
#[export] Hint Constructors Match : regexp.

Lemma Match_text ic re x y : Match ic re x y -> text y = text x.
Proof.
  induction 1; unfold text in *; simpl in *; try congruence;
    rewrite <- app_assoc; reflexivity.
Qed.

Lemma Match_remaining ic re x y :
  Match ic re x y -> remaining y <= remaining x.
Proof.
  induction 1; unfold remaining in *; simpl in *; lia.
Qed.

Lemma stepChar_sound ok k x z :
  stepChar ok k x = Some z ->
  exists l c r, x = (l, c :: r) /\ ok c = true /\ k (c :: l, r) = Some z.
Proof.
  destruct x as [l [|c r]]; simpl; try discriminate.
  destruct (ok c) eqn:E; try discriminate.
  intros H. exists l, c, r. auto.
Qed.

Lemma repeatMatcher_sound ic g a k
  (IH : forall k x z, matcher ic a k x = Some z ->
                      exists y, Match ic a x y /\ k y = Some z) :
  forall n x z, repeatMatcher (matcher ic a) g k n x = Some z ->
                exists y, Match ic (Star g a) x y /\ k y = Some z.
Proof.
  induction n as [|n IHn]; intros x z H; simpl in H.
  - exists x. auto with regexp.
  - assert (Again : forall z,
               matcher ic a
                 (fun y => if remaining y =? remaining x then None
                           else repeatMatcher (matcher ic a) g k n y) x
               = Some z ->
               exists y, Match ic (Star g a) x y /\ k y = Some z).
    { intros z' Hz. apply IH in Hz. destruct Hz as (y & My & Hy).
      destruct (remaining y =? remaining x) eqn:E; try discriminate.
      apply Nat.eqb_neq in E. apply IHn in Hy.
      destruct Hy as (y' & My' & Hy'). exists y'. eauto with regexp. }
    destruct g.
    + match type of H with
      | match ?m with _ => _ end = _ => destruct m eqn:E
      end.
      * inversion H; subst. eauto.
      * exists x. auto with regexp.
    + destruct (k x) eqn:E.
      * inversion H; subst. exists x. auto with regexp.
      * eauto.
Qed.

Theorem matcher_sound ic re :
  forall k x z, matcher ic re k x = Some z ->
                exists y, Match ic re x y /\ k y = Some z.
Proof.
  induction re; intros k x z H; simpl in H.
  - eauto with regexp.
  - apply stepChar_sound in H. destruct H as (l & c' & r & -> & H1 & H2).
    eauto with regexp.
  - apply stepChar_sound in H. destruct H as (l & c' & r & -> & H1 & H2).
    apply negb_true_iff in H1. eauto with regexp.
  - apply stepChar_sound in H. destruct H as (l & c' & r & -> & H1 & H2).
    eauto with regexp.
  - apply IHre1 in H. destruct H as (y & My & H).
    apply IHre2 in H. destruct H as (y' & My' & H). eauto with regexp.
  - destruct (matcher ic re1 k x) eqn:E.
    + inversion H; subst. apply IHre1 in E. destruct E as (y & My & E).
      eauto with regexp.
    + apply IHre2 in H. destruct H as (y & My & H). eauto with regexp.
  - eapply repeatMatcher_sound; eauto.
  - destruct x as [[|c l] r]; simpl in H; try discriminate.
    eauto with regexp.
  - destruct x as [l [|c r]]; simpl in H; try discriminate.
    eauto with regexp.
  - destruct (atWordBoundary x) eqn:E; try discriminate. eauto with regexp.
Qed.

Lemma Match_star_inv ic g a x z :
  Match ic (Star g a) x z ->
  z = x \/ exists y, Match ic a x y /\ remaining y <> remaining x
                     /\ Match ic (Star g a) y z.
Proof. inversion 1; subst; eauto. Qed.

Lemma repeatMatcher_complete ic g a k
  (IH : forall x y, Match ic a x y ->
                    forall k, k y <> None -> matcher ic a k x <> None) :
  forall n x z, Match ic (Star g a) x z -> remaining x <= n ->
                k z <> None ->
                repeatMatcher (matcher ic a) g k n x <> None.
Proof.
  induction n as [|n IHn]; intros x z M Hn Hk;
    apply Match_star_inv in M; destruct M as [->|(y & Ma & Hy & Ms)];
    simpl.
  - assumption.
  - apply Match_remaining in Ma. lia.
  - destruct g.
    + destruct (matcher ic a _ x); congruence.
    + destruct (k x); congruence.
  - pose proof (Match_remaining Ma) as Hle.
    assert (Again :
      matcher ic a
        (fun y => if remaining y =? remaining x then None
                  else repeatMatcher (matcher ic a) g k n y) x <> None).
    { apply (IH _ _ Ma).
      destruct (remaining y =? remaining x) eqn:E.
      - apply Nat.eqb_eq in E. lia.
      - apply (IHn _ _ Ms); [lia | assumption]. }
    destruct g.
    + destruct (matcher ic a _ x); congruence.
    + destruct (k x); congruence.
Qed.

Theorem matcher_complete ic re :
  forall x y, Match ic re x y ->
              forall k, k y <> None -> matcher ic re k x <> None.
Proof.
  induction re; intros x y M k Hk; inversion M; subst; simpl.
  - assumption.
  - match goal with H : charEq _ _ _ = true |- _ => rewrite H end.
    assumption.
  - match goal with
    | H : Char.isLineTerminator _ = false |- _ => rewrite H
    end. assumption.
  - match goal with H : existsb _ _ = true |- _ => rewrite H end.
    assumption.
  - eapply IHre1; eauto.
  - destruct (matcher ic re1 k x) eqn:E; try congruence.
    exfalso. eapply IHre1; eauto.
  - destruct (matcher ic re1 k x) eqn:E; try congruence.
    eapply IHre2; eauto.
  - eapply repeatMatcher_complete; eauto.
  - eapply repeatMatcher_complete; eauto.
  - assumption.
  - assumption.
  - match goal with H : atWordBoundary _ = true |- _ => rewrite H end.
    assumption.
Qed.

(** [search] starts at the first position that has a match. *)
Lemma search_sound p : forall r l x y,
  search p l r = Some (x, y) ->
  Match (ignoreCase p) (source p) x y /\ text x = rev l ++ r.
Proof.
  induction r as [|c r IH]; intros l x y H; simpl in H.
  - destruct (matcher _ _ Some (l, [])) eqn:E; try discriminate.
    inversion H; subst. apply matcher_sound in E.
    destruct E as (y' & M & E). inversion E; subst. auto.
  - destruct (matcher _ _ Some (l, c :: r)) eqn:E.
    + inversion H; subst. apply matcher_sound in E.
      destruct E as (y' & M & E). inversion E; subst. auto.
    + apply IH in H. destruct H as [M T]. split; [assumption|].
      rewrite T. simpl. rewrite <- app_assoc. reflexivity.
Qed.

Lemma search_complete p : forall m l r y,
  Match (ignoreCase p) (source p) (rev m ++ l, r) y ->
  search p l (m ++ r) <> None.
Proof.
  induction m as [|c m IH]; intros l r y M.
  - simpl in M. simpl.
    pose proof (matcher_complete M Some) as C.
    destruct r; simpl;
      destruct (matcher _ _ Some _); try discriminate;
      exfalso; apply C; congruence.
  - simpl. destruct (matcher _ _ Some (l, c :: m ++ r)); try discriminate.
    apply (IH (c :: l) r y). simpl in M. rewrite <- app_assoc in M. exact M.
Qed.

(** [test] says whether the pattern matches somewhere in the string. *)
Theorem test_true_iff p s :
  test p s = true <->
  exists x y, text x = s /\ Match (ignoreCase p) (source p) x y.
Proof.
  unfold test. split.
  - destruct (search p [] s) as [[x y]|] eqn:E; try discriminate.
    intros _. apply search_sound in E. destruct E as [M T].
    exists x, y. auto.
  - intros ([l r] & y & T & M). unfold text in T; simpl in T. subst s.
    pose proof (@search_complete p (rev l) [] r y) as C.
    rewrite rev_involutive, app_nil_r in C. specialize (C M).
    destruct (search p [] (rev l ++ r)); congruence.
Qed.

End RegExpFacts.

(** ** Facts about strings *)

Lemma jsstring_eqb_eq (a b : jsstring) : jsstring_eqb a b = true <-> a = b.
Proof.
  unfold jsstring_eqb. destruct (list_eq_dec N.eq_dec a b); split;
    congruence.
Qed.

Lemma jsstring_eqb_refl (a : jsstring) : jsstring_eqb a a = true.
Proof. apply jsstring_eqb_eq. reflexivity. Qed.

(** ** The rules of [normalizeVenue] *)

Section Cascade.

Variable P : jsstring -> Prop.

Lemma when_elim (c : bool) (v : jsstring) (k : option jsstring) :
  P v -> (forall l, k = Some l -> P l) ->
  forall l, (if c then Some v else k) = Some l -> P l.
Proof.
  intros Hv Hk l. destruct c; [intros [= <-]; exact Hv | apply Hk].
Qed.

Lemma orElse_elim (a b : option jsstring) :
  (forall l, a = Some l -> P l) -> (forall l, b = Some l -> P l) ->
  forall l, match a with Some v => Some v | None => b end = Some l -> P l.
Proof.
  intros Ha Hb l. destruct a; [intros [= <-]; apply Ha; reflexivity | apply Hb].
Qed.

Lemma none_elim : forall l, @None jsstring = Some l -> P l.
Proof. discriminate. Qed.

Lemma some_elim (v : jsstring) : P v -> forall l, Some v = Some l -> P l.
Proof. intros Hv l [= <-]. exact Hv. Qed.

Lemma if_elim (c : bool) (a b : option jsstring) :
  (forall l, a = Some l -> P l) -> (forall l, b = Some l -> P l) ->
  forall l, (if c then a else b) = Some l -> P l.
Proof. destruct c; auto. Qed.

End Cascade.

Ltac label_by_computation :=
  match goal with
  | |- context [if ?w then _ else _] => destruct w
  | _ => idtac
  end;
  vm_compute; solve [reflexivity | repeat split; discriminate].

(** Walks down a group of rules, proving [P] of every label returned. *)
Ltac each_rule :=
  first
    [ apply none_elim
    | apply when_elim; [label_by_computation | each_rule]
    | apply some_elim; label_by_computation
    | apply if_elim; each_rule ].

Ltac group_labels g :=
  intros lowerVenue isWorkshop; unfold g; each_rule.

Lemma computerVisionConferences_label : forall lowerVenue isWorkshop l,
  computerVisionConferences lowerVenue isWorkshop = Some l -> canonical l.
Proof. group_labels computerVisionConferences. Qed.

Lemma machineLearningConferences_label : forall lowerVenue isWorkshop l,
  machineLearningConferences lowerVenue isWorkshop = Some l -> canonical l.
Proof. group_labels machineLearningConferences. Qed.

Lemma aiConferences_label : forall lowerVenue isWorkshop l,
  aiConferences lowerVenue isWorkshop = Some l -> canonical l.
Proof. group_labels aiConferences. Qed.

Lemma nlpConferences_label : forall lowerVenue isWorkshop l,
  nlpConferences lowerVenue isWorkshop = Some l -> canonical l.
Proof. group_labels nlpConferences. Qed.

Lemma dataMiningAndWebConferences_label : forall lowerVenue isWorkshop l,
  dataMiningAndWebConferences lowerVenue isWorkshop = Some l -> canonical l.
Proof. group_labels dataMiningAndWebConferences. Qed.

Lemma roboticsConferences_label : forall lowerVenue isWorkshop l,
  roboticsConferences lowerVenue isWorkshop = Some l -> canonical l.
Proof. group_labels roboticsConferences. Qed.

Lemma signalProcessingConferences_label : forall lowerVenue isWorkshop l,
  signalProcessingConferences lowerVenue isWorkshop = Some l -> canonical l.
Proof. group_labels signalProcessingConferences. Qed.

Lemma medicalImagingConferences_label : forall lowerVenue isWorkshop l,
  medicalImagingConferences lowerVenue isWorkshop = Some l -> canonical l.
Proof. group_labels medicalImagingConferences. Qed.

Lemma graphicsAndVisualization_label : forall lowerVenue isWorkshop l,
  graphicsAndVisualization lowerVenue isWorkshop = Some l -> canonical l.
Proof. group_labels graphicsAndVisualization. Qed.

Lemma ieeeTransactions_label : forall lowerVenue isWorkshop l,
  ieeeTransactions lowerVenue isWorkshop = Some l -> canonical l.
Proof. group_labels ieeeTransactions. Qed.

Lemma otherMajorJournals_label : forall lowerVenue isWorkshop l,
  otherMajorJournals lowerVenue isWorkshop = Some l -> canonical l.
Proof. group_labels otherMajorJournals. Qed.

Lemma highImpactJournals_label : forall lowerVenue isWorkshop l,
  highImpactJournals lowerVenue isWorkshop = Some l -> canonical l.
Proof. group_labels highImpactJournals. Qed.

Lemma preprintsAndOtherSources_label : forall lowerVenue isWorkshop l,
  preprintsAndOtherSources lowerVenue isWorkshop = Some l -> canonical l.
Proof. group_labels preprintsAndOtherSources. Qed.

Lemma publishers_label : forall lowerVenue isWorkshop l,
  publishers lowerVenue isWorkshop = Some l -> canonical l.
Proof. group_labels publishers. Qed.

Lemma additionalConferences_label : forall lowerVenue isWorkshop l,
  additionalConferences lowerVenue isWorkshop = Some l -> canonical l.
Proof. group_labels additionalConferences. Qed.

Lemma workshopDetection_label : forall lowerVenue isWorkshop l,
  workshopDetection lowerVenue isWorkshop = Some l -> canonical l.
Proof. group_labels workshopDetection. Qed.

Lemma additionalPatternMatching_label : forall lowerVenue isWorkshop l,
  additionalPatternMatching lowerVenue isWorkshop = Some l -> canonical l.
Proof. group_labels additionalPatternMatching. Qed.

(** Every value that a rule returns is one of [canonicalLabels]. *)
Lemma classify_label : forall lowerVenue isWorkshop l,
  classify lowerVenue isWorkshop = Some l -> canonical l.
Proof.
  intros lowerVenue isWorkshop. unfold classify.
  repeat (apply orElse_elim;
          [solve [ apply computerVisionConferences_label
                 | apply machineLearningConferences_label
                 | apply aiConferences_label
                 | apply nlpConferences_label
                 | apply dataMiningAndWebConferences_label
                 | apply roboticsConferences_label
                 | apply signalProcessingConferences_label
                 | apply medicalImagingConferences_label
                 | apply graphicsAndVisualization_label
                 | apply ieeeTransactions_label
                 | apply otherMajorJournals_label
                 | apply highImpactJournals_label
                 | apply preprintsAndOtherSources_label
                 | apply publishers_label
                 | apply additionalConferences_label
                 | apply workshopDetection_label
                 | apply additionalPatternMatching_label ] | ]).
  apply additionalPatternMatching_label.
Qed.

Lemma canonical_In (l : jsstring) : canonical l -> In l canonicalLabels.
Proof.
  unfold canonical, isCanonicalLabel. rewrite existsb_exists.
  intros (l' & Hin & E). apply jsstring_eqb_eq in E. subst. assumption.
Qed.

(** A property of all [canonicalLabels], checked label by label. *)
Lemma canonical_forallb (f : jsstring -> bool) (l : jsstring) :
  forallb f canonicalLabels = true -> canonical l -> f l = true.
Proof.
  intros F C. apply canonical_In in C.
  rewrite forallb_forall in F. auto.
Qed.

Lemma canonical_fixed (l : jsstring) :
  canonical l -> normalizeVenue JSString.toLowerCase l = Some l.
Proof.
  intros C.
  assert (F : fixedBy (normalizeVenue JSString.toLowerCase) l = true)
    by (apply canonical_forallb; [vm_compute; reflexivity | exact C]).
  unfold fixedBy in F.
  destruct (normalizeVenue JSString.toLowerCase l); try discriminate.
  apply jsstring_eqb_eq in F. congruence.
Qed.

Lemma canonical_length (l : jsstring) : canonical l -> 3 <= List.length l.
Proof.
  intros C. apply Nat.leb_le.
  apply (canonical_forallb (fun l => 3 <=? List.length l));
    [vm_compute; reflexivity | exact C].
Qed.

Lemma fallback_length (venueText l : jsstring) :
  fallback venueText = Some l -> 3 <= List.length l.
Proof.
  unfold fallback.
  destruct (List.length (simplify venueText) <? 3) eqn:E; simpl.
  - discriminate.
  - apply Nat.ltb_ge in E.
    destruct (test _ (simplify venueText)); try discriminate.
    destruct (simplify venueText) eqn:S; try discriminate.
    intros [= <-]. exact E.
Qed.

Lemma normalizeVenue_cases toLowerCase (s : jsstring) :
  s <> [] ->
  normalizeVenue toLowerCase s =
  match fromRule toLowerCase s with
  | Some l => Some l
  | None => fallback (preprocess s)
  end.
Proof. destruct s; [congruence | reflexivity]. Qed.

(** C10: whatever the input string, a result of [normalizeVenue] that is not
    null has three code units at least; in particular it is never the empty
    string. *)
Theorem C10_result_has_three_code_units :
  forall (toLowerCase : jsstring -> jsstring) (s l : jsstring),
    normalizeVenue toLowerCase s = Some l ->
    3 <= List.length l /\ l <> [].
Proof.
  intros lc s l H.
  assert (L : 3 <= List.length l).
  { destruct s as [|c s]; [discriminate|].
    rewrite normalizeVenue_cases in H by discriminate.
    unfold fromRule in H.
    destruct (classify _ _) eqn:E.
    - injection H as <-. apply classify_label in E.
      apply canonical_length. exact E.
    - apply fallback_length in H. exact H. }
  split; [exact L|]. intros ->. simpl in L. lia.
Qed.

Lemma C10_witness :
  normalizeVenue JSString.toLowerCase (js "Journal of Physics, 2020")
  = Some (js "Journal of Physics")
  /\ 3 <= List.length (js "Journal of Physics")
  /\ js "Journal of Physics" <> [].
Proof.
  assert (H : normalizeVenue JSString.toLowerCase
                (js "Journal of Physics, 2020")
              = Some (js "Journal of Physics")) by (vm_compute; reflexivity).
  split; [exact H|].
  exact (C10_result_has_three_code_units JSString.toLowerCase _ H).
Defined.

(** C1, as the code has it: when a rule of the table decides the result for
    [s] (an area rule, the workshop pass or the confirmation pass),
    [normalizeVenue] returns that label and maps it to itself. *)
Theorem C1_rule_labels_are_fixed :
  forall (toLowerCase : jsstring -> jsstring) (s l : jsstring),
    s <> [] ->
    fromRule toLowerCase s = Some l ->
    normalizeVenue toLowerCase s = Some l
    /\ normalizeVenue JSString.toLowerCase l = Some l.
Proof.
  intros lc s l Hs H. split.
  - rewrite normalizeVenue_cases by exact Hs. rewrite H. reflexivity.
  - apply canonical_fixed. unfold fromRule in H.
    apply classify_label in H. exact H.
Qed.

Lemma C1_witness :
  js "Proceedings of the 36th ICML, 2019" <> []
  /\ fromRule JSString.toLowerCase (js "Proceedings of the 36th ICML, 2019")
     = Some (js "ICML")
  /\ normalizeVenue JSString.toLowerCase
       (js "Proceedings of the 36th ICML, 2019") = Some (js "ICML")
  /\ normalizeVenue JSString.toLowerCase (js "ICML") = Some (js "ICML").
Proof.
  assert (Hs : js "Proceedings of the 36th ICML, 2019" <> [])
    by discriminate.
  assert (H : fromRule JSString.toLowerCase
                (js "Proceedings of the 36th ICML, 2019")
              = Some (js "ICML")) by (vm_compute; reflexivity).
  split; [exact Hs|]. split; [exact H|].
  exact (C1_rule_labels_are_fixed JSString.toLowerCase Hs H).
Defined.

(** C1 as stated fails on a label of the fallback stage: the label returned
    for "The Proceedings of the Royal Society" is not returned for itself. *)
Lemma C1_fallback_label_not_fixed :
  normalizeVenue JSString.toLowerCase
    (js "The Proceedings of the Royal Society")
  = Some (js "Proceedings of the Royal Society")
  /\ normalizeVenue JSString.toLowerCase
       (js "Proceedings of the Royal Society")
     = Some (js "Royal Society")
  /\ ~ (forall s l : jsstring,
          normalizeVenue JSString.toLowerCase s = Some l ->
          normalizeVenue JSString.toLowerCase l = Some l).
Proof.
  assert (H1 : normalizeVenue JSString.toLowerCase
                 (js "The Proceedings of the Royal Society")
               = Some (js "Proceedings of the Royal Society"))
    by (vm_compute; reflexivity).
  assert (H2 : normalizeVenue JSString.toLowerCase
                 (js "Proceedings of the Royal Society")
               = Some (js "Royal Society"))
    by (vm_compute; reflexivity).
  split; [exact H1|]. split; [exact H2|].
  intros H. specialize (H _ _ H1). rewrite H2 in H. discriminate H.
Qed.

(** ** Extraction and aggregation *)

Lemma fold_visit toLowerCase (pubs : list publication) :
  forall acc,
    fold_left (visit toLowerCase) pubs acc
    = fold_left (visitText toLowerCase) (map venueElement pubs) acc.
Proof.
  induction pubs as [|pub pubs IH]; intros acc; simpl.
  - reflexivity.
  - apply IH.
Qed.

(** C2: for three records whose venue texts are those of the scenario, in
    that order, the venue list holds the three entries CVPR, CVPR Workshop
    and arXiv, each with count 1, and no other; the three being tied, they
    stand in the order of first encounter, which is CVPR, arXiv, CVPR
    Workshop; three records are processed and none is skipped. *)
Theorem C2_three_records_aggregate :
  forall pubs : list publication,
    map venueElement pubs
    = [Some (js "2021 IEEE/CVF Conference on Computer Vision and Pattern Recognition, 2021");
       Some (js "arXiv preprint arXiv:2001.00001");
       Some (js "2021 IEEE/CVF Conference on Computer Vision and Pattern Recognition Workshops")] ->
    let result := extractVenueData JSString.toLowerCase pubs in
    Permutation (venues result)
      [(js "CVPR", Number 1); (js "CVPR Workshop", Number 1);
       (js "arXiv", Number 1)]
    /\ map fst (venues result) = labelsOf JSString.toLowerCase pubs
    /\ venues result
       = [(js "CVPR", Number 1); (js "arXiv", Number 1);
          (js "CVPR Workshop", Number 1)]
    /\ processedCount result = 3
    /\ skippedCount result = 0.
Proof.
  intros pubs H result.
  assert (E : result
              = {| venues := [(js "CVPR", Number 1); (js "arXiv", Number 1);
                              (js "CVPR Workshop", Number 1)];
                   processedCount := 3;
                   skippedCount := 0 |}).
  { unfold result, extractVenueData. rewrite fold_visit, H.
    vm_compute. reflexivity. }
  assert (L : labelsOf JSString.toLowerCase pubs
              = [js "CVPR"; js "arXiv"; js "CVPR Workshop"]).
  { destruct pubs as [|p1 [|p2 [|p3 [|p4 pubs]]]]; try discriminate H.
    injection H as H1 H2 H3. unfold labelsOf, labelOf. cbn [flat_map].
    rewrite H1, H2, H3. vm_compute. reflexivity. }
  rewrite E, L. cbn [venues processedCount skippedCount].
  split; [|repeat split].
  apply perm_skip, perm_swap.
Qed.

Lemma C2_witness :
  let pubs := Scenario.threeRecords in
  let result := extractVenueData JSString.toLowerCase pubs in
  map venueElement pubs
  = [Some (js "2021 IEEE/CVF Conference on Computer Vision and Pattern Recognition, 2021");
     Some (js "arXiv preprint arXiv:2001.00001");
     Some (js "2021 IEEE/CVF Conference on Computer Vision and Pattern Recognition Workshops")]
  /\ Permutation (venues result)
       [(js "CVPR", Number 1); (js "CVPR Workshop", Number 1);
        (js "arXiv", Number 1)]
  /\ processedCount result = 3
  /\ skippedCount result = 0.
Proof.
  intros pubs result.
  assert (H : map venueElement pubs
              = [Some (js "2021 IEEE/CVF Conference on Computer Vision and Pattern Recognition, 2021");
                 Some (js "arXiv preprint arXiv:2001.00001");
                 Some (js "2021 IEEE/CVF Conference on Computer Vision and Pattern Recognition Workshops")])
    by reflexivity.
  split; [exact H|].
  destruct (C2_three_records_aggregate pubs H) as (P & _ & _ & N & M).
  split; [exact P|]. split; [exact N | exact M].
Defined.

(** Every record is counted once, as processed or as skipped. *)
Lemma visitText_counts toLowerCase (texts : list (option jsstring)) :
  forall venues processed skipped venues' processed' skipped',
    fold_left (visitText toLowerCase) texts (venues, processed, skipped)
    = (venues', processed', skipped') ->
    processed' + skipped' = processed + skipped + List.length texts.
Proof.
  induction texts as [|t texts IH]; intros o n m o' n' m' H; simpl in H.
  - injection H as <- <- <-. simpl. lia.
  - destruct t as [t|];
      [destruct (normalizeVenue toLowerCase _) as [[|c l]|]|];
      apply IH in H; simpl; lia.
Qed.

Lemma extractVenueData_counts toLowerCase (pubs : list publication) :
  processedCount (extractVenueData toLowerCase pubs)
  + skippedCount (extractVenueData toLowerCase pubs)
  = List.length pubs.
Proof.
  unfold extractVenueData. rewrite fold_visit.
  destruct (fold_left _ _ _) as [[o n] m] eqn:E. simpl.
  apply visitText_counts in E. rewrite length_map in E. lia.
Qed.

(** The second equation of C3 holds on every run that succeeds. *)
Lemma analyzeAllVenues_counts toLowerCase (src : ContentSource)
    (p : page src) (d : analysisData) :
  analyzeAllVenues toLowerCase src p = Some (Ok d) ->
  totalProcessed d + totalSkipped d = totalFound d.
Proof.
  unfold analyzeAllVenues.
  destruct (negb _); [discriminate|].
  destruct (countRows src p =? 0); [discriminate|].
  destruct (loadAllPublications src p) as [[l|e]|]; try discriminate.
  unfold analyzeLoaded. destruct (_ =? 0); [discriminate|].
  intros [= <-]. simpl. apply extractVenueData_counts.
Qed.

(** C3 on a listing whose only record has the venue text "constructor":
    the run succeeds with one record found and processed, and the count of
    its only venue is not a number but the text of %Object% followed by 1,
    so the counts do not add up to [totalProcessed]. *)
Theorem C3_counts_do_not_add_up_for_constructor :
  let src := Scenario.staticListing [Scenario.row (js "constructor")] in
  exists d,
    analyzeAllVenues JSString.toLowerCase src tt = Some (Ok d)
    /\ data_venues d
       = [(js "constructor",
           String (js "function Object() { [native code] }1"))]
    /\ totalFound d = 1 /\ totalProcessed d = 1 /\ totalSkipped d = 0
    /\ totalPubsFromVenues (data_venues d)
       = String (js "0function Object() { [native code] }1")
    /\ totalPubsFromVenues (data_venues d) <> Number (totalProcessed d).
Proof.
  eexists. split; [vm_compute; reflexivity|]. simpl.
  repeat split; try (vm_compute; reflexivity). vm_compute. discriminate.
Qed.

(** ** The incremental loader *)

Section LoaderFacts.

Variable src : ContentSource.

Lemma progressiveDelay_positive (n : nat) : (50 <= progressiveDelay n)%N.
Proof.
  unfold progressiveDelay.
  destruct (n <? 5); [lia|]. destruct (n <? 15); lia.
Qed.

(** A check made with budget left, and with more budget than
    milliseconds left before the timeout, resolves the promise. *)
Lemma checkForNewPublications_resolves :
  forall budget previousCount timeout elapsed checks failures p,
    1 <= budget ->
    ((elapsed <= timeout)%N -> (timeout + 2 <= elapsed + N.of_nat budget)%N) ->
    checkForNewPublications src budget previousCount timeout elapsed checks
      failures p <> None.
Proof.
  induction budget as [|budget IH];
    intros previousCount timeout elapsed checks failures p B H.
  - lia.
  - simpl.
    destruct (previousCount <? countRows src p); [discriminate|].
    destruct (timeout <? elapsed)%N eqn:T; [discriminate|].
    apply N.ltb_ge in T. specialize (H T).
    destruct (elapse src (progressiveDelay (S failures)) p) as [p' late].
    pose proof (progressiveDelay_positive (S failures)).
    apply IH; lia.
Qed.

Lemma waitForNewPublicationsOptimized_resolves previousCount timeout p :
  exists w,
    waitForNewPublicationsOptimized src previousCount timeout p = Some w.
Proof.
  unfold waitForNewPublicationsOptimized.
  destruct (checkForNewPublications src (S (S (N.to_nat timeout)))
              previousCount timeout 0 0 0 p) as [w|] eqn:E.
  - exists w. reflexivity.
  - exfalso. revert E. apply checkForNewPublications_resolves; lia.
Qed.

Lemma leastElapsed_late (n : nat) :
  30 <= n -> (10000 < leastElapsed n)%N.
Proof.
  induction 1 as [|n Hn IH].
  - vm_compute. reflexivity.
  - simpl. pose proof (progressiveDelay_positive (S n)). lia.
Qed.

(** With the timeout of [loadAllPublications] a wait makes 31 checks at
    most. *)
Lemma checkForNewPublications_checks :
  forall budget previousCount elapsed failures p w,
    (leastElapsed failures <= elapsed)%N ->
    checkForNewPublications src budget previousCount 10000 elapsed failures
      failures p = Some w ->
    checkCount w <= Nat.max (S failures) 31.
Proof.
  induction budget as [|budget IH];
    intros previousCount elapsed failures p w L H; simpl in H.
  - discriminate.
  - destruct (previousCount <? countRows src p).
    { injection H as <-. simpl. lia. }
    destruct (10000 <? elapsed)%N eqn:T.
    { injection H as <-. simpl. lia. }
    apply N.ltb_ge in T.
    destruct (elapse src (progressiveDelay (S failures)) p) as [p' late].
    apply IH in H; [|simpl; lia].
    assert (failures < 30).
    { destruct (Nat.lt_ge_cases failures 30) as [Hlt|Hge]; [exact Hlt|].
      apply leastElapsed_late in Hge. lia. }
    lia.
Qed.

Lemma waitForNewPublicationsOptimized_checks previousCount p w :
  waitForNewPublicationsOptimized src previousCount 10000 p = Some w ->
  checkCount w <= 31.
Proof.
  unfold waitForNewPublicationsOptimized. intros H.
  apply checkForNewPublications_checks in H; [|simpl; lia]. lia.
Qed.

Lemma paginate_step left attempts publicationsBefore p :
  paginate src (S left) attempts publicationsBefore p
  = match findShowMoreButtonSync src p with
    | Throw e => Some (Throw e)
    | Ok None => Some (Ok {| attempts := attempts; pageAtExit := p;
                             reason := NoButton |})
    | Ok (Some showMoreButton) =>
        match click src showMoreButton p with
        | (p1, Some _) =>
            Some (Ok {| attempts := attempts; pageAtExit := p1;
                        reason := ClickError |})
        | (p1, None) =>
            match waitForNewPublicationsOptimized src publicationsBefore
                    10000 p1 with
            | None => None
            | Some w =>
                if currentCount w =? publicationsBefore then
                  Some (Ok {| attempts := attempts;
                              pageAtExit := pageNow w;
                              reason := NoGrowth |})
                else
                  let (p3, _) := elapse src 300 (pageNow w) in
                  paginate src left (S attempts) (currentCount w) p3
            end
        end
    end.
Proof. reflexivity. Qed.

Lemma paginate_terminates :
  forall left attempts publicationsBefore p,
  exists out,
    paginate src left attempts publicationsBefore p = Some out
    /\ paginateOutcome (attempts + left) out.
Proof.
  induction left as [|left IH]; intros attempts publicationsBefore p;
    simpl.
  - eexists. split; [reflexivity|]. simpl. lia.
  - destruct (findShowMoreButtonSync src p) as [[b|]|e] eqn:F.
    + destruct (click src b p) as [p1 [e|]].
      * eexists. split; [reflexivity|]. simpl.
        split; [lia | discriminate].
      * destruct (waitForNewPublicationsOptimized_resolves
                    publicationsBefore 10000 p1) as [w ->].
        destruct (currentCount w =? publicationsBefore).
        -- eexists. split; [reflexivity|]. simpl.
           split; [lia | discriminate].
        -- destruct (elapse src 300 (pageNow w)) as [p3 late].
           destruct (IH (S attempts) (currentCount w) p3)
             as (out & -> & Hout).
           exists out. split; [reflexivity|].
           destruct out; simpl in *; [|exact Hout].
           replace (attempts + S left) with (S attempts + left) by lia.
           exact Hout.
    + eexists. split; [reflexivity|]. simpl.
      split; [lia | discriminate].
    + eexists. split; [reflexivity|]. simpl. eauto.
Qed.

(** The loop throws only when the search for the button does. *)
Lemma paginate_returns :
  (forall q e, findShowMoreButtonSync src q <> Throw e) ->
  forall left attempts publicationsBefore p,
  exists r, paginate src left attempts publicationsBefore p = Some (Ok r).
Proof.
  intros Hfind left attempts publicationsBefore p.
  destruct (paginate_terminates left attempts publicationsBefore p)
    as ([r|e] & E & Hout).
  - exists r. exact E.
  - destruct Hout as (q & Hq). exfalso. exact (Hfind _ _ Hq).
Qed.

(** The loader with a source whose rows never change in number. *)
Hypothesis click_keeps : forall b q,
  countRows src (fst (click src b q)) = countRows src q.
Hypothesis elapse_keeps : forall d q,
  countRows src (fst (elapse src d q)) = countRows src q.


End LoaderFacts.

(** The loader returns, or throws what the search for the button threw. *)
Lemma loadAllPublications_terminates (src : ContentSource) (p : page src) :
  exists out,
    loadAllPublications src p = Some out
    /\ match out with
       | Ok l =>
           attemptsUsed l <= maxAttempts
           /\ (exitReason l = Ceiling -> attemptsUsed l = maxAttempts)
           /\ finalCount l = countRows src (pageCounted l)
           /\ pageAfter l = fst (elapse src 500 (pageCounted l))
       | Throw e => exists q, findShowMoreButtonSync src q = Throw e
       end.
Proof.
  unfold loadAllPublications.
  destruct (paginate_terminates src maxAttempts 0 (countRows src p) p)
    as ([r|e] & -> & Hout); simpl in Hout.
  - destruct (elapse src 500 (pageAtExit r)) as [p' late] eqn:E.
    eexists. split; [reflexivity|]. simpl. rewrite E. simpl. tauto.
  - eexists. split; [reflexivity|]. exact Hout.
Qed.

(** ** Pages that the loader comes to *)










(** ** Errors of the content source while loading *)




(** ** Literal text in a pattern *)

Import RegExpFacts.

Lemma charEq_refl (ic : bool) (c : N) : charEq ic c c = true.
Proof. unfold charEq. destruct ic; apply N.eqb_refl. Qed.

Lemma sameIgnoringCase_refl (w : jsstring) : sameIgnoringCase w w.
Proof.
  induction w; constructor; [apply charEq_refl | assumption].
Qed.

Lemma contains_ignoring_case (w s : jsstring) :
  contains w s -> containsIgnoringCase w s.
Proof.
  intros (pre & post & ->). exists pre, w, post.
  split; [reflexivity | apply sameIgnoringCase_refl].
Qed.

(** A code unit equal to an ASCII letter up to case is a word character. *)
Lemma charEq_letter_word (a c : N) :
  Char.between 97 122 a = true -> charEq true a c = true ->
  Char.isWordChar c = true.
Proof.
  unfold charEq, Char.canonicalize, Char.isWordChar, Char.between.
  intros Ha. rewrite Ha.
  destruct ((97 <=? c)%N && (c <=? 122)%N) eqn:Hc; simpl.
  - reflexivity.
  - intros E. apply N.eqb_eq in E.
    apply andb_true_iff in Ha. destruct Ha as [Ha1 Ha2].
    apply N.leb_le in Ha1. apply N.leb_le in Ha2.
    assert (H1 : (65 <=? c)%N = true) by (apply N.leb_le; lia).
    assert (H2 : (c <=? 90)%N = true) by (apply N.leb_le; lia).
    rewrite H1, H2. reflexivity.
Qed.

Lemma Match_literal (ic : bool) (w : jsstring) :
  forall mid l r,
    Forall2 (fun a c => charEq ic a c = true) w mid ->
    Match ic (literal w) (l, mid ++ r) (rev mid ++ l, r).
Proof.
  induction w as [|a w IH]; intros mid l r F; inversion F; subst; simpl.
  - constructor.
  - destruct w as [|a' w'].
    + match goal with H : Forall2 _ [] _ |- _ => inversion H; subst end.
      simpl. constructor. assumption.
    + eapply MSeq; [constructor; eassumption|].
      rewrite <- app_assoc. simpl. apply IH. assumption.
Qed.

Lemma Match_literal_inv (ic : bool) (w : jsstring) :
  forall l r y,
    Match ic (literal w) (l, r) y ->
    exists mid r',
      r = mid ++ r' /\ y = (rev mid ++ l, r')
      /\ Forall2 (fun a c => charEq ic a c = true) w mid.
Proof.
  induction w as [|a w IH]; intros l r y M.
  - inversion M; subst. exists [], r. repeat split. constructor.
  - destruct w as [|a' w'].
    + inversion M; subst. eexists [_], _. repeat split.
      constructor; [assumption | constructor].
    + change (literal (a :: a' :: w'))
        with (Seq (Chr a) (literal (a' :: w'))) in M.
      inversion M as [| | | |? ? ? ? ? Ma Mw| | | | | | |]; clear M; subst.
      inversion Ma; clear Ma; subst.
      apply IH in Mw. destruct Mw as (mid & r' & -> & -> & F).
      eexists (_ :: mid), r'. simpl. rewrite <- app_assoc.
      repeat split. constructor; assumption.
Qed.

Lemma test_at (p : pattern) (pre r : jsstring) (y : state) :
  Match (ignoreCase p) (source p) (rev pre, r) y ->
  test p (pre ++ r) = true.
Proof.
  intros M. apply test_true_iff. exists (rev pre, r), y.
  split; [|exact M]. unfold text. simpl. rewrite rev_involutive. reflexivity.
Qed.

Lemma test_position (p : pattern) (s : jsstring) :
  test p s = true ->
  exists l r y, s = rev l ++ r /\ Match (ignoreCase p) (source p) (l, r) y.
Proof.
  intros H. apply test_true_iff in H. destruct H as ([l r] & y & T & M).
  exists l, r, y. split; [symmetry; exact T | exact M].
Qed.

(** [split] gives an array with a first element unless the string is empty
    and the pattern matches the empty string. *)
Lemma splitFrom_first (p : pattern) :
  forall r skip piece l, splitFrom p skip piece l r <> [].
Proof.
  induction r as [|c r IH]; intros skip piece l.
  - discriminate.
  - cbn [splitFrom]. destruct skip as [|skip]; [|apply IH].
    destruct (matcher _ _ Some (l, c :: r)) as [y|]; [|apply IH].
    destruct (remaining (l, c :: r) - remaining y);
      [destruct piece; [apply IH | discriminate] | discriminate].
Qed.

Lemma split_first (s : jsstring) :
  exists first rest, split (rx "[,.(]") s = first :: rest.
Proof.
  destruct s as [|c s].
  - exists [], []. vm_compute. reflexivity.
  - unfold split.
    destruct (splitFrom (rx "[,.(]") 0 [] [] (c :: s)) as [|first rest] eqn:E.
    + exfalso. revert E. apply splitFrom_first.
    + exists first, rest. reflexivity.
Qed.

(** *** The workshop flag *)

Lemma workshopFlag_workshop (venueText : jsstring) :
  containsIgnoringCase (js "workshop") venueText ->
  workshopFlag venueText = true.
Proof.
  intros (pre & mid & post & -> & S). unfold workshopFlag.
  eapply test_at. apply MAltL.
  apply (@Match_literal true (js "workshop")). exact S.
Qed.

Lemma workshopFlag_token (venueText : jsstring) :
  wsToken venueText -> workshopFlag venueText = true.
Proof.
  intros (pre & a & b & post & -> & Ha & Hb & _ & Hpost).
  unfold workshopFlag. eapply test_at. apply MAltR.
  eapply MSeq; [apply MChr; exact Ha|].
  eapply MSeq; [apply MChr; exact Hb|].
  apply MWordB. unfold atWordBoundary. simpl.
  rewrite (charEq_letter_word 115 b eq_refl Hb), Hpost. reflexivity.
Qed.

Lemma workshopFlag_true (venueText : jsstring) :
  workshopFlag venueText = true ->
  containsIgnoringCase (js "workshop") venueText \/ wsEndsWord venueText.
Proof.
  unfold workshopFlag. intros H. apply test_position in H.
  destruct H as (l & r & y & -> & M). vm_compute in M.
  inversion M as [| | | | |? ? ? ? W|? ? ? ? W| | | | |]; clear M; subst.
  - left. apply (@Match_literal_inv true (js "workshop")) in W.
    destruct W as (mid & r' & -> & _ & F).
    exists (rev l), mid, r'. split; [reflexivity | exact F].
  - right. inversion W as [| | | |? ? ? ? ? Wa Wb| | | | | | |]; clear W; subst.
    inversion Wa; clear Wa; subst.
    inversion Wb as [| | | |? ? ? ? ? Ws Wz| | | | | | |]; clear Wb; subst.
    inversion Ws; clear Ws; subst. inversion Wz as [| | | | | | | | | | |? B];
      clear Wz; subst.
    unfold atWordBoundary in B. simpl in B.
    match goal with
    | Hb : charEq true 115 ?b = true |- _ =>
        rewrite (charEq_letter_word 115 b eq_refl Hb) in B
    end.
    eexists (rev l), _, _, _. split; [reflexivity|].
    repeat (split; [assumption|]).
    destruct (isWordAt _); [discriminate B | reflexivity].
Qed.

(** ** Precedence of the ACL and NAACL rules *)

Lemma computerVisionConferences_notACL : forall lowerVenue isWorkshop l,
  computerVisionConferences lowerVenue isWorkshop = Some l -> notACL l.
Proof. group_labels computerVisionConferences. Qed.

Lemma machineLearningConferences_notACL : forall lowerVenue isWorkshop l,
  machineLearningConferences lowerVenue isWorkshop = Some l -> notACL l.
Proof. group_labels machineLearningConferences. Qed.

Lemma aiConferences_notACL : forall lowerVenue isWorkshop l,
  aiConferences lowerVenue isWorkshop = Some l -> notACL l.
Proof. group_labels aiConferences. Qed.

Lemma naacl_excluded (lowerVenue : jsstring) :
  contains (js "naacl") lowerVenue ->
  test (rxi "naacl|eacl") lowerVenue = true.
Proof.
  intros (pre & post & ->). eapply test_at. apply MAltL.
  apply (@Match_literal true (js "naacl")). apply sameIgnoringCase_refl.
Qed.

Lemma naacl_matched (lowerVenue : jsstring) :
  contains (js "naacl") lowerVenue ->
  test (rxi "north american chapter|naacl|findings.*?naacl") lowerVenue
  = true.
Proof.
  intros (pre & post & ->). eapply test_at. apply MAltR. apply MAltL.
  apply (@Match_literal true (js "naacl")). apply sameIgnoringCase_refl.
Qed.

(** With "naacl" in the text the ACL rule is skipped and the NAACL rule
    returns. *)
Lemma nlpConferences_naacl (lowerVenue : jsstring) (isWorkshop : bool) :
  contains (js "naacl") lowerVenue ->
  nlpConferences lowerVenue isWorkshop
  = Some (if isWorkshop then js "NAACL Workshop" else js "NAACL").
Proof.
  intros H. unfold nlpConferences.
  rewrite (naacl_excluded H), (naacl_matched H).
  cbn [negb]. rewrite Bool.andb_false_r. reflexivity.
Qed.

(** C4, as the code has it: when the lower-cased cleaned text contains
    "naacl", the result is never "ACL" nor "ACL Workshop", and it is "NAACL"
    (or "NAACL Workshop" when the workshop flag is set) whenever no rule
    placed before the ACL rule (computer vision, machine learning, AI) has
    matched. *)
Theorem C4_naacl_is_never_acl :
  forall (toLowerCase : jsstring -> jsstring) (s : jsstring),
    let venueText := preprocess s in
    let lowerVenue := toLowerCase venueText in
    let isWorkshop := workshopFlag venueText in
    contains (js "naacl") lowerVenue ->
    normalizeVenue toLowerCase s <> Some (js "ACL")
    /\ normalizeVenue toLowerCase s <> Some (js "ACL Workshop")
    /\ (s <> [] ->
        computerVisionConferences lowerVenue isWorkshop = None ->
        machineLearningConferences lowerVenue isWorkshop = None ->
        aiConferences lowerVenue isWorkshop = None ->
        normalizeVenue toLowerCase s
        = Some (if isWorkshop then js "NAACL Workshop" else js "NAACL")).
Proof.
  intros lc s venueText lowerVenue isWorkshop H.
  pose proof (nlpConferences_naacl isWorkshop H) as Hnlp.
  assert (Cases :
    s <> [] ->
    (exists l, normalizeVenue lc s = Some l /\ notACL l)
    /\ (computerVisionConferences lowerVenue isWorkshop = None ->
        machineLearningConferences lowerVenue isWorkshop = None ->
        aiConferences lowerVenue isWorkshop = None ->
        normalizeVenue lc s
        = Some (if isWorkshop then js "NAACL Workshop" else js "NAACL"))).
  { intros Hs. rewrite normalizeVenue_cases by exact Hs.
    unfold fromRule, classify.
    fold venueText. fold lowerVenue. fold isWorkshop.
    destruct (computerVisionConferences lowerVenue isWorkshop) as [l|] eqn:E1.
    { split; [|discriminate]. exists l. split; [reflexivity|].
      exact (computerVisionConferences_notACL _ _ E1). }
    destruct (machineLearningConferences lowerVenue isWorkshop) as [l|] eqn:E2.
    { split; [|discriminate]. exists l. split; [reflexivity|].
      exact (machineLearningConferences_notACL _ _ E2). }
    destruct (aiConferences lowerVenue isWorkshop) as [l|] eqn:E3.
    { split; [|discriminate]. exists l. split; [reflexivity|].
      exact (aiConferences_notACL _ _ E3). }
    rewrite Hnlp. split; [|reflexivity].
    eexists. split; [reflexivity|].
    destruct isWorkshop; split; discriminate. }
  destruct s as [|c s].
  - repeat split; try discriminate. intros Hs. congruence.
  - destruct (Cases ltac:(discriminate)) as [(l & E & N1 & N2) Hn].
    rewrite E. repeat split; try congruence. intros _. rewrite <- E. exact Hn.
Qed.

Lemma C4_witness :
  let s := js "Proceedings of NAACL-HLT, 2019" in
  contains (js "naacl") (JSString.toLowerCase (preprocess s))
  /\ normalizeVenue JSString.toLowerCase s <> Some (js "ACL")
  /\ normalizeVenue JSString.toLowerCase s <> Some (js "ACL Workshop")
  /\ normalizeVenue JSString.toLowerCase s = Some (js "NAACL").
Proof.
  intros s.
  assert (H : contains (js "naacl") (JSString.toLowerCase (preprocess s)))
    by (exists [], (js "-hlt"); vm_compute; reflexivity).
  destruct (C4_naacl_is_never_acl JSString.toLowerCase s H) as (N1 & N2 & E).
  split; [exact H|]. split; [exact N1|]. split; [exact N2|].
  apply E; [discriminate | vm_compute; reflexivity ..].
Defined.

(** C4 as stated fails when a rule placed before the ACL rule matches:
    this text contains "naacl" and is classified as an AAAI workshop. *)
Lemma C4_earlier_rule_wins :
  let s := js "Joint Workshop of NAACL and AAAI" in
  contains (js "naacl") (JSString.toLowerCase (preprocess s))
  /\ normalizeVenue JSString.toLowerCase s = Some (js "AAAI Workshop")
  /\ normalizeVenue JSString.toLowerCase s <> Some (js "NAACL")
  /\ normalizeVenue JSString.toLowerCase s <> Some (js "NAACL Workshop").
Proof.
  intros s. split.
  - exists (js "joint workshop of "), (js " and aaai"). vm_compute. reflexivity.
  - split; [vm_compute; reflexivity|].
    split; vm_compute; discriminate.
Qed.

(** The full name of NAACL has the words of the ACL rule and not the
    acronym that the ACL rule excludes: it is classified as ACL. *)
Example naacl_full_name :
  normalizeVenue JSString.toLowerCase
    (js "Proceedings of the 2019 Conference of the North American Chapter of the Association for Computational Linguistics")
  = Some (js "ACL").
Proof. vm_compute. reflexivity. Qed.

(** ** Workshop tagging of the CVPR rule *)

(** The CVPR rule is the first of all: when its condition holds it
    decides. *)
Lemma classify_cvpr (lowerVenue : jsstring) (isWorkshop : bool) :
  matchesCVPR lowerVenue = true ->
  classify lowerVenue isWorkshop
  = Some (if isWorkshop then js "CVPR Workshop" else js "CVPR").
Proof.
  intros H. unfold matchesCVPR in H.
  unfold classify, computerVisionConferences. rewrite H. reflexivity.
Qed.

Lemma normalizeVenue_cvpr toLowerCase (s : jsstring) :
  s <> [] ->
  matchesCVPR (toLowerCase (preprocess s)) = true ->
  normalizeVenue toLowerCase s
  = Some (if workshopFlag (preprocess s) then js "CVPR Workshop"
          else js "CVPR").
Proof.
  intros Hs H. rewrite normalizeVenue_cases by exact Hs.
  unfold fromRule. rewrite (@classify_cvpr _ _ H). reflexivity.
Qed.

(** ** The workshop label of a rule *)

(** One rule, read with the flag and without it. *)
Lemma when_both (W : jsstring -> jsstring) (c : bool)
    (withFlag without : jsstring) (k k' : option jsstring) :
  W without = withFlag -> k = option_map W k' ->
  (if c then Some withFlag else k)
  = option_map W (if c then Some without else k').
Proof. intros <- ->. destruct c; reflexivity. Qed.

Ltac group_workshop g :=
  intros lowerVenue; unfold g;
  repeat (apply when_both; [vm_compute; reflexivity|]);
  reflexivity.

Lemma computerVisionConferences_workshop : forall lowerVenue,
  computerVisionConferences lowerVenue true
  = option_map workshopName (computerVisionConferences lowerVenue false).
Proof. group_workshop computerVisionConferences. Qed.

Lemma machineLearningConferences_workshop : forall lowerVenue,
  machineLearningConferences lowerVenue true
  = option_map workshopName (machineLearningConferences lowerVenue false).
Proof. group_workshop machineLearningConferences. Qed.

Lemma aiConferences_workshop : forall lowerVenue,
  aiConferences lowerVenue true
  = option_map workshopName (aiConferences lowerVenue false).
Proof. group_workshop aiConferences. Qed.

Lemma nlpConferences_workshop : forall lowerVenue,
  nlpConferences lowerVenue true
  = option_map workshopName (nlpConferences lowerVenue false).
Proof. group_workshop nlpConferences. Qed.

Lemma dataMiningAndWebConferences_workshop : forall lowerVenue,
  dataMiningAndWebConferences lowerVenue true
  = option_map workshopName (dataMiningAndWebConferences lowerVenue false).
Proof. group_workshop dataMiningAndWebConferences. Qed.

Lemma roboticsConferences_workshop : forall lowerVenue,
  roboticsConferences lowerVenue true
  = option_map workshopName (roboticsConferences lowerVenue false).
Proof. group_workshop roboticsConferences. Qed.

Lemma signalProcessingConferences_workshop : forall lowerVenue,
  signalProcessingConferences lowerVenue true
  = option_map workshopName (signalProcessingConferences lowerVenue false).
Proof. group_workshop signalProcessingConferences. Qed.

Lemma medicalImagingConferences_workshop : forall lowerVenue,
  medicalImagingConferences lowerVenue true
  = option_map workshopName (medicalImagingConferences lowerVenue false).
Proof. group_workshop medicalImagingConferences. Qed.

Lemma graphicsAndVisualization_workshop : forall lowerVenue,
  graphicsAndVisualization lowerVenue true
  = option_map workshopName (graphicsAndVisualization lowerVenue false).
Proof. group_workshop graphicsAndVisualization. Qed.

Lemma ieeeTransactions_workshop : forall lowerVenue,
  ieeeTransactions lowerVenue true
  = option_map workshopName (ieeeTransactions lowerVenue false).
Proof. group_workshop ieeeTransactions. Qed.

Lemma otherMajorJournals_workshop : forall lowerVenue,
  otherMajorJournals lowerVenue true
  = option_map workshopName (otherMajorJournals lowerVenue false).
Proof. group_workshop otherMajorJournals. Qed.

Lemma highImpactJournals_workshop : forall lowerVenue,
  highImpactJournals lowerVenue true
  = option_map workshopName (highImpactJournals lowerVenue false).
Proof. group_workshop highImpactJournals. Qed.

Lemma preprintsAndOtherSources_workshop : forall lowerVenue,
  preprintsAndOtherSources lowerVenue true
  = option_map workshopName (preprintsAndOtherSources lowerVenue false).
Proof. group_workshop preprintsAndOtherSources. Qed.

Lemma publishers_workshop : forall lowerVenue,
  publishers lowerVenue true
  = option_map workshopName (publishers lowerVenue false).
Proof. group_workshop publishers. Qed.

Lemma additionalConferences_workshop : forall lowerVenue,
  additionalConferences lowerVenue true
  = option_map workshopName (additionalConferences lowerVenue false).
Proof. group_workshop additionalConferences. Qed.

(** The area rules decide by the text alone; the flag only turns the base
    name of the rule that decides into its workshop label. *)
Lemma areaRules_workshop (lowerVenue : jsstring) :
  areaRules lowerVenue true
  = option_map workshopName (areaRules lowerVenue false).
Proof.
  unfold areaRules.
  rewrite computerVisionConferences_workshop,
    machineLearningConferences_workshop,
    aiConferences_workshop,
    nlpConferences_workshop,
    dataMiningAndWebConferences_workshop,
    roboticsConferences_workshop,
    signalProcessingConferences_workshop,
    medicalImagingConferences_workshop,
    graphicsAndVisualization_workshop,
    ieeeTransactions_workshop,
    otherMajorJournals_workshop,
    highImpactJournals_workshop,
    preprintsAndOtherSources_workshop,
    publishers_workshop,
    additionalConferences_workshop.
  repeat match goal with
    | |- context [option_map workshopName (?g lowerVenue false)] =>
        is_const g; destruct (g lowerVenue false); cbn [option_map];
        [reflexivity|]
    end.
  reflexivity.
Qed.

Lemma classify_areaRules (lowerVenue : jsstring) (isWorkshop : bool)
    (l : jsstring) :
  areaRules lowerVenue isWorkshop = Some l ->
  classify lowerVenue isWorkshop = Some l.
Proof.
  unfold areaRules, classify.
  repeat match goal with
    | |- match ?g lowerVenue isWorkshop with _ => _ end = Some l -> _ =>
        destruct (g lowerVenue isWorkshop); [exact (fun H => H)|]
    end.
  intros H. rewrite H. reflexivity.
Qed.

Lemma normalizeVenue_areaRules toLowerCase (s base : jsstring) :
  s <> [] ->
  areaRules (toLowerCase (preprocess s)) false = Some base ->
  normalizeVenue toLowerCase s
  = Some (if workshopFlag (preprocess s) then workshopName base else base).
Proof.
  intros Hs H. rewrite normalizeVenue_cases by exact Hs. unfold fromRule.
  destruct (workshopFlag (preprocess s)).
  - rewrite (@classify_areaRules _ true (workshopName base));
      [reflexivity|].
    rewrite areaRules_workshop, H. reflexivity.
  - rewrite (@classify_areaRules _ false base H). reflexivity.
Qed.

(** C5, as the code has it.  When the lower-cased cleaned text matches the
    CVPR pattern, the result is "CVPR Workshop" if the cleaned text contains
    "workshop" (in any case) or "ws" as a token of its own, and "CVPR" if it
    contains neither "workshop" nor "ws" at the end of a word.  More
    generally the flag is set when the cleaned text contains "workshop" or
    "ws" as a token of its own and is not set when it contains neither
    "workshop" nor "ws" at the end of a word; and a text that a rule placed
    before the workshop pass decides with the base name [base] gets [base]
    without the flag and [workshopName base] with it: [base] followed by
    " Workshop", but "KDD Workshop", "CHI Workshop" and "SIGIR Workshop" for
    "ACM SIGKDD", "ACM CHI" and "ACM SIGIR", and [base] itself when the rule
    has no workshop variant. *)
Theorem C5_workshop_tagging :
  forall (toLowerCase : jsstring -> jsstring) (s : jsstring),
    let venueText := preprocess s in
    s <> [] ->
    (matchesCVPR (toLowerCase venueText) = true ->
     (containsIgnoringCase (js "workshop") venueText \/ wsToken venueText ->
      normalizeVenue toLowerCase s = Some (js "CVPR Workshop"))
     /\ (~ containsIgnoringCase (js "workshop") venueText ->
         ~ wsEndsWord venueText ->
         normalizeVenue toLowerCase s = Some (js "CVPR")))
    /\ (containsIgnoringCase (js "workshop") venueText \/ wsToken venueText ->
        workshopFlag venueText = true)
    /\ (~ containsIgnoringCase (js "workshop") venueText ->
        ~ wsEndsWord venueText ->
        workshopFlag venueText = false)
    /\ (forall base : jsstring,
          areaRules (toLowerCase venueText) false = Some base ->
          normalizeVenue toLowerCase s
          = Some (if workshopFlag venueText then workshopName base
                  else base)).
Proof.
  intros lc s venueText Hs.
  assert (Set_ : containsIgnoringCase (js "workshop") venueText
                 \/ wsToken venueText -> workshopFlag venueText = true).
  { intros [W|W];
      [apply workshopFlag_workshop | apply workshopFlag_token]; exact W. }
  assert (Unset : ~ containsIgnoringCase (js "workshop") venueText ->
                  ~ wsEndsWord venueText -> workshopFlag venueText = false).
  { intros N1 N2. destruct (workshopFlag venueText) eqn:F; [|reflexivity].
    apply workshopFlag_true in F. tauto. }
  split; [|split; [exact Set_ | split; [exact Unset|]]].
  - intros H. pose proof (@normalizeVenue_cvpr lc s Hs H) as E.
    fold venueText in E. split.
    + intros W. rewrite (Set_ W) in E. exact E.
    + intros N1 N2. rewrite (Unset N1 N2) in E. exact E.
  - intros base H. apply normalizeVenue_areaRules; assumption.
Qed.

(** The pattern of "ws" as a token of its own. *)
Lemma wsToken_pattern (s : jsstring) :
  wsToken s -> test (rxi "\bws\b") s = true.
Proof.
  intros (pre & a & b & post & -> & Ha & Hb & Hpre & Hpost).
  eapply test_at.
  eapply MSeq.
  { apply MWordB. unfold atWordBoundary. simpl.
    unfold lastOf in Hpre. rewrite Hpre.
    rewrite (charEq_letter_word 119 a eq_refl Ha). reflexivity. }
  eapply MSeq; [apply MChr; exact Ha|].
  eapply MSeq; [apply MChr; exact Hb|].
  apply MWordB. unfold atWordBoundary. simpl.
  rewrite (charEq_letter_word 115 b eq_refl Hb), Hpost. reflexivity.
Qed.

Lemma containsIgnoringCase_pattern (s : jsstring) :
  containsIgnoringCase (js "workshop") s -> test (rxi "workshop") s = true.
Proof.
  intros (pre & mid & post & -> & S). eapply test_at.
  apply (@Match_literal true (js "workshop")). exact S.
Qed.

Lemma C5_witness :
  let s := js "CVPR WS on Vision, 2020" in
  s <> []
  /\ matchesCVPR (JSString.toLowerCase (preprocess s)) = true
  /\ wsToken (preprocess s)
  /\ workshopFlag (preprocess s) = true
  /\ normalizeVenue JSString.toLowerCase s = Some (js "CVPR Workshop")
  /\ let s' := js "Proc. IEEE CVPR, 2020" in
     s' <> []
     /\ matchesCVPR (JSString.toLowerCase (preprocess s')) = true
     /\ ~ containsIgnoringCase (js "workshop") (preprocess s')
     /\ ~ wsEndsWord (preprocess s')
     /\ workshopFlag (preprocess s') = false
     /\ normalizeVenue JSString.toLowerCase s' = Some (js "CVPR")
     /\ let s'' := js "ICRA Workshop on Manipulation, 2019" in
        s'' <> []
        /\ areaRules (JSString.toLowerCase (preprocess s'')) false
           = Some (js "ICRA")
        /\ normalizeVenue JSString.toLowerCase s''
           = Some (js "ICRA Workshop").
Proof.
  intros s.
  assert (Hs : s <> []) by discriminate.
  assert (Hm : matchesCVPR (JSString.toLowerCase (preprocess s)) = true)
    by (vm_compute; reflexivity).
  assert (Ht : wsToken (preprocess s)).
  { exists (js "CVPR "), 87%N, 83%N, (js " on Vision").
    repeat split; vm_compute; reflexivity. }
  destruct (@C5_workshop_tagging JSString.toLowerCase s Hs)
    as (Hcvpr & Hset & _ & _).
  split; [exact Hs|]. split; [exact Hm|]. split; [exact Ht|].
  split; [exact (Hset (or_intror Ht))|].
  split; [exact (proj1 (Hcvpr Hm) (or_intror Ht))|].
  intros s'.
  assert (Hs' : s' <> []) by discriminate.
  assert (Hm' : matchesCVPR (JSString.toLowerCase (preprocess s')) = true)
    by (vm_compute; reflexivity).
  assert (Hf : workshopFlag (preprocess s') = false)
    by (vm_compute; reflexivity).
  assert (N1 : ~ containsIgnoringCase (js "workshop") (preprocess s')).
  { intros W. apply workshopFlag_workshop in W. congruence. }
  assert (N2 : ~ wsEndsWord (preprocess s')).
  { intros (pre & a & b & post & E & Ha & Hb & Hpost).
    assert (F : workshopFlag (preprocess s') = true).
    { rewrite E. unfold workshopFlag. eapply test_at. apply MAltR.
      eapply MSeq; [apply MChr; exact Ha|].
      eapply MSeq; [apply MChr; exact Hb|].
      apply MWordB. unfold atWordBoundary. simpl.
      rewrite (charEq_letter_word 115 b eq_refl Hb), Hpost. reflexivity. }
    congruence. }
  destruct (@C5_workshop_tagging JSString.toLowerCase s' Hs')
    as (Hcvpr' & _ & Hunset' & _).
  split; [exact Hs'|]. split; [exact Hm'|]. split; [exact N1|].
  split; [exact N2|].
  split; [exact (Hunset' N1 N2)|].
  split; [exact (proj2 (Hcvpr' Hm') N1 N2)|].
  intros s''.
  assert (Hs'' : s'' <> []) by discriminate.
  assert (Hb : areaRules (JSString.toLowerCase (preprocess s'')) false
               = Some (js "ICRA")) by (vm_compute; reflexivity).
  destruct (@C5_workshop_tagging JSString.toLowerCase s'' Hs'')
    as (_ & _ & _ & Hbase).
  split; [exact Hs''|]. split; [exact Hb|].
  rewrite (Hbase _ Hb). vm_compute. reflexivity.
Defined.

(** C5 as stated fails for the rule of KDD: it decides the text, with or
    without the flag, its base name is "ACM SIGKDD", and with the flag it
    returns "KDD Workshop", which is not the base name followed by
    " Workshop". *)
Lemma C5_kdd_workshop_is_not_the_base_name_extended :
  let s := js "Proceedings of the ACM SIGKDD Workshop on Human Computation" in
  let lowerVenue := JSString.toLowerCase (preprocess s) in
  workshopFlag (preprocess s) = true
  /\ dataMiningAndWebConferences lowerVenue false = Some (js "ACM SIGKDD")
  /\ areaRules lowerVenue false = Some (js "ACM SIGKDD")
  /\ normalizeVenue JSString.toLowerCase
       (js "Proceedings of the ACM SIGKDD Conference")
     = Some (js "ACM SIGKDD")
  /\ normalizeVenue JSString.toLowerCase s = Some (js "KDD Workshop")
  /\ normalizeVenue JSString.toLowerCase s
     <> Some (js "ACM SIGKDD" ++ js " Workshop").
Proof.
  intros s lowerVenue.
  repeat (split; [vm_compute; reflexivity|]).
  vm_compute. discriminate.
Qed.

(** What the statement of C5 above leaves open: "ws" at the end of a longer
    word sets the flag too, the pattern having no boundary before "ws".
    "CVPR News" matches the CVPR pattern, has no "workshop" in it and no
    "ws" token of its own, and is tagged as a workshop. *)
Lemma news_is_tagged_workshop :
  let s := js "CVPR News" in
  matchesCVPR (JSString.toLowerCase (preprocess s)) = true
  /\ ~ containsIgnoringCase (js "workshop") s
  /\ ~ containsIgnoringCase (js "workshop") (preprocess s)
  /\ ~ wsToken s
  /\ ~ wsToken (preprocess s)
  /\ normalizeVenue JSString.toLowerCase s = Some (js "CVPR Workshop")
  /\ normalizeVenue JSString.toLowerCase s <> Some (js "CVPR").
Proof.
  intros s.
  assert (P : preprocess s = s) by (vm_compute; reflexivity).
  assert (N1 : ~ containsIgnoringCase (js "workshop") s).
  { intros W. apply containsIgnoringCase_pattern in W.
    vm_compute in W. discriminate W. }
  assert (N2 : ~ wsToken s).
  { intros W. apply wsToken_pattern in W. vm_compute in W. discriminate W. }
  split; [vm_compute; reflexivity|].
  split; [exact N1|]. split; [rewrite P; exact N1|].
  split; [exact N2|]. split; [rewrite P; exact N2|].
  split; [vm_compute; reflexivity | vm_compute; discriminate].
Qed.

(** ** The floor of the fallback stage *)

Lemma fallback_short (venueText : jsstring) :
  List.length (simplify venueText) < 3 -> fallback venueText = None.
Proof.
  intros H. unfold fallback. apply Nat.ltb_lt in H. rewrite H. reflexivity.
Qed.

Lemma fallback_stop_word (venueText : jsstring) :
  In (simplify venueText) stopWords -> fallback venueText = None.
Proof.
  intros H. unfold fallback.
  destruct (simplify venueText) as [|c r] eqn:E.
  - reflexivity.
  - rewrite <- E in *. clear E.
    assert (T : test (rxi "^(the|a|an|in|on|of|and|for|with)$")
                  (simplify venueText) = true).
    { unfold stopWords in H. simpl in H.
      repeat (destruct H as [H|H]; [rewrite <- H; vm_compute; reflexivity|]).
      contradiction. }
    rewrite T, Bool.orb_true_r. reflexivity.
Qed.

(** C6: [normalizeVenue] returns null for "The" and for "of"; it returns
    null for every string that no rule classifies and whose simplified
    remainder has fewer than three code units or is one of the stop words;
    and for "Proceedings of the Workshop on Robot Learning, 2021" it returns
    the generic label "Workshop" of the workshop pass, which is no label of
    the form base name + " Workshop". *)
Theorem C6_fallback_floor :
  normalizeVenue JSString.toLowerCase (js "The") = None
  /\ normalizeVenue JSString.toLowerCase (js "of") = None
  /\ (forall (toLowerCase : jsstring -> jsstring) (s : jsstring),
        fromRule toLowerCase s = None ->
        List.length (simplify (preprocess s)) < 3
        \/ In (simplify (preprocess s)) stopWords ->
        normalizeVenue toLowerCase s = None)
  /\ (let s := js "Proceedings of the Workshop on Robot Learning, 2021" in
      normalizeVenue JSString.toLowerCase s = Some (js "Workshop")
      /\ workshopFlag (preprocess s) = true
      /\ workshopDetection (JSString.toLowerCase (preprocess s)) true
         = Some (js "Workshop")
      /\ isWorkshopVariant (js "Workshop") = false
      /\ forall l, isWorkshopVariant l = true ->
                   normalizeVenue JSString.toLowerCase s <> Some l).
Proof.
  split; [vm_compute; reflexivity|].
  split; [vm_compute; reflexivity|].
  split.
  - intros lc s R H. destruct s as [|c s]; [reflexivity|].
    rewrite normalizeVenue_cases by discriminate. rewrite R.
    destruct H as [H|H];
      [apply fallback_short | apply fallback_stop_word]; exact H.
  - intros s.
    assert (E : normalizeVenue JSString.toLowerCase s = Some (js "Workshop"))
      by (vm_compute; reflexivity).
    split; [exact E|].
    split; [vm_compute; reflexivity|].
    split; [vm_compute; reflexivity|].
    split; [vm_compute; reflexivity|].
    intros l V N. rewrite E in N. injection N as <-.
    vm_compute in V. discriminate V.
Qed.

Lemma C6_witness :
  fromRule JSString.toLowerCase (js "the, 2021") = None
  /\ In (simplify (preprocess (js "the, 2021"))) stopWords
  /\ normalizeVenue JSString.toLowerCase (js "the, 2021")
     = None.
Proof.
  assert (R : fromRule JSString.toLowerCase (js "the, 2021")
              = None) by (vm_compute; reflexivity).
  assert (W : In (simplify (preprocess (js "the, 2021")))
                stopWords).
  { left. vm_compute. reflexivity. }
  split; [exact R|]. split; [exact W|].
  exact (proj1 (proj2 (proj2 C6_fallback_floor)) JSString.toLowerCase _ R
           (or_intror W)).
Defined.

(** ** The venue table away from the names of %Object.prototype%

    When no label is the name of a property that [{}] inherits, the counts
    are numbers and add up to [processedCount]. *)

Lemma getOwn_numeric (o : JSObject.object) (k : jsstring) (v : value) :
  numeric o -> JSObject.getOwn o k = Some v -> exists n, v = Number n.
Proof.
  induction 1 as [|[k' v'] o Hv Ho IH]; simpl; [discriminate|].
  destruct (jsstring_eqb k' k).
  - intros [= <-]. exact Hv.
  - exact IH.
Qed.

Lemma update_numeric (o : JSObject.object) (k : jsstring) (m : nat) :
  numeric o -> numeric (JSObject.update o k (Number m)).
Proof.
  induction 1 as [|[k' v'] o Hv Ho IH]; simpl; [constructor|].
  destruct (jsstring_eqb k' k); constructor; simpl; eauto.
Qed.

Lemma update_sum (o : JSObject.object) (k : jsstring) (n m : nat) :
  JSObject.getOwn o k = Some (Number n) ->
  sumOf (JSObject.update o k (Number m)) + n = sumOf o + m.
Proof.
  unfold sumOf. induction o as [|[k' v'] o IH]; simpl; [discriminate|].
  destruct (jsstring_eqb k' k).
  - intros [= ->]. simpl. lia.
  - intros H. apply IH in H. simpl. lia.
Qed.

Lemma inherited_proto (k : jsstring) :
  JSObject.inherited k = Undefined ->
  jsstring_eqb k (js "__proto__") = false.
Proof.
  unfold JSObject.inherited.
  destruct (jsstring_eqb k (js "constructor")); [discriminate|].
  destruct (existsb _ _); [discriminate|].
  destruct (jsstring_eqb k (js "__proto__")); [discriminate | reflexivity].
Qed.

(** One more record with the label [k]. *)
Lemma count_one_more (o : JSObject.object) (k : jsstring) :
  numeric o -> JSObject.inherited k = Undefined ->
  let o' := JSObject.set o k
              (add (or (JSObject.get o k) (Number 0)) (Number 1)) in
  numeric o' /\ sumOf o' = S (sumOf o).
Proof.
  intros Ho Hk. unfold JSObject.set, JSObject.get.
  destruct (JSObject.getOwn o k) as [v|] eqn:G.
  - destruct (getOwn_numeric k Ho G) as [n ->].
    assert (E : add (or (Number n) (Number 0)) (Number 1) = Number (S n)).
    { destruct n; simpl; unfold add; simpl; f_equal; lia. }
    rewrite E. split.
    + apply update_numeric. exact Ho.
    + pose proof (update_sum o k (S n) G). lia.
  - rewrite Hk, (inherited_proto k Hk).
    change (add (or Undefined (Number 0)) (Number 1)) with (Number 1).
    cbn [andb]. split.
    + apply Forall_app. split; [exact Ho|].
      constructor; [exists 1; reflexivity | constructor].
    + unfold sumOf. rewrite map_app, list_sum_app. simpl. lia.
Qed.

Lemma fold_visitText_numeric toLowerCase (texts : list (option jsstring)) :
  (forall t l, In (Some t) texts ->
               normalizeVenue toLowerCase (JSString.trim t) = Some l ->
               JSObject.inherited l = Undefined) ->
  forall o processed skipped o' processed' skipped',
    numeric o -> sumOf o = processed ->
    fold_left (visitText toLowerCase) texts (o, processed, skipped)
    = (o', processed', skipped') ->
    numeric o' /\ sumOf o' = processed'.
Proof.
  induction texts as [|t texts IH]; intros Hin o n m o' n' m' Ho Hs H;
    simpl in H.
  - injection H as <- <- <-. auto.
  - assert (Hin' : forall t l, In (Some t) texts ->
                     normalizeVenue toLowerCase (JSString.trim t) = Some l ->
                     JSObject.inherited l = Undefined)
      by (intros t' l' I; apply Hin; right; exact I).
    destruct t as [t|]; [|exact (IH Hin' _ _ _ _ _ _ Ho Hs H)].
    destruct (normalizeVenue toLowerCase (JSString.trim t))
      as [[|c l]|] eqn:E;
      try exact (IH Hin' _ _ _ _ _ _ Ho Hs H).
    destruct (count_one_more (c :: l) Ho (Hin t (c :: l) (or_introl eq_refl) E))
      as [Ho' Hs'].
    apply (IH Hin' _ _ _ _ _ _ Ho') in H; [exact H | lia].
Qed.


Lemma insertIndex_permutation (e : N * (jsstring * value)) l :
  Permutation (JSObject.insertIndex e l) (e :: l).
Proof.
  induction l as [|e' l IH]; simpl; [reflexivity|].
  destruct (fst e <? fst e')%N; [reflexivity|].
  rewrite IH. apply perm_swap.
Qed.

Lemma entries_permutation (o : JSObject.object) :
  Permutation (JSObject.entries o) o.
Proof.
  unfold JSObject.entries, JSObject.named.
  induction o as [|[k v] o IH]; simpl; [reflexivity|].
  destruct (JSObject.arrayIndex k) as [n|]; simpl.
  - rewrite insertIndex_permutation. simpl. constructor. exact IH.
  - rewrite <- Permutation_middle. constructor. exact IH.
Qed.

Lemma insert_permutation (A : Type) (cmp : A -> A -> option Z) (x : A) l :
  Permutation (JSArray.insert cmp x l) (x :: l).
Proof.
  induction l as [|y l IH]; simpl; [reflexivity|].
  destruct (JSArray.after cmp x y); [|reflexivity].
  rewrite IH. apply perm_swap.
Qed.

Lemma sort_permutation (A : Type) (cmp : A -> A -> option Z) (l : list A) :
  Permutation (JSArray.sort cmp l) l.
Proof.
  induction l as [|x l IH]; simpl; [reflexivity|].
  rewrite insert_permutation. constructor. exact IH.
Qed.

Lemma sumOf_permutation (o o' : JSObject.object) :
  Permutation o o' -> sumOf o = sumOf o'.
Proof.
  unfold sumOf. induction 1; simpl; lia.
Qed.

Lemma totalPubsFromVenues_numeric (l : list (jsstring * value)) :
  numeric l -> totalPubsFromVenues l = Number (sumOf l).
Proof.
  unfold totalPubsFromVenues.
  assert (G : forall a, numeric l ->
                fold_left (fun sum item => add sum (snd item)) l (Number a)
                = Number (a + sumOf l)).
  { induction l as [|[k v] l IH]; intros a H; simpl.
    - unfold sumOf. simpl. f_equal. lia.
    - inversion H as [|? ? [n Hn] Hl]; subst. simpl in Hn. subst v.
      unfold add at 2. simpl. rewrite (IH _ Hl).
      unfold sumOf. simpl. f_equal. lia. }
  intros H. rewrite (G 0 H). reflexivity.
Qed.

(** The first equation of C3, for tables whose labels are not names of
    inherited properties. *)
Lemma extractVenueData_sum toLowerCase (pubs : list publication) :
  (forall pub t l, In pub pubs -> venueElement pub = Some t ->
                   normalizeVenue toLowerCase (JSString.trim t) = Some l ->
                   JSObject.inherited l = Undefined) ->
  totalPubsFromVenues (venues (extractVenueData toLowerCase pubs))
  = Number (processedCount (extractVenueData toLowerCase pubs)).
Proof.
  intros Hin. unfold extractVenueData. rewrite fold_visit.
  destruct (fold_left _ _ _) as [[o n] m] eqn:E. simpl.
  apply fold_visitText_numeric in E; try (constructor || reflexivity).
  - destruct E as [Ho Hs].
    assert (P : Permutation
                  (JSArray.sort (byCountDescending)
                     (JSObject.entries o)) o)
      by (rewrite sort_permutation; apply entries_permutation).
    rewrite totalPubsFromVenues_numeric.
    + rewrite (sumOf_permutation P). congruence.
    + unfold numeric. apply (Permutation_Forall (Permutation_sym P)).
      exact Ho.
  - intros t l I. apply in_map_iff in I. destruct I as (pub & Hp & I).
    apply (Hin pub t l I Hp).
Qed.

(** ** The loader on a listing that grows *)

(** Three batches of twenty rows, one shown at the start: two clicks bring
    the other two, each during the fifth check of its wait, and the loop is
    left when the button is gone. *)
Example paged_listing_is_loaded :
  exists l,
    loadAllPublications (Scenario.paged 3) (1, false) = Some (Ok l)
    /\ finalCount l = 60 /\ attemptsUsed l = 2 /\ exitReason l = NoButton
    /\ pageAfter l = (3, false).
Proof. eexists. split; [vm_compute; reflexivity|]. repeat split. Qed.

Example paged_wait_makes_six_checks :
  exists w,
    waitForNewPublicationsOptimized (Scenario.paged 3) 20 10000 (1, true)
    = Some w
    /\ currentCount w = 40 /\ checkCount w = 6.
Proof. eexists. split; [vm_compute; reflexivity|]. split; reflexivity. Qed.

(** ** The patterns as they are read *)

Example parse_workshop :
  source (rxi "workshop|ws\b")
  = Alt (literal (js "workshop")) (Seq (Chr 119) (Seq (Chr 115) WordB)).
Proof. reflexivity. Qed.

Example parse_year_segment :
  source (rx "\s*,\s*\d{4}(\s|$)")
  = Seq (Star true (Class [CSpace]))
      (Seq (Chr 44)
         (Seq (Star true (Class [CSpace]))
            (Seq (times 4 (Class [CDigit])) (Alt (Class [CSpace]) Eol)))).
Proof. reflexivity. Qed.

Example parse_pages :
  source (rxi "\s*,\s*pp?\s*[\d-]+")
  = Seq (Star true (Class [CSpace]))
      (Seq (Chr 44)
         (Seq (Star true (Class [CSpace]))
            (Seq (Chr 112)
               (Seq (opt (Chr 112))
                  (Seq (Star true (Class [CSpace]))
                     (plus (Class [CDigit; CChar 45]))))))).
Proof. reflexivity. Qed.

Example parse_lazy :
  source (rxi "cvf.*?x")
  = Seq (Chr 99)
      (Seq (Chr 118) (Seq (Chr 102) (Seq (Star false Dot) (Chr 120)))).
Proof. reflexivity. Qed.

Example parse_refuses :
  parse "a{2,3}" = None /\ parse "(?:a)" = None /\ parse "[a-z]" = None
  /\ parse "a**" = None /\ parse "(a" = None.
Proof. repeat split. Qed.

(** The first match is the leftmost one, found by backtracking: the volume
    is taken without the issue, which no whitespace follows. *)
Example replace_backtracks :
  replace (rx "\s*,\s*\d+(\s*\(\d+\))?(\s|$)") (js " ")
    (js "Nature, 521 (7553), 436")
  = js "Nature (7553), 436"
  /\ replace (rx "\s*\d{4}\s*$") [] (js "arXiv preprint arXiv:2001.00001")
     = js "arXiv preprint arXiv:2001.0"
  /\ replaceAll (rx "\s+") (js " ") (js "a  b   c") = js "a b c"
  /\ split (rx "[,.(]") (js "Neural Comput. (MIT), 3") = [js "Neural Comput";
       js " "; js "MIT)"; js " 3"].
Proof. repeat split; vm_compute; reflexivity. Qed.

(** ** Every request is answered *)

(** A run settles, and the listener reacts to every request. *)
Lemma analyzeAllVenues_settles toLowerCase (src : ContentSource)
    (p : page src) :
  exists outcome, analyzeAllVenues toLowerCase src p = Some outcome.
Proof.
  unfold analyzeAllVenues.
  destruct (negb _); [eauto|].
  destruct (countRows src p =? 0); [eauto|].
  destruct (loadAllPublications_terminates src p) as ([l|e] & -> & _); eauto.
Qed.

Lemma onMessage_reacts toLowerCase (src : ContentSource) (st : script)
    (action : jsstring) (sendResponse : nat) (p : page src) :
  exists r, onMessage toLowerCase src st action sendResponse p = Some r.
Proof.
  unfold onMessage.
  destruct (jsstring_eqb action (js "analyzeVenues")); [|eauto].
  destruct (isAnalyzing st); [eauto|].
  destruct (analyzeAllVenues_settles toLowerCase src p) as [o ->]. eauto.
Qed.

(** ** Preprocessing at work *)

Example trailing_ellipsis_is_dropped :
  preprocess (js "Proceedings of the IEEE international conference on computer " ++ [8230%N])
  = js "IEEE international conference on computer"
  /\ normalizeVenue JSString.toLowerCase
       (js "Proceedings of the IEEE international conference on computer " ++ [8230%N])
     = Some (js "IEEE international conference on computer").
Proof. split; vm_compute; reflexivity. Qed.

Example years_are_dropped :
  preprocess (js "IEEE transactions on pattern analysis and machine intelligence 39 (6), 1137-1149, 2016")
  = js "IEEE transactions on pattern analysis and machine intelligence 39 (6), 1137-"
  /\ normalizeVenue JSString.toLowerCase
       (js "IEEE transactions on pattern analysis and machine intelligence 39 (6), 1137-1149, 2016")
     = Some (js "IEEE TPAMI").
Proof. split; vm_compute; reflexivity. Qed.

(** * Further properties of the script *)

(** ** The listener over time *)

Lemma afterEvent_exclusive toLowerCase (src : ContentSource) (st st' : script)
    (ev : event src) :
  exclusive st -> afterEvent toLowerCase st ev = Some st' -> exclusive st'.
Proof.
  intros [L F] H. destruct ev as [action sendResponse p|]; simpl in H.
  - unfold onMessage in H.
    destruct (jsstring_eqb action (js "analyzeVenues")).
    + destruct (isAnalyzing st) eqn:A.
      * injection H as <-. unfold exclusive. rewrite A.
        split; assumption.
      * destruct (analyzeAllVenues toLowerCase src p); [|discriminate].
        injection H as <-.
        assert (E : inFlight st = []).
        { destruct (inFlight st); [reflexivity|].
          assert (false = true) by (apply F; discriminate). discriminate. }
        unfold exclusive. simpl. rewrite E. simpl.
        split; [lia|]. split; [discriminate | reflexivity].
    + injection H as <-. split; assumption.
  - injection H as <-. unfold onSettled.
    destruct (inFlight st) as [|[sendResponse outcome] others] eqn:E.
    + simpl. unfold exclusive. rewrite E. split; assumption.
    + unfold exclusive. simpl. simpl in L.
      destruct others; [|simpl in L; lia].
      split; [simpl; lia|]. split; [discriminate | congruence].
Qed.

Lemma afterEvents_exclusive toLowerCase (src : ContentSource)
    (evs : list (event src)) :
  forall st st',
    exclusive st -> afterEvents toLowerCase st evs = Some st' ->
    exclusive st'.
Proof.
  induction evs as [|ev evs IH]; intros st st' E H; simpl in H.
  - injection H as <-. exact E.
  - destruct (afterEvent toLowerCase st ev) as [st1|] eqn:A;
      [|discriminate].
    apply (IH st1 st'); [|exact H].
    eapply afterEvent_exclusive; eassumption.
Qed.

Lemma idle_exclusive : exclusive idle.
Proof.
  unfold exclusive, idle. simpl.
  split; [lia|]. split; [discriminate | congruence].
Qed.

(** ** The reentrancy guard *)

(** C8, as the code has it: from the script as loaded (which is also the
    script whenever no run is in flight), after any requests and any
    settlements of runs, and no beforeunload, a request "analyzeVenues" that
    arrives while a run is in flight is answered at once with the error
    "Analysis already in progress - please wait" and no success field;
    nothing is queued and the script, with the run in flight, is as it
    was. *)
Theorem C8_request_during_a_run_is_rejected :
  forall (toLowerCase : jsstring -> jsstring) (src : ContentSource)
         (evs : list (event src)) (st : script) (sendResponse : nat)
         (p : page src),
    afterEvents toLowerCase idle evs = Some st ->
    inFlight st <> [] ->
    onMessage toLowerCase src st (js "analyzeVenues") sendResponse p
    = Some {| next := st;
              sent := [(sendResponse,
                        {| success := None;
                           error := Some (js "Analysis already in progress - please wait");
                           analysis := None |})];
              returned := true |}.
Proof.
  intros lc src evs st sendResponse p R F.
  destruct (afterEvents_exclusive lc evs idle_exclusive R) as [_ G].
  apply G in F. unfold onMessage.
  rewrite jsstring_eqb_refl, F. reflexivity.
Qed.

Lemma C8_witness :
  let src := Scenario.staticListing Scenario.threeRecords in
  let evs : list (event src) :=
    [@Request src (js "analyzeVenues") 1 tt;
     @Request src (js "analyzeVenues") 2 tt;
     @Request src (js "ping") 3 tt] in
  exists running,
    afterEvents JSString.toLowerCase idle evs = Some running
    /\ List.length (inFlight running) = 1
    /\ onMessage JSString.toLowerCase src running (js "analyzeVenues") 4 tt
       = Some {| next := running;
                 sent := [(4, {| success := None;
                                 error := Some (js "Analysis already in progress - please wait");
                                 analysis := None |})];
                 returned := true |}.
Proof.
  intros src evs.
  destruct (afterEvents JSString.toLowerCase idle evs) as [running|] eqn:R;
    [|vm_compute in R; discriminate R].
  exists running. split; [reflexivity|].
  assert (L : List.length (inFlight running) = 1).
  { vm_compute in R. injection R as <-. reflexivity. }
  split; [exact L|].
  apply (@C8_request_during_a_run_is_rejected JSString.toLowerCase src evs
           running 4 tt R).
  intros N. rewrite N in L. discriminate L.
Defined.

(** C8 as stated fails once beforeunload has run: with a run in flight, the
    listener of beforeunload clears the flag, and the next request is not
    rejected: it starts a second run beside the first. *)
Lemma C8_request_after_beforeunload_is_accepted :
  let src := Scenario.staticListing Scenario.threeRecords in
  exists running r,
    afterEvents JSString.toLowerCase idle
      [@Request src (js "analyzeVenues") 1 tt] = Some running
    /\ inFlight running <> []
    /\ inFlight (onBeforeUnload running) = inFlight running
    /\ onMessage JSString.toLowerCase src (onBeforeUnload running)
         (js "analyzeVenues") 2 tt = Some r
    /\ sent r = []
    /\ map fst (inFlight (next r)) = [1; 2].
Proof.
  intros src. eexists. eexists.
  split; [vm_compute; reflexivity|].
  split; [discriminate|].
  split; [reflexivity|].
  split; [vm_compute; reflexivity|].
  split; reflexivity.
Qed.

(** X1: from the script as loaded, whatever requests arrive and whenever
    the runs settle, the listener reacts to every event, at most one run is
    in flight, and the flag is set exactly while there is one. *)
Theorem X1_one_run_at_a_time :
  forall (toLowerCase : jsstring -> jsstring) (src : ContentSource)
         (evs : list (event src)),
  exists st,
    afterEvents toLowerCase idle evs = Some st /\ exclusive st.
Proof.
  intros lc src evs.
  assert (G : forall st, exclusive st ->
                exists st', afterEvents lc st evs = Some st' /\ exclusive st').
  { induction evs as [|ev evs IH]; intros st E; simpl.
    - eauto.
    - destruct (afterEvent lc st ev) as [st'|] eqn:A.
      + apply IH. eapply afterEvent_exclusive; eassumption.
      + exfalso. destruct ev as [action sendResponse p|]; simpl in A.
        * destruct (onMessage_reacts lc src st action sendResponse p)
            as [r Hr].
          rewrite Hr in A. discriminate.
        * discriminate. }
  apply G. unfold exclusive, idle. simpl.
  split; [lia|]. split; [discriminate | congruence].
Qed.

(** X2: a request "analyzeVenues" that finds the script idle sends nothing
    at once and sets the flag; when its run settles, exactly one response
    goes to its [sendResponse] (the data with success true, or the message
    of the error with success false) and the script is idle again, on the
    success path and on the failure path alike. *)
Theorem X2_accepted_request_is_answered_once :
  forall (toLowerCase : jsstring -> jsstring) (src : ContentSource)
         (sendResponse : nat) (p : page src),
  exists outcome r,
    analyzeAllVenues toLowerCase src p = Some outcome
    /\ onMessage toLowerCase src idle (js "analyzeVenues") sendResponse p
       = Some r
    /\ sent r = [] /\ returned r = true /\ isAnalyzing (next r) = true
    /\ onSettled (next r)
       = {| next := idle;
            sent := [(sendResponse, responseOf outcome)];
            returned := false |}.
Proof.
  intros lc src sendResponse p.
  destruct (analyzeAllVenues_settles lc src p) as [outcome E].
  exists outcome. eexists. split; [exact E|].
  unfold onMessage. rewrite jsstring_eqb_refl, E. simpl.
  split; [reflexivity|].
  split; [reflexivity|]. split; [reflexivity|]. split; [reflexivity|].
  unfold onSettled. simpl. destruct outcome; reflexivity.
Qed.

(** X3: after the listener of beforeunload has run, a request is accepted,
    not refused as a duplicate, whatever the script was doing. *)
Theorem X3_unload_clears_the_guard :
  forall (toLowerCase : jsstring -> jsstring) (src : ContentSource)
         (st : script) (sendResponse : nat) (p : page src),
  exists r,
    onMessage toLowerCase src (onBeforeUnload st) (js "analyzeVenues")
      sendResponse p = Some r
    /\ sent r = [] /\ isAnalyzing (next r) = true
    /\ exists outcome,
         inFlight (next r) = inFlight st ++ [(sendResponse, outcome)].
Proof.
  intros lc src st sendResponse p.
  destruct (analyzeAllVenues_settles lc src p) as [outcome E].
  eexists. unfold onMessage, onBeforeUnload.
  rewrite jsstring_eqb_refl. simpl. rewrite E.
  split; [reflexivity|]. simpl.
  split; [reflexivity|]. split; [reflexivity|]. eauto.
Qed.

(** ** The orchestrator *)

(** X4: on a page that is not a profile listing the run fails with the
    message about the page, and on a profile listing without rows with the
    message about publications; this holds for every content source, so
    before anything of the loader is used. *)
Theorem X4_preconditions_fail_before_loading :
  forall (toLowerCase : jsstring -> jsstring) (src : ContentSource)
         (p : page src),
    (isValidScholarProfilePage src p = false ->
     analyzeAllVenues toLowerCase src p = Some (Throw notAProfile))
    /\ (isValidScholarProfilePage src p = true -> countRows src p = 0 ->
        analyzeAllVenues toLowerCase src p = Some (Throw noPublications)).
Proof.
  intros lc src p. unfold analyzeAllVenues. split.
  - intros ->. reflexivity.
  - intros -> ->. reflexivity.
Qed.

Lemma X4_witness :
  let src := Scenario.brokenDiscovery [] in
  isValidScholarProfilePage src tt = true
  /\ countRows src tt = 0
  /\ analyzeAllVenues JSString.toLowerCase src tt
     = Some (Throw noPublications).
Proof.
  intros src.
  assert (V : isValidScholarProfilePage src tt = true)
    by (vm_compute; reflexivity).
  assert (Z : countRows src tt = 0) by reflexivity.
  split; [exact V|]. split; [exact Z|].
  exact (proj2 (X4_preconditions_fail_before_loading JSString.toLowerCase
                  src tt) V Z).
Defined.

(** X5: a run fails with one of three messages of its own (not a profile,
    no publications, no venues extracted) or with what the search for the
    button threw; nothing else is ever thrown. *)
Theorem X5_errors_of_a_run :
  forall (toLowerCase : jsstring -> jsstring) (src : ContentSource)
         (p : page src) (e : jsstring),
    analyzeAllVenues toLowerCase src p = Some (Throw e) ->
    e = notAProfile \/ e = noPublications \/ e = noVenues
    \/ exists q, findShowMoreButtonSync src q = Throw e.
Proof.
  intros lc src p e. unfold analyzeAllVenues.
  destruct (negb _); [intros [= <-]; auto|].
  destruct (countRows src p =? 0); [intros [= <-]; auto|].
  destruct (loadAllPublications_terminates src p) as ([l|e'] & -> & H).
  - unfold analyzeLoaded. destruct (_ =? 0); [|discriminate].
    intros [= <-]. auto.
  - intros [= <-]. auto.
Qed.

Lemma X5_witness :
  let src := Scenario.staticListing [Scenario.row (js "of")] in
  analyzeAllVenues JSString.toLowerCase src tt = Some (Throw noVenues)
  /\ (noVenues = notAProfile \/ noVenues = noPublications
      \/ noVenues = noVenues
      \/ exists q, findShowMoreButtonSync src q = Throw noVenues).
Proof.
  intros src.
  assert (E : analyzeAllVenues JSString.toLowerCase src tt
              = Some (Throw noVenues)) by (vm_compute; reflexivity).
  split; [exact E|].
  exact (X5_errors_of_a_run JSString.toLowerCase src tt E).
Defined.

(** X6: the data of a successful run come from the page that the loader
    left: the venue list is the one extracted from its rows and is not
    empty, totalFound is the number of its rows, and every row is counted
    once, as processed or as skipped. *)
Theorem X6_success_reports_the_loaded_page :
  forall (toLowerCase : jsstring -> jsstring) (src : ContentSource)
         (p : page src) (d : analysisData),
    analyzeAllVenues toLowerCase src p = Some (Ok d) ->
    exists l,
      loadAllPublications src p = Some (Ok l)
      /\ data_venues d
         = venues (extractVenueData toLowerCase (rows src (pageAfter l)))
      /\ data_venues d <> []
      /\ totalFound d = List.length (rows src (pageAfter l))
      /\ totalProcessed d + totalSkipped d = totalFound d.
Proof.
  intros lc src p d H.
  pose proof (analyzeAllVenues_counts lc src p H) as C.
  revert H. unfold analyzeAllVenues.
  destruct (negb _); [discriminate|].
  destruct (countRows src p =? 0); [discriminate|].
  destruct (loadAllPublications src p) as [[l|e]|]; try discriminate.
  unfold analyzeLoaded.
  destruct (List.length _ =? 0) eqn:Z; [discriminate|].
  intros [= <-]. exists l. simpl in *.
  split; [reflexivity|]. split; [reflexivity|].
  split; [|split; [reflexivity | exact C]].
  intros E. rewrite E in Z. discriminate.
Qed.

Lemma X6_witness :
  let src := Scenario.staticListing Scenario.threeRecords in
  exists d,
    analyzeAllVenues JSString.toLowerCase src tt = Some (Ok d)
    /\ data_venues d <> [] /\ totalFound d = 3
    /\ totalProcessed d + totalSkipped d = totalFound d.
Proof.
  intros src.
  destruct (analyzeAllVenues JSString.toLowerCase src tt) as [[d|e]|] eqn:E;
    try (vm_compute in E; discriminate E).
  exists d. split; [reflexivity|].
  destruct (X6_success_reports_the_loaded_page JSString.toLowerCase src tt E)
    as (l & L & _ & N & F & C).
  split; [exact N|]. split; [|exact C].
  rewrite F. reflexivity.
Defined.

(** ** The page test *)

Lemma startsWith_prefix (p s : jsstring) :
  JSString.startsWith p s = true <-> exists post, s = p ++ post.
Proof.
  revert s. induction p as [|a p IH]; intros s; simpl.
  - split; [intros _; exists s; reflexivity | reflexivity].
  - destruct s as [|b s].
    + split; [discriminate | intros [post H]; discriminate H].
    + rewrite andb_true_iff, N.eqb_eq, IH. split.
      * intros [-> [post ->]]. exists post. reflexivity.
      * intros [post [= -> ->]]. split; [reflexivity | exists post; reflexivity].
Qed.

(** [includes] says whether the text occurs in the string. *)
Lemma includes_contains (s p : jsstring) :
  JSString.includes s p = true <-> contains p s.
Proof.
  unfold contains. induction s as [|c s IH]; simpl.
  - rewrite orb_false_r, startsWith_prefix. split.
    + intros [post H]. exists [], post. exact H.
    + intros (pre & post & H). destruct pre as [|x pre]; [|discriminate H].
      exists post. exact H.
  - rewrite orb_true_iff, startsWith_prefix, IH. split.
    + intros [[post H]|(pre & post & H)].
      * exists [], post. exact H.
      * exists (c :: pre), post. simpl. rewrite H. reflexivity.
    + intros (pre & post & H). destruct pre as [|x pre].
      * left. exists post. exact H.
      * right. injection H as -> H. exists pre, post. exact H.
Qed.

(** X7: a page passes [isValidScholarProfilePage] only if its address
    contains "scholar.google.", "/citations?" and "user=" and does not
    contain "view_op=view_citation"; so the view of a single article is
    never analysed. *)
Theorem X7_valid_page_address :
  forall (src : ContentSource) (p : page src),
    isValidScholarProfilePage src p = true ->
    contains (js "scholar.google.") (href src p)
    /\ contains (js "/citations?") (href src p)
    /\ contains (js "user=") (href src p)
    /\ ~ contains (js "view_op=view_citation") (href src p).
Proof.
  intros src p. unfold isValidScholarProfilePage.
  destruct (JSString.includes (href src p) (js "scholar.google.")) eqn:A;
    [|discriminate].
  destruct (JSString.includes (href src p) (js "/citations?")) eqn:B;
    [|discriminate].
  destruct (JSString.includes (href src p) (js "view_op=view_citation"))
    eqn:C; [discriminate|].
  simpl. intros H. apply andb_true_iff in H. destruct H as [D _].
  apply includes_contains in A, B, D.
  repeat split; try assumption.
  intros N. apply includes_contains in N. congruence.
Qed.

Lemma X7_witness :
  let src := Scenario.staticListing [] in
  isValidScholarProfilePage src tt = true
  /\ contains (js "scholar.google.") (href src tt)
  /\ contains (js "/citations?") (href src tt)
  /\ contains (js "user=") (href src tt)
  /\ ~ contains (js "view_op=view_citation") (href src tt).
Proof.
  intros src.
  assert (V : isValidScholarProfilePage src tt = true)
    by (vm_compute; reflexivity).
  split; [exact V|]. exact (@X7_valid_page_address src tt V).
Defined.

(** ** More on the incremental loader *)

Lemma checkForNewPublications_count (src : ContentSource) :
  forall budget previousCount timeout elapsed checks failures p w,
    checkForNewPublications src budget previousCount timeout elapsed checks
      failures p = Some w ->
    currentCount w = countRows src (pageNow w).
Proof.
  induction budget as [|budget IH];
    intros previousCount timeout elapsed checks failures p w H; simpl in H.
  - discriminate.
  - destruct (previousCount <? countRows src p).
    { injection H as <-. reflexivity. }
    destruct (timeout <? elapsed)%N.
    { injection H as <-. reflexivity. }
    destruct (elapse src (progressiveDelay (S failures)) p) as [p' late].
    apply IH in H. exact H.
Qed.

(** X8: with the timeout of ten seconds that the loader passes, a wait
    always resolves, after 31 checks at most, and with the number of rows of
    the page at that moment; when the rows already exceed the previous count
    it resolves at the first check, without waiting. *)
Theorem X8_wait_resolves_within_31_checks :
  forall (src : ContentSource) (previousCount : nat) (p : page src),
  exists w,
    waitForNewPublicationsOptimized src previousCount 10000 p = Some w
    /\ checkCount w <= 31
    /\ currentCount w = countRows src (pageNow w)
    /\ (previousCount < countRows src p ->
        checkCount w = 1 /\ pageNow w = p).
Proof.
  intros src previousCount p.
  destruct (waitForNewPublicationsOptimized_resolves src previousCount 10000 p)
    as [w H].
  exists w. split; [exact H|].
  split;
    [exact (@waitForNewPublicationsOptimized_checks src previousCount p w H)|].
  split.
  - unfold waitForNewPublicationsOptimized in H.
    eapply checkForNewPublications_count. exact H.
  - intros G. unfold waitForNewPublicationsOptimized in H.
    cbn [checkForNewPublications] in H.
    apply Nat.ltb_lt in G. rewrite G in H. injection H as <-. auto.
Qed.

Lemma X8_witness :
  exists w,
    waitForNewPublicationsOptimized (Scenario.paged 3) 10 10000 (1, false)
    = Some w
    /\ 10 < countRows (Scenario.paged 3) (1, false)
    /\ checkCount w = 1 /\ pageNow w = (1, false).
Proof.
  destruct (X8_wait_resolves_within_31_checks (Scenario.paged 3) 10 (1, false))
    as (w & H & _ & _ & F).
  assert (G : 10 < countRows (Scenario.paged 3) (1, false))
    by (vm_compute; lia).
  exists w. split; [exact H|]. split; [exact G|]. exact (F G).
Defined.





(** X10: when no button is found the listing counts as fully loaded: the
    loader clicks nothing and returns the number of rows of the page as it
    is, after no iteration; only the final delay of half a second passes. *)
Theorem X10_no_button_means_loaded :
  forall (src : ContentSource) (p : page src),
    findShowMoreButtonSync src p = Ok None ->
    exists l,
      loadAllPublications src p = Some (Ok l)
      /\ finalCount l = countRows src p
      /\ attemptsUsed l = 0 /\ exitReason l = NoButton
      /\ pageCounted l = p
      /\ pageAfter l = fst (elapse src 500 p).
Proof.
  intros src p H. unfold loadAllPublications.
  change maxAttempts with (S 199). rewrite paginate_step, H. simpl.
  destruct (elapse src 500 p) as [p' late].
  eexists. split; [reflexivity|]. simpl. auto 10.
Qed.

Lemma X10_witness :
  let src := Scenario.staticListing Scenario.threeRecords in
  findShowMoreButtonSync src tt = Ok None
  /\ exists l,
       loadAllPublications src tt = Some (Ok l)
       /\ finalCount l = countRows src tt
       /\ attemptsUsed l = 0 /\ exitReason l = NoButton
       /\ pageCounted l = tt
       /\ pageAfter l = fst (elapse src 500 tt).
Proof.
  intros src.
  assert (H : findShowMoreButtonSync src tt = Ok None) by reflexivity.
  split; [exact H|]. exact (@X10_no_button_means_loaded src tt H).
Defined.

(** ** What the venue list holds *)

Lemma jsstring_eqb_neq (a b : jsstring) : jsstring_eqb a b = false <-> a <> b.
Proof.
  unfold jsstring_eqb. destruct (list_eq_dec N.eq_dec a b); split;
    congruence.
Qed.

Lemma visitText_label toLowerCase (pub : publication)
    (o : JSObject.object) (n m : nat) :
  visitText toLowerCase (o, n, m) (venueElement pub)
  = match labelOf toLowerCase pub with
    | Some k => (countLabel o k, S n, m)
    | None => (o, n, S m)
    end.
Proof.
  unfold labelOf, visitText, countLabel.
  destruct (venueElement pub) as [t|]; [|reflexivity].
  destruct (normalizeVenue toLowerCase (JSString.trim t)) as [[|c l]|];
    reflexivity.
Qed.

Lemma fold_visit_labels toLowerCase (pubs : list publication) :
  forall o n m,
    fold_left (visit toLowerCase) pubs (o, n, m)
    = (fold_left countLabel (labelsOf toLowerCase pubs) o,
       n + List.length (labelsOf toLowerCase pubs),
       m + (List.length pubs - List.length (labelsOf toLowerCase pubs))).
Proof.
  assert (L : forall pubs, List.length (labelsOf toLowerCase pubs)
                           <= List.length pubs).
  { induction pubs0 as [|pub pubs0 IH]; simpl; [lia|].
    rewrite length_app. destruct (labelOf toLowerCase pub); simpl; lia. }
  induction pubs as [|pub pubs IH]; intros o n m.
  - simpl. apply (f_equal2 pair);
      [apply (f_equal2 pair); [reflexivity | lia] | lia].
  - change (fold_left (visit toLowerCase) (pub :: pubs) (o, n, m))
      with (fold_left (visit toLowerCase) pubs
              (visitText toLowerCase (o, n, m) (venueElement pub))).
    change (labelsOf toLowerCase (pub :: pubs))
      with ((match labelOf toLowerCase pub with
             | Some l => [l]
             | None => []
             end) ++ labelsOf toLowerCase pubs).
    rewrite visitText_label.
    pose proof (L pubs) as Lp.
    destruct (labelOf toLowerCase pub) as [k|]; rewrite IH;
      cbn [app List.length fold_left];
      (apply (f_equal2 pair);
       [apply (f_equal2 pair); [reflexivity | lia] | lia]).
Qed.

Lemma extractVenueData_labels toLowerCase (pubs : list publication) :
  extractVenueData toLowerCase pubs
  = {| venues := JSArray.sort byCountDescending
                   (JSObject.entries
                      (fold_left countLabel (labelsOf toLowerCase pubs)
                         JSObject.empty));
       processedCount := List.length (labelsOf toLowerCase pubs);
       skippedCount := List.length pubs
                       - List.length (labelsOf toLowerCase pubs) |}.
Proof.
  unfold extractVenueData. rewrite fold_visit_labels. reflexivity.
Qed.

Lemma labelled_or_not toLowerCase (pubs : list publication) :
  List.length (labelsOf toLowerCase pubs)
  + List.length (filter (fun pub => match labelOf toLowerCase pub with
                                    | Some _ => false
                                    | None => true
                                    end) pubs)
  = List.length pubs.
Proof.
  induction pubs as [|pub pubs IH]; [reflexivity|].
  change (labelsOf toLowerCase (pub :: pubs))
    with ((match labelOf toLowerCase pub with
           | Some l => [l]
           | None => []
           end) ++ labelsOf toLowerCase pubs).
  cbn [filter]. destruct (labelOf toLowerCase pub);
    cbn [app List.length]; lia.
Qed.

(** X11: a record is processed exactly when its venue element exists and
    its trimmed text has a label that is not null; every other record is
    skipped. *)
Theorem X11_processed_are_the_labelled_records :
  forall (toLowerCase : jsstring -> jsstring) (pubs : list publication),
    processedCount (extractVenueData toLowerCase pubs)
    = List.length (labelsOf toLowerCase pubs)
    /\ skippedCount (extractVenueData toLowerCase pubs)
       = List.length
           (filter (fun pub => match labelOf toLowerCase pub with
                               | Some _ => false
                               | None => true
                               end) pubs).
Proof.
  intros lc pubs. rewrite extractVenueData_labels.
  cbn [processedCount skippedCount].
  pose proof (labelled_or_not lc pubs). split; [reflexivity | lia].
Qed.

Lemma getOwn_none (o : JSObject.object) (k : jsstring) :
  JSObject.getOwn o k = None <-> ~ In k (map fst o).
Proof.
  induction o as [|[k' v'] o IH]; simpl.
  - tauto.
  - destruct (jsstring_eqb k' k) eqn:E.
    + apply jsstring_eqb_eq in E. split; [discriminate | tauto].
    + apply jsstring_eqb_neq in E. rewrite IH. tauto.
Qed.

Lemma getOwn_In (o : JSObject.object) (k : jsstring) (v : value) :
  NoDup (map fst o) -> (In (k, v) o <-> JSObject.getOwn o k = Some v).
Proof.
  induction o as [|[k' v'] o IH]; simpl; intros N.
  - split; [tauto | discriminate].
  - inversion N as [|? ? Hn N']; subst.
    destruct (jsstring_eqb k' k) eqn:E.
    + apply jsstring_eqb_eq in E. subst k'. split.
      * intros [[= ->]|I]; [reflexivity|].
        exfalso. apply Hn. apply in_map_iff. exists (k, v). auto.
      * intros [= ->]. auto.
    + apply jsstring_eqb_neq in E. rewrite <- (IH N'). split.
      * intros [[= -> ->]|I]; [congruence | exact I].
      * auto.
Qed.

Lemma getOwn_update (o : JSObject.object) (k k' : jsstring) (v : value) :
  JSObject.getOwn o k <> None ->
  JSObject.getOwn (JSObject.update o k v) k'
  = if jsstring_eqb k k' then Some v else JSObject.getOwn o k'.
Proof.
  induction o as [|[k0 v0] o IH]; simpl; intros H; [congruence|].
  destruct (jsstring_eqb k0 k) eqn:E; simpl.
  - apply jsstring_eqb_eq in E. subst k0.
    destruct (jsstring_eqb k k'); reflexivity.
  - destruct (jsstring_eqb k0 k') eqn:E'.
    + apply jsstring_eqb_eq in E'. subst k0.
      destruct (jsstring_eqb k k') eqn:E2; [|reflexivity].
      apply jsstring_eqb_eq in E2. subst k'.
      rewrite jsstring_eqb_refl in E. discriminate E.
    + apply IH. exact H.
Qed.

Lemma update_keys (o : JSObject.object) (k : jsstring) (v : value) :
  map fst (JSObject.update o k v) = map fst o.
Proof.
  induction o as [|[k0 v0] o IH]; simpl; [reflexivity|].
  destruct (jsstring_eqb k0 k); simpl; [reflexivity | rewrite IH; reflexivity].
Qed.

Lemma getOwn_app (o : JSObject.object) (k k' : jsstring) (v : value) :
  JSObject.getOwn (o ++ [(k, v)]) k'
  = match JSObject.getOwn o k' with
    | Some w => Some w
    | None => if jsstring_eqb k k' then Some v else None
    end.
Proof.
  induction o as [|[k0 v0] o IH]; simpl; [reflexivity|].
  destruct (jsstring_eqb k0 k'); [reflexivity | exact IH].
Qed.

Lemma occurrences_app (k k' : jsstring) (labels : list jsstring) :
  occurrences k' (labels ++ [k])
  = occurrences k' labels + (if jsstring_eqb k k' then 1 else 0).
Proof.
  unfold occurrences. rewrite count_occ_app. simpl.
  destruct (list_eq_dec N.eq_dec k k') as [->|N].
  - rewrite jsstring_eqb_refl. reflexivity.
  - apply jsstring_eqb_neq in N. rewrite N. reflexivity.
Qed.

Lemma NoDup_snoc (A : Type) (l : list A) (x : A) :
  NoDup l -> ~ In x l -> NoDup (l ++ [x]).
Proof.
  induction 1 as [|y l Hy N IH]; simpl; intros H.
  - constructor; [tauto | constructor].
  - constructor.
    + rewrite in_app_iff. simpl. intros [I|[E|[]]]; [tauto|].
      subst. tauto.
    + apply IH. tauto.
Qed.

Lemma countLabel_tallies (o : JSObject.object) (labels : list jsstring)
    (k : jsstring) :
  JSObject.inherited k = Undefined ->
  tallies o labels -> tallies (countLabel o k) (labels ++ [k]).
Proof.
  intros Hk [N T]. unfold countLabel, JSObject.set, JSObject.get.
  pose proof (T k) as Tk.
  destruct (occurrences k labels =? 0) eqn:Z.
  - rewrite Tk, Hk, (inherited_proto k Hk).
    change (add (or Undefined (Number 0)) (Number 1)) with (Number 1).
    cbn [andb]. split.
    + rewrite map_app. simpl. apply NoDup_snoc.
      * exact N.
      * apply getOwn_none. exact Tk.
    + intros k'. rewrite getOwn_app, occurrences_app, (T k').
      apply Nat.eqb_eq in Z.
      destruct (jsstring_eqb k k') eqn:E.
      * apply jsstring_eqb_eq in E. subst k'. rewrite Z. reflexivity.
      * rewrite Nat.add_0_r. destruct (occurrences k' labels =? 0);
          reflexivity.
  - rewrite Tk.
    assert (E : add (or (Number (occurrences k labels)) (Number 0)) (Number 1)
                = Number (S (occurrences k labels))).
    { apply Nat.eqb_neq in Z. destruct (occurrences k labels) as [|n];
        [congruence|]. unfold or, add. simpl. f_equal. lia. }
    rewrite E. split.
    + rewrite update_keys. exact N.
    + intros k'. rewrite getOwn_update by (rewrite Tk; discriminate).
      rewrite occurrences_app, (T k').
      destruct (jsstring_eqb k k') eqn:E'.
      * apply jsstring_eqb_eq in E'. subst k'.
        replace (occurrences k labels + 1 =? 0) with false
          by (symmetry; apply Nat.eqb_neq; lia).
        f_equal. f_equal. lia.
      * rewrite Nat.add_0_r. reflexivity.
Qed.

Lemma fold_countLabel_tallies (labels : list jsstring) :
  forall o seen,
    plainLabels labels -> tallies o seen ->
    tallies (fold_left countLabel labels o) (seen ++ labels).
Proof.
  induction labels as [|k labels IH]; intros o seen P T; simpl.
  - rewrite app_nil_r. exact T.
  - inversion P as [|? ? Hk P']; subst.
    replace (seen ++ k :: labels) with ((seen ++ [k]) ++ labels)
      by (rewrite <- app_assoc; reflexivity).
    apply IH; [exact P'|]. apply countLabel_tallies; assumption.
Qed.

Lemma tallies_empty : tallies JSObject.empty [].
Proof.
  split; [constructor|]. intros k. reflexivity.
Qed.

Lemma venues_permutation toLowerCase (pubs : list publication) :
  Permutation (venues (extractVenueData toLowerCase pubs))
    (fold_left countLabel (labelsOf toLowerCase pubs) JSObject.empty).
Proof.
  rewrite extractVenueData_labels. simpl.
  rewrite sort_permutation. apply entries_permutation.
Qed.

Lemma venues_tallied :
  forall (toLowerCase : jsstring -> jsstring) (pubs : list publication),
    plainLabels (labelsOf toLowerCase pubs) ->
    forall (k : jsstring) (v : value),
      In (k, v) (venues (extractVenueData toLowerCase pubs))
      <-> 0 < occurrences k (labelsOf toLowerCase pubs)
          /\ v = Number (occurrences k (labelsOf toLowerCase pubs)).
Proof.
  intros lc pubs P k v.
  pose proof (fold_countLabel_tallies (o := JSObject.empty) (seen := [])
                P tallies_empty) as [N T].
  simpl in N, T.
  pose proof (venues_permutation lc pubs) as Perm.
  split.
  - intros I. apply (Permutation_in _ Perm) in I.
    apply (@getOwn_In _ k v N) in I. rewrite T in I.
    destruct (occurrences k (labelsOf lc pubs) =? 0) eqn:Z;
      [discriminate|].
    apply Nat.eqb_neq in Z. injection I as <-. split; [lia | reflexivity].
  - intros [Z ->]. apply (Permutation_in _ (Permutation_sym Perm)).
    apply (@getOwn_In _ k _ N). rewrite T.
    replace (occurrences k (labelsOf lc pubs) =? 0) with false
      by (symmetry; apply Nat.eqb_neq; lia).
    reflexivity.
Qed.

Lemma mixedRecords_plain :
  plainLabels (labelsOf JSString.toLowerCase Scenario.mixedRecords).
Proof. vm_compute. repeat constructor. Qed.

(** X12: when no label is the name of a property inherited from
    %Object.prototype%, the venue list holds exactly the labels that occur,
    each with the number of the records that have it. *)
Theorem X12_each_label_with_its_number_of_records :
  forall (toLowerCase : jsstring -> jsstring) (pubs : list publication),
    plainLabels (labelsOf toLowerCase pubs) ->
    forall (k : jsstring) (v : value),
      In (k, v) (venues (extractVenueData toLowerCase pubs))
      <-> 0 < occurrences k (labelsOf toLowerCase pubs)
          /\ v = Number (occurrences k (labelsOf toLowerCase pubs)).
Proof. exact venues_tallied. Qed.

Lemma X12_witness :
  plainLabels (labelsOf JSString.toLowerCase Scenario.mixedRecords)
  /\ occurrences (js "arXiv")
       (labelsOf JSString.toLowerCase Scenario.mixedRecords) = 3
  /\ In (js "arXiv", Number 3)
       (venues (extractVenueData JSString.toLowerCase Scenario.mixedRecords)).
Proof.
  split; [exact mixedRecords_plain|]. split; [reflexivity|].
  apply (proj2 (@X12_each_label_with_its_number_of_records
                  JSString.toLowerCase Scenario.mixedRecords
                  mixedRecords_plain (js "arXiv") (Number 3))).
  split; [vm_compute; lia | reflexivity].
Defined.

(** *** Order and shape of the venue list *)

Lemma after_numeric (x y : jsstring * value) (a b : nat) :
  snd x = Number a -> snd y = Number b ->
  JSArray.after byCountDescending x y = (a <? b).
Proof.
  intros Hx Hy. unfold JSArray.after, byCountDescending, sub.
  rewrite Hx, Hy. simpl.
  destruct (a <? b) eqn:E.
  - apply Nat.ltb_lt in E. apply Z.ltb_lt. lia.
  - apply Nat.ltb_ge in E. apply Z.ltb_ge. lia.
Qed.

Lemma insert_hd (x y : jsstring * value) (l : list (jsstring * value)) :
  countDescending y x -> HdRel countDescending y l ->
  HdRel countDescending y (JSArray.insert byCountDescending x l).
Proof.
  intros Hx Hl. destruct l as [|z l]; simpl.
  - constructor. exact Hx.
  - destruct (JSArray.after byCountDescending x z); constructor.
    + inversion Hl; assumption.
    + exact Hx.
Qed.

Lemma insert_sorted (x : jsstring * value) (l : list (jsstring * value)) :
  numeric (x :: l) -> Sorted countDescending l ->
  Sorted countDescending (JSArray.insert byCountDescending x l).
Proof.
  intros Hn. inversion Hn as [|? ? [a Ha] Hl]; subst.
  induction 1 as [|y l Sl IH Hd]; simpl.
  - repeat constructor.
  - inversion Hl as [|? ? [b Hb] Hl']; subst.
    rewrite (after_numeric x y Ha Hb).
    destruct (a <? b) eqn:E.
    + apply Nat.ltb_lt in E. constructor.
      * apply IH; [constructor; eauto | exact Hl'].
      * apply insert_hd; [|exact Hd].
        unfold countDescending. rewrite Ha, Hb. simpl. lia.
    + apply Nat.ltb_ge in E. constructor.
      * constructor; assumption.
      * constructor. unfold countDescending. rewrite Ha, Hb. simpl. lia.
Qed.

Lemma sort_sorted (l : list (jsstring * value)) :
  numeric l -> Sorted countDescending (JSArray.sort byCountDescending l).
Proof.
  induction l as [|x l IH]; intros Hn; simpl.
  - constructor.
  - inversion Hn as [|? ? Hx Hl]; subst. apply insert_sorted.
    + constructor; [exact Hx|].
      unfold numeric.
      apply (Permutation_Forall
               (Permutation_sym (sort_permutation byCountDescending l))).
      exact Hl.
    + apply IH. exact Hl.
Qed.

Lemma tallies_numeric (o : JSObject.object) (labels : list jsstring) :
  tallies o labels -> numeric o.
Proof.
  intros [N T]. unfold numeric. apply Forall_forall. intros [k v] I.
  apply (@getOwn_In o k v N) in I. rewrite T in I.
  destruct (_ =? 0); [discriminate|]. injection I as <-. simpl. eauto.
Qed.

Lemma labelsOf_In toLowerCase (pubs : list publication)
    (pub : publication) (l : jsstring) :
  In pub pubs -> labelOf toLowerCase pub = Some l ->
  In l (labelsOf toLowerCase pubs).
Proof.
  intros I H. unfold labelsOf. apply in_flat_map. exists pub.
  split; [exact I|]. rewrite H. left. reflexivity.
Qed.

(** X13: under the same condition the venue list names every label once,
    is ordered by count from the largest down, and every count is a
    positive integer. *)
Theorem X13_venue_list_is_sorted_and_distinct :
  forall (toLowerCase : jsstring -> jsstring) (pubs : list publication),
    plainLabels (labelsOf toLowerCase pubs) ->
    let list := venues (extractVenueData toLowerCase pubs) in
    NoDup (map fst list)
    /\ StronglySorted countDescending list
    /\ Forall (fun item => exists n, snd item = Number n /\ 0 < n) list.
Proof.
  intros lc pubs P list.
  pose proof (fold_countLabel_tallies (o := JSObject.empty) (seen := [])
                P tallies_empty) as T.
  simpl in T.
  pose proof (venues_permutation lc pubs) as Perm. fold list in Perm.
  split; [|split].
  - destruct T as [N _].
    apply (Permutation_NoDup
             (Permutation_map fst (Permutation_sym Perm))). exact N.
  - apply Sorted_StronglySorted.
    + intros a b c. unfold countDescending. lia.
    + unfold list. rewrite extractVenueData_labels. simpl.
      apply sort_sorted. unfold numeric.
      apply (Permutation_Forall
               (Permutation_sym (entries_permutation _))).
      exact (tallies_numeric T).
  - apply Forall_forall. intros [k v] I.
    apply (venues_tallied lc pubs P) in I. destruct I as [Z ->].
    simpl. eauto.
Qed.

Lemma X13_witness :
  plainLabels (labelsOf JSString.toLowerCase Scenario.mixedRecords)
  /\ venues (extractVenueData JSString.toLowerCase Scenario.mixedRecords)
     = [(js "arXiv", Number 3); (js "NeurIPS", Number 1)]
  /\ StronglySorted countDescending
       (venues (extractVenueData JSString.toLowerCase Scenario.mixedRecords)).
Proof.
  split; [exact mixedRecords_plain|]. split; [vm_compute; reflexivity|].
  exact (proj1 (proj2 (@X13_venue_list_is_sorted_and_distinct
                         JSString.toLowerCase Scenario.mixedRecords
                         mixedRecords_plain))).
Defined.

(** X14: under the same condition the counts of the venue list add up to
    the number of processed records, which is what the cross-check of
    [analyzeAllVenues] computes. *)
Theorem X14_counts_add_up_to_processed :
  forall (toLowerCase : jsstring -> jsstring) (pubs : list publication),
    plainLabels (labelsOf toLowerCase pubs) ->
    totalPubsFromVenues (venues (extractVenueData toLowerCase pubs))
    = Number (processedCount (extractVenueData toLowerCase pubs)).
Proof.
  intros lc pubs P. apply extractVenueData_sum.
  intros pub t l I Ht Hl. destruct l as [|c l]; [reflexivity|].
  unfold plainLabels in P. rewrite Forall_forall in P. apply P.
  apply (labelsOf_In lc pubs pub I). unfold labelOf. rewrite Ht, Hl.
  reflexivity.
Qed.

Lemma X14_witness :
  plainLabels (labelsOf JSString.toLowerCase Scenario.mixedRecords)
  /\ totalPubsFromVenues
       (venues (extractVenueData JSString.toLowerCase Scenario.mixedRecords))
     = Number 4
  /\ processedCount
       (extractVenueData JSString.toLowerCase Scenario.mixedRecords) = 4.
Proof.
  split; [exact mixedRecords_plain|].
  pose proof (@X14_counts_add_up_to_processed JSString.toLowerCase
                Scenario.mixedRecords mixedRecords_plain) as H.
  assert (E : processedCount
                (extractVenueData JSString.toLowerCase Scenario.mixedRecords)
              = 4) by (vm_compute; reflexivity).
  rewrite E in H. split; [exact H | exact E].
Defined.

(** ** Labels and the workshop flag *)

(** As [each_rule], once the flag is known. *)
Ltac each_rule_closed :=
  first
    [ apply none_elim
    | apply when_elim; [vm_compute; reflexivity | each_rule_closed]
    | apply some_elim; vm_compute; reflexivity
    | apply if_elim; each_rule_closed ].

Ltac group_flag g :=
  intros lowerVenue isWorkshop; destruct isWorkshop; unfold g;
  each_rule_closed.

Lemma computerVisionConferences_flag : forall lowerVenue isWorkshop l,
  computerVisionConferences lowerVenue isWorkshop = Some l ->
  agreesWithFlag isWorkshop l = true.
Proof. group_flag computerVisionConferences. Qed.

Lemma machineLearningConferences_flag : forall lowerVenue isWorkshop l,
  machineLearningConferences lowerVenue isWorkshop = Some l ->
  agreesWithFlag isWorkshop l = true.
Proof. group_flag machineLearningConferences. Qed.

Lemma aiConferences_flag : forall lowerVenue isWorkshop l,
  aiConferences lowerVenue isWorkshop = Some l ->
  agreesWithFlag isWorkshop l = true.
Proof. group_flag aiConferences. Qed.

Lemma nlpConferences_flag : forall lowerVenue isWorkshop l,
  nlpConferences lowerVenue isWorkshop = Some l ->
  agreesWithFlag isWorkshop l = true.
Proof. group_flag nlpConferences. Qed.

Lemma dataMiningAndWebConferences_flag : forall lowerVenue isWorkshop l,
  dataMiningAndWebConferences lowerVenue isWorkshop = Some l ->
  agreesWithFlag isWorkshop l = true.
Proof. group_flag dataMiningAndWebConferences. Qed.

Lemma roboticsConferences_flag : forall lowerVenue isWorkshop l,
  roboticsConferences lowerVenue isWorkshop = Some l ->
  agreesWithFlag isWorkshop l = true.
Proof. group_flag roboticsConferences. Qed.

Lemma signalProcessingConferences_flag : forall lowerVenue isWorkshop l,
  signalProcessingConferences lowerVenue isWorkshop = Some l ->
  agreesWithFlag isWorkshop l = true.
Proof. group_flag signalProcessingConferences. Qed.

Lemma medicalImagingConferences_flag : forall lowerVenue isWorkshop l,
  medicalImagingConferences lowerVenue isWorkshop = Some l ->
  agreesWithFlag isWorkshop l = true.
Proof. group_flag medicalImagingConferences. Qed.

Lemma graphicsAndVisualization_flag : forall lowerVenue isWorkshop l,
  graphicsAndVisualization lowerVenue isWorkshop = Some l ->
  agreesWithFlag isWorkshop l = true.
Proof. group_flag graphicsAndVisualization. Qed.

Lemma ieeeTransactions_flag : forall lowerVenue isWorkshop l,
  ieeeTransactions lowerVenue isWorkshop = Some l ->
  agreesWithFlag isWorkshop l = true.
Proof. group_flag ieeeTransactions. Qed.

Lemma otherMajorJournals_flag : forall lowerVenue isWorkshop l,
  otherMajorJournals lowerVenue isWorkshop = Some l ->
  agreesWithFlag isWorkshop l = true.
Proof. group_flag otherMajorJournals. Qed.

Lemma highImpactJournals_flag : forall lowerVenue isWorkshop l,
  highImpactJournals lowerVenue isWorkshop = Some l ->
  agreesWithFlag isWorkshop l = true.
Proof. group_flag highImpactJournals. Qed.

Lemma preprintsAndOtherSources_flag : forall lowerVenue isWorkshop l,
  preprintsAndOtherSources lowerVenue isWorkshop = Some l ->
  agreesWithFlag isWorkshop l = true.
Proof. group_flag preprintsAndOtherSources. Qed.

Lemma publishers_flag : forall lowerVenue isWorkshop l,
  publishers lowerVenue isWorkshop = Some l ->
  agreesWithFlag isWorkshop l = true.
Proof. group_flag publishers. Qed.

Lemma additionalConferences_flag : forall lowerVenue isWorkshop l,
  additionalConferences lowerVenue isWorkshop = Some l ->
  agreesWithFlag isWorkshop l = true.
Proof. group_flag additionalConferences. Qed.

Lemma workshopDetection_flag : forall lowerVenue isWorkshop l,
  workshopDetection lowerVenue isWorkshop = Some l ->
  agreesWithFlag isWorkshop l = true.
Proof. group_flag workshopDetection. Qed.

Lemma additionalPatternMatching_flag : forall lowerVenue isWorkshop l,
  additionalPatternMatching lowerVenue isWorkshop = Some l ->
  agreesWithFlag isWorkshop l = true.
Proof. group_flag additionalPatternMatching. Qed.

Lemma classify_flag : forall lowerVenue isWorkshop l,
  classify lowerVenue isWorkshop = Some l ->
  agreesWithFlag isWorkshop l = true.
Proof.
  intros lowerVenue isWorkshop. unfold classify.
  repeat (apply orElse_elim;
          [solve [ apply computerVisionConferences_flag
                 | apply machineLearningConferences_flag
                 | apply aiConferences_flag
                 | apply nlpConferences_flag
                 | apply dataMiningAndWebConferences_flag
                 | apply roboticsConferences_flag
                 | apply signalProcessingConferences_flag
                 | apply medicalImagingConferences_flag
                 | apply graphicsAndVisualization_flag
                 | apply ieeeTransactions_flag
                 | apply otherMajorJournals_flag
                 | apply highImpactJournals_flag
                 | apply preprintsAndOtherSources_flag
                 | apply publishers_flag
                 | apply additionalConferences_flag
                 | apply workshopDetection_flag
                 | apply additionalPatternMatching_flag ] | ]).
  apply additionalPatternMatching_flag.
Qed.

Lemma workshopDetection_returns (lowerVenue : jsstring) :
  exists l, workshopDetection lowerVenue true = Some l.
Proof.
  unfold workshopDetection.
  repeat match goal with
    | |- exists l, (if ?c then Some ?v else _) = Some l =>
        destruct c; [exists v; reflexivity|]
    end.
  eexists. reflexivity.
Qed.

Lemma classify_workshop (lowerVenue : jsstring) :
  exists l, classify lowerVenue true = Some l.
Proof.
  unfold classify.
  repeat match goal with
    | |- exists l, match ?g lowerVenue true with _ => _ end = Some l =>
        lazymatch g with
        | workshopDetection =>
            destruct (workshopDetection_returns lowerVenue) as [l ->];
            exists l; reflexivity
        | _ => destruct (g lowerVenue true) as [l|]; [exists l; reflexivity|]
        end
    end.
Qed.

(** X15: a text with the workshop flag set always gets a label from a
    rule, never null and never a fallback label; the label says workshop
    (a base name followed by " Workshop", or the generic "Workshop") unless
    it is one of the labels that have no workshop variant. *)
Theorem X15_flagged_text_is_always_classified :
  forall (toLowerCase : jsstring -> jsstring) (s : jsstring),
    s <> [] ->
    workshopFlag (preprocess s) = true ->
    exists l,
      normalizeVenue toLowerCase s = Some l
      /\ fromRule toLowerCase s = Some l
      /\ (isWorkshopLabel l = true \/ In l fixedLabels).
Proof.
  intros lc s Hs F. rewrite normalizeVenue_cases by exact Hs.
  unfold fromRule. rewrite F.
  destruct (classify_workshop (lc (preprocess s))) as [l E].
  rewrite E. exists l. split; [reflexivity|]. split; [reflexivity|].
  apply classify_flag in E. unfold agreesWithFlag in E.
  apply orb_true_iff in E. destruct E as [E|E]; [left; exact E|].
  right. apply existsb_exists in E. destruct E as (l' & I & E).
  apply jsstring_eqb_eq in E. subst. exact I.
Qed.

Lemma X15_witness :
  let s := js "Workshop on Robot Learning at the Annual Meeting" in
  s <> []
  /\ workshopFlag (preprocess s) = true
  /\ normalizeVenue JSString.toLowerCase s = Some (js "Workshop").
Proof.
  intros s.
  assert (Hs : s <> []) by discriminate.
  assert (F : workshopFlag (preprocess s) = true) by (vm_compute; reflexivity).
  split; [exact Hs|]. split; [exact F|].
  destruct (@X15_flagged_text_is_always_classified JSString.toLowerCase s
              Hs F) as (l & E & _ & _).
  rewrite E. vm_compute in E. exact (eq_sym E).
Defined.

(** X16: without the workshop flag no rule returns a label that says
    workshop. *)
Theorem X16_unflagged_text_gets_no_workshop_label :
  forall (toLowerCase : jsstring -> jsstring) (s l : jsstring),
    workshopFlag (preprocess s) = false ->
    fromRule toLowerCase s = Some l ->
    isWorkshopVariant l = false /\ l <> js "Workshop".
Proof.
  intros lc s l F E. unfold fromRule in E. rewrite F in E.
  apply classify_flag in E. unfold agreesWithFlag, isWorkshopLabel in E.
  apply negb_true_iff, orb_false_iff in E. destruct E as [E1 E2].
  split; [exact E1|]. apply jsstring_eqb_neq. exact E2.
Qed.

Lemma X16_witness :
  let s := js "Proc. IEEE CVPR, 2020" in
  workshopFlag (preprocess s) = false
  /\ fromRule JSString.toLowerCase s = Some (js "CVPR")
  /\ isWorkshopVariant (js "CVPR") = false /\ js "CVPR" <> js "Workshop".
Proof.
  intros s.
  assert (F : workshopFlag (preprocess s) = false) by (vm_compute; reflexivity).
  assert (E : fromRule JSString.toLowerCase s = Some (js "CVPR"))
    by (vm_compute; reflexivity).
  split; [exact F|]. split; [exact E|].
  exact (@X16_unflagged_text_gets_no_workshop_label JSString.toLowerCase s
           (js "CVPR") F E).
Defined.

(** ** Code units kept by the string operations *)

Lemma trimStart_Forall (P : N -> Prop) (s : jsstring) :
  Forall P s -> Forall P (JSString.trimStart s).
Proof.
  induction 1 as [|c s Hc Hs IH]; simpl; [constructor|].
  destruct (Char.isSpace c); [exact IH | constructor; assumption].
Qed.

Lemma trim_Forall (P : N -> Prop) (s : jsstring) :
  Forall P s -> Forall P (JSString.trim s).
Proof.
  intros H. unfold JSString.trim, JSString.trimEnd.
  apply Forall_rev, trimStart_Forall, Forall_rev, trimStart_Forall, H.
Qed.

Lemma trimStart_spaces (s : jsstring) :
  Forall (fun c => Char.isSpace c = true) s -> JSString.trimStart s = [].
Proof.
  induction 1 as [|c s Hc Hs IH]; simpl; [reflexivity|].
  rewrite Hc. exact IH.
Qed.

Lemma trim_spaces (s : jsstring) :
  Forall (fun c => Char.isSpace c = true) s -> JSString.trim s = [].
Proof.
  intros H. unfold JSString.trim, JSString.trimEnd.
  rewrite (trimStart_spaces H). reflexivity.
Qed.

Lemma trimStart_hd (s : jsstring) :
  isSpaceAt (hd_error (JSString.trimStart s)) = false.
Proof.
  induction s as [|c s IH]; simpl; [reflexivity|].
  destruct (Char.isSpace c) eqn:E; [exact IH | simpl; exact E].
Qed.

Lemma trimStart_suffix (s : jsstring) :
  exists pre, s = pre ++ JSString.trimStart s.
Proof.
  induction s as [|c s [pre IH]]; simpl.
  - exists []. reflexivity.
  - destruct (Char.isSpace c).
    + exists (c :: pre). simpl. congruence.
    + exists []. reflexivity.
Qed.

Lemma trim_trimmed (s : jsstring) : isTrimmed (JSString.trim s) = true.
Proof.
  unfold isTrimmed, JSString.trim, JSString.trimEnd.
  rewrite rev_involutive, trimStart_hd.
  destruct (trimStart_suffix (rev (JSString.trimStart s))) as [pre E].
  apply (f_equal (@rev N)) in E. rewrite rev_involutive, rev_app_distr in E.
  destruct (rev (JSString.trimStart (rev (JSString.trimStart s))))
    as [|c w]; [reflexivity|].
  pose proof (trimStart_hd s) as H. rewrite E in H. simpl in H.
  simpl. rewrite H. reflexivity.
Qed.

Lemma replace_Forall (P : N -> Prop) (p : pattern) (by_ s : jsstring) :
  Forall P s -> Forall P by_ -> Forall P (replace p by_ s).
Proof.
  intros Hs Hby. unfold replace.
  destruct (search p [] s) as [[[l r] [l' r']]|] eqn:E; [|exact Hs].
  apply search_sound in E. destruct E as [M T].
  pose proof (Match_text M) as T'. unfold text in T, T'. simpl in T, T'.
  assert (A : Forall P (rev l ++ r)) by (rewrite T; exact Hs).
  assert (B : Forall P (rev l' ++ r')) by (rewrite T'; exact A).
  apply Forall_app in A, B.
  apply Forall_app; split; [tauto | apply Forall_app; split; tauto].
Qed.

Lemma separator_matcher (l r : list N) (c : N) :
  matcher (ignoreCase (rx "[,.(]")) (source (rx "[,.(]")) Some (l, c :: r)
  = if isSeparator c then Some (c :: l, r) else None.
Proof.
  change (rx "[,.(]")
    with {| source := Class [CChar 44; CChar 46; CChar 40];
            ignoreCase := false |}.
  cbn [matcher stepChar ignoreCase source existsb itemMatches charEq].
  unfold isSeparator.
  rewrite orb_false_r, orb_assoc.
  rewrite (N.eqb_sym 44 c), (N.eqb_sym 46 c), (N.eqb_sym 40 c).
  reflexivity.
Qed.

(** [split] at [,.(]: the first piece has none of the three. *)
Lemma splitFrom_separator : forall r piece l,
  Forall (fun c => isSeparator c = false) piece ->
  Forall (fun c => isSeparator c = false)
    (hd [] (splitFrom (rx "[,.(]") 0 piece l r)).
Proof.
  induction r as [|c r IH]; intros piece l H.
  - simpl. apply Forall_rev. exact H.
  - cbn [splitFrom].
    rewrite separator_matcher.
    destruct (isSeparator c) eqn:E.
    + replace (remaining (l, c :: r) - remaining (c :: l, r)) with 1
        by (unfold remaining; cbn [snd List.length]; lia).
      simpl. apply Forall_rev. exact H.
    + apply IH. constructor; assumption.
Qed.

Lemma split_separator (s : jsstring) :
  Forall (fun c => isSeparator c = false) (hd [] (split (rx "[,.(]") s)).
Proof.
  destruct s as [|c s].
  - vm_compute. constructor.
  - unfold split. apply splitFrom_separator. constructor.
Qed.

Lemma simplify_separator (venueText : jsstring) :
  Forall (fun c => isSeparator c = false) (simplify venueText).
Proof.
  unfold simplify.
  apply trim_Forall.
  repeat (apply replace_Forall; [|constructor]).
  apply trim_Forall, split_separator.
Qed.

(** ** Further properties of [normalizeVenue] *)

Lemma preprocess_spaces (s : jsstring) :
  Forall (fun c => Char.isSpace c = true) s -> preprocess s = [].
Proof.
  intros H. unfold preprocess.
  rewrite (trim_spaces (replace_Forall trailingEllipsis H (Forall_nil _))).
  vm_compute. reflexivity.
Qed.

(** X17: a text made of whitespace only, the empty text included, is
    normalized to null: no rule and no fallback label. *)
Theorem X17_blank_text_has_no_label :
  forall (toLowerCase : jsstring -> jsstring) (s : jsstring),
    toLowerCase [] = [] ->
    Forall (fun c => Char.isSpace c = true) s ->
    normalizeVenue toLowerCase s = None.
Proof.
  intros lc s L H. destruct s as [|c s]; [reflexivity|].
  rewrite normalizeVenue_cases by discriminate.
  unfold fromRule. rewrite (preprocess_spaces H), L.
  vm_compute. reflexivity.
Qed.

Lemma X17_witness :
  normalizeVenue JSString.toLowerCase [32; 9; 160; 10]%N = None.
Proof.
  apply X17_blank_text_has_no_label; [reflexivity|].
  repeat constructor.
Defined.

(** X18: a label has no whitespace at either end, whether a rule or the
    fallback gave it. *)
Theorem X18_labels_are_trimmed :
  forall (toLowerCase : jsstring -> jsstring) (s l : jsstring),
    normalizeVenue toLowerCase s = Some l ->
    isTrimmed l = true.
Proof.
  intros lc s l H.
  destruct s as [|c s]; [discriminate|].
  rewrite normalizeVenue_cases in H by discriminate.
  unfold fromRule in H.
  destruct (classify _ _) as [l'|] eqn:E.
  - injection H as <-. apply classify_label in E.
    apply (canonical_forallb isTrimmed); [vm_compute; reflexivity | exact E].
  - unfold fallback in H.
    destruct (_ || _); [discriminate|].
    destruct (simplify _) eqn:S; [discriminate|].
    injection H as <-. rewrite <- S. unfold simplify. apply trim_trimmed.
Qed.

Lemma X18_witness :
  let s := js "  Proceedings of the Symposium on Cloud Computing , 2019 " in
  normalizeVenue JSString.toLowerCase s
  = Some (js "Symposium on Cloud Computing")
  /\ isTrimmed (js "Symposium on Cloud Computing") = true.
Proof.
  intros s.
  assert (E : normalizeVenue JSString.toLowerCase s
              = Some (js "Symposium on Cloud Computing"))
    by (vm_compute; reflexivity).
  split; [exact E|].
  exact (@X18_labels_are_trimmed JSString.toLowerCase s _ E).
Defined.

(** X19: a label of the fallback holds no comma, no period and no opening
    parenthesis: it is cut from the text before the first of them. *)
Theorem X19_fallback_label_has_no_separator :
  forall (toLowerCase : jsstring -> jsstring) (s l : jsstring),
    fromRule toLowerCase s = None ->
    normalizeVenue toLowerCase s = Some l ->
    forall c, In c l -> isSeparator c = false.
Proof.
  intros lc s l R H.
  destruct s as [|c0 s]; [discriminate|].
  rewrite normalizeVenue_cases in H by discriminate.
  rewrite R in H. unfold fallback in H.
  destruct (_ || _); [discriminate|].
  destruct (simplify _) eqn:S; [discriminate|].
  injection H as <-. rewrite <- S.
  apply Forall_forall, simplify_separator.
Qed.

Lemma X19_witness :
  let s := js "Journal of Applied Widgets (JAW), vol. 3" in
  fromRule JSString.toLowerCase s = None
  /\ normalizeVenue JSString.toLowerCase s
     = Some (js "Journal of Applied Widgets")
  /\ forall c, In c (js "Journal of Applied Widgets") ->
       isSeparator c = false.
Proof.
  intros s.
  assert (R : fromRule JSString.toLowerCase s = None)
    by (vm_compute; reflexivity).
  assert (E : normalizeVenue JSString.toLowerCase s
              = Some (js "Journal of Applied Widgets"))
    by (vm_compute; reflexivity).
  split; [exact R|]. split; [exact E|].
  exact (@X19_fallback_label_has_no_separator JSString.toLowerCase s _ R E).
Defined.

(** ** The search for the button *)

Section DiscoveryFacts.

Import Dom.

Variable toLowerCase : jsstring -> jsstring.

Lemma isNotPaperLink_true (e : element) :
  isNotPaperLink e = Ok true <->
  inTitleCell e = false /\ hasClass (js "gsc_a_at") e = false
  /\ hrefIsFine e.
Proof.
  unfold isNotPaperLink, hrefIsFine.
  destruct (inTitleCell e); [split; [discriminate | intros [H _]; discriminate]|].
  destruct (hasClass (js "gsc_a_at") e);
    [split; [discriminate | intros (_ & H & _); discriminate]|].
  destruct (href e) as [|s|].
  - tauto.
  - rewrite <- includes_contains.
    destruct (JSString.includes s (js "view_citation")); simpl; split.
    + discriminate.
    + intros (_ & _ & H). exfalso. apply H. reflexivity.
    + intros _. repeat split. discriminate.
    + reflexivity.
  - split; [discriminate | intros (_ & _ & [])].
Qed.

Lemma isNotPaperLink_throw (e : element) (m : jsstring) :
  isNotPaperLink e = Throw m -> hrefThrows e.
Proof.
  unfold isNotPaperLink, hrefThrows.
  destruct (inTitleCell e); [discriminate|].
  destruct (hasClass (js "gsc_a_at") e); [discriminate|].
  destruct (href e); try discriminate. auto.
Qed.

(** The test for "show more" in [hasValidText] adds nothing to the one for
    "more". *)
Lemma hasValidText_true (e : element) :
  JSString.includes (lowerText toLowerCase e) (js "show more")
  || JSString.includes (lowerText toLowerCase e) (js "more")
  || jsstring_eqb (lowerText toLowerCase e) (js "show")
  || jsstring_eqb (id e) (js "gsc_bpf_more") = true
  <-> contains (js "more") (lowerText toLowerCase e)
      \/ lowerText toLowerCase e = js "show"
      \/ id e = js "gsc_bpf_more".
Proof.
  rewrite !orb_true_iff, !includes_contains, !jsstring_eqb_eq.
  split.
  - intros [[[(pre & post & H)|H]|H]|H]; auto.
    left. exists (pre ++ js "show "), post. rewrite H, <- app_assoc.
    reflexivity.
  - intros [H|[H|H]]; auto.
Qed.

Lemma isValidShowMoreButtonFast_true (e : element) :
  isValidShowMoreButtonFast toLowerCase e = Ok true
  <-> usable toLowerCase e.
Proof.
  unfold isValidShowMoreButtonFast, usable.
  rewrite <- hasValidText_true.
  destruct (isNotPaperLink e) as [b|m] eqn:N.
  - destruct b.
    + apply isNotPaperLink_true in N. destruct N as (N1 & N2 & N3).
      rewrite andb_true_r.
      destruct (offsetParent e), (disabled e); simpl;
        try (split; [discriminate | intros H; decompose [and] H; discriminate]).
      split.
      * intros [= H]. auto 10.
      * intros (_ & _ & _ & _ & _ & H). rewrite H. reflexivity.
    + rewrite andb_false_r. split; [discriminate|].
      intros (_ & _ & H1 & H2 & H3 & _).
      assert (T : isNotPaperLink e = Ok true)
        by (apply isNotPaperLink_true; auto).
      congruence.
  - split; [discriminate|].
    intros (_ & _ & H1 & H2 & H3 & _).
    assert (T : isNotPaperLink e = Ok true)
      by (apply isNotPaperLink_true; auto).
    congruence.
Qed.

Lemma isValidShowMoreButtonFast_throw (e : element) (m : jsstring) :
  isValidShowMoreButtonFast toLowerCase e = Throw m -> hrefThrows e.
Proof.
  unfold isValidShowMoreButtonFast.
  destruct (isNotPaperLink e) as [b|m'] eqn:N; [discriminate|].
  intros _. eapply isNotPaperLink_throw. exact N.
Qed.

Lemma firstValid_some : forall (candidates : list element) (e : element),
  firstValid toLowerCase candidates = Ok (Some e) ->
  In e candidates /\ usable toLowerCase e.
Proof.
  induction candidates as [|c cs IH]; intros e H; simpl in H;
    [discriminate|].
  destruct (isValidShowMoreButtonFast toLowerCase c) as [[|]|m] eqn:V;
    try discriminate.
  - injection H as <-. split; [left; reflexivity|].
    apply isValidShowMoreButtonFast_true. exact V.
  - destruct (IH _ H). split; [right|]; assumption.
Qed.

Lemma firstValid_none : forall (candidates : list element),
  firstValid toLowerCase candidates = Ok None ->
  forall e, In e candidates -> ~ usable toLowerCase e.
Proof.
  induction candidates as [|c cs IH]; intros H e I; simpl in H, I;
    [contradiction|].
  destruct (isValidShowMoreButtonFast toLowerCase c) as [[|]|m] eqn:V;
    try discriminate.
  destruct I as [<-|I]; [|eapply IH; eassumption].
  intros U. apply isValidShowMoreButtonFast_true in U. congruence.
Qed.

Lemma firstValid_throw : forall (candidates : list element) (m : jsstring),
  firstValid toLowerCase candidates = Throw m ->
  exists e, In e candidates /\ hrefThrows e.
Proof.
  induction candidates as [|c cs IH]; intros m H; simpl in H;
    [discriminate|].
  destruct (isValidShowMoreButtonFast toLowerCase c) as [[|]|m'] eqn:V;
    try discriminate.
  - destruct (IH _ H) as (e & I & T). exists e. split; [right|]; assumption.
  - exists c. split; [left; reflexivity|].
    eapply isValidShowMoreButtonFast_throw. exact V.
Qed.

Lemma firstValid_head (e : element) (others : list element) :
  usable toLowerCase e ->
  firstValid toLowerCase (e :: others) = Ok (Some e).
Proof.
  intros U. apply isValidShowMoreButtonFast_true in U. simpl.
  rewrite U. reflexivity.
Qed.

Lemma specific_In (doc : document) (e : element) :
  In e (specific doc) -> In e doc.
Proof.
  unfold specific. rewrite in_flat_map.
  intros (selector & _ & H). unfold querySelector in H.
  destruct (find selector doc) as [x|] eqn:F; [|contradiction].
  destruct H as [<-|[]]. apply find_some in F. tauto.
Qed.

Lemma candidate_In (doc : document) (e : element) :
  candidate toLowerCase doc e -> In e doc.
Proof.
  intros [H|[H|H]]; [apply specific_In; exact H | tauto | tauto].
Qed.

Lemma second_loop_candidate (doc : document) (e : element) :
  In e (filter (saysShowMore toLowerCase) (querySelectorAll buttonLike doc))
  <-> In e doc /\ buttonLike e = true /\ saysShowMore toLowerCase e = true.
Proof. unfold querySelectorAll. rewrite !filter_In. tauto. Qed.

Lemma third_loop_candidate (doc : document) (e : element) :
  In e (querySelectorAll hasOnclick doc)
  <-> In e doc /\ hasOnclick e = true.
Proof. unfold querySelectorAll. rewrite filter_In. tauto. Qed.

Lemma findShowMoreButtonSync_found (doc : document) (e : element) :
  findShowMoreButtonSync toLowerCase doc = Ok (Some e) ->
  candidate toLowerCase doc e /\ usable toLowerCase e.
Proof.
  unfold findShowMoreButtonSync, candidate.
  destruct (firstValid toLowerCase (specific doc)) as [[b|]|m] eqn:F1;
    try discriminate.
  - intros [= ->]. apply firstValid_some in F1. tauto.
  - destruct (firstValid toLowerCase (filter _ _)) as [[b|]|m] eqn:F2;
      try discriminate.
    + intros [= ->]. apply firstValid_some in F2.
      rewrite second_loop_candidate in F2. tauto.
    + intros F3. apply firstValid_some in F3.
      rewrite third_loop_candidate in F3. tauto.
Qed.

Lemma findShowMoreButtonSync_throw (doc : document) (m : jsstring) :
  findShowMoreButtonSync toLowerCase doc = Throw m ->
  exists e, candidate toLowerCase doc e /\ hrefThrows e.
Proof.
  unfold findShowMoreButtonSync, candidate.
  destruct (firstValid toLowerCase (specific doc)) as [[b|]|m1] eqn:F1;
    try discriminate.
  - destruct (firstValid toLowerCase (filter _ _)) as [[b|]|m2] eqn:F2;
      try discriminate.
    + intros F3. apply firstValid_throw in F3. destruct F3 as (e & I & T).
      apply third_loop_candidate in I. exists e. tauto.
    + intros _. apply firstValid_throw in F2. destruct F2 as (e & I & T).
      apply second_loop_candidate in I. exists e. tauto.
  - intros _. apply firstValid_throw in F1. destruct F1 as (e & I & T).
    exists e. tauto.
Qed.

End DiscoveryFacts.

(** X20: the element that [findShowMoreButtonSync] returns is an element
    of the document that one of the three loops selects, and it is usable:
    visible, enabled, outside the title cells, without the class of a title
    link, with an address that is absent or a string without
    "view_citation", and with "more" in its text, or the text "show", or
    the id "gsc_bpf_more". *)
Theorem X20_found_button_is_usable :
  forall (toLowerCase : jsstring -> jsstring) (doc : Dom.document)
         (e : Dom.element),
    Dom.findShowMoreButtonSync toLowerCase doc = Ok (Some e) ->
    In e doc /\ candidate toLowerCase doc e /\ usable toLowerCase e.
Proof.
  intros lc doc e H. apply findShowMoreButtonSync_found in H.
  destruct H as [C U]. split; [exact (candidate_In C)|]. split; assumption.
Qed.

Lemma X20_witness :
  Dom.findShowMoreButtonSync JSString.toLowerCase Page.profile
  = Ok (Some Page.showMore)
  /\ In Page.showMore Page.profile
  /\ candidate JSString.toLowerCase Page.profile Page.showMore
  /\ usable JSString.toLowerCase Page.showMore.
Proof.
  assert (E : Dom.findShowMoreButtonSync JSString.toLowerCase Page.profile
              = Ok (Some Page.showMore)) by (vm_compute; reflexivity).
  split; [exact E|].
  exact (@X20_found_button_is_usable JSString.toLowerCase Page.profile
           Page.showMore E).
Defined.

(** X21: when [findShowMoreButtonSync] returns null, no element that the
    three loops select is usable. *)
Theorem X21_null_means_no_usable_candidate :
  forall (toLowerCase : jsstring -> jsstring) (doc : Dom.document),
    Dom.findShowMoreButtonSync toLowerCase doc = Ok None ->
    forall e, candidate toLowerCase doc e -> ~ usable toLowerCase e.
Proof.
  intros toLowerCase doc. unfold Dom.findShowMoreButtonSync.
  destruct (Dom.firstValid toLowerCase (Dom.specific doc))
    as [[b|]|m] eqn:F1; try discriminate.
  destruct (Dom.firstValid toLowerCase (filter _ _)) as [[b|]|m] eqn:F2;
    try discriminate.
  intros F3 e [C|[C|C]].
  - eapply firstValid_none; [exact F1 | exact C].
  - eapply firstValid_none; [exact F2|]. apply second_loop_candidate. exact C.
  - eapply firstValid_none; [exact F3|]. apply third_loop_candidate. exact C.
Qed.

Lemma X21_witness :
  Dom.findShowMoreButtonSync JSString.toLowerCase Page.exhausted = Ok None
  /\ forall e, candidate JSString.toLowerCase Page.exhausted e ->
               ~ usable JSString.toLowerCase e.
Proof.
  assert (E : Dom.findShowMoreButtonSync JSString.toLowerCase Page.exhausted
              = Ok None) by (vm_compute; reflexivity).
  split; [exact E|].
  exact (@X21_null_means_no_usable_candidate JSString.toLowerCase
           Page.exhausted E).
Defined.

(** X22: [findShowMoreButtonSync] throws only on an element that the loops
    select, outside the title cells and without the class of a title link,
    whose [href] is an object rather than a string; in a document without
    such an element it returns. *)
Theorem X22_discovery_throws_only_on_an_object_address :
  forall (toLowerCase : jsstring -> jsstring) (doc : Dom.document)
         (m : jsstring),
    Dom.findShowMoreButtonSync toLowerCase doc = Throw m ->
    exists e, In e doc /\ candidate toLowerCase doc e /\ hrefThrows e.
Proof.
  intros lc doc m H. apply findShowMoreButtonSync_throw in H.
  destruct H as (e & C & T). exists e.
  split; [exact (candidate_In C)|]. split; assumption.
Qed.

Lemma X22_witness :
  (exists m,
      Dom.findShowMoreButtonSync JSString.toLowerCase Page.withChart
      = Throw m)
  /\ exists e, In e Page.withChart
               /\ candidate JSString.toLowerCase Page.withChart e
               /\ hrefThrows e.
Proof.
  assert (E : Dom.findShowMoreButtonSync JSString.toLowerCase Page.withChart
              = Throw (js "element.href?.includes is not a function"))
    by (vm_compute; reflexivity).
  split; [eexists; exact E|].
  exact (@X22_discovery_throws_only_on_an_object_address
           JSString.toLowerCase Page.withChart _ E).
Defined.

(** X23: the first element with the id "gsc_bpf_more", when it is usable,
    is the result, whatever else the document holds. *)
Theorem X23_the_button_by_id_comes_first :
  forall (toLowerCase : jsstring -> jsstring) (doc : Dom.document)
         (e : Dom.element),
    Dom.querySelector
      (fun x => jsstring_eqb (Dom.id x) (js "gsc_bpf_more")) doc = Some e ->
    usable toLowerCase e ->
    Dom.findShowMoreButtonSync toLowerCase doc = Ok (Some e).
Proof.
  intros toLowerCase doc e Q U.
  unfold Dom.findShowMoreButtonSync, Dom.specific, Dom.specificSelectors.
  cbn [flat_map]. rewrite Q. cbn [app].
  rewrite firstValid_head by exact U. reflexivity.
Qed.

Lemma X23_witness :
  Dom.findShowMoreButtonSync JSString.toLowerCase
    (Page.svgLink :: Page.profile) = Ok (Some Page.showMore).
Proof.
  apply X23_the_button_by_id_comes_first; [reflexivity|].
  apply isValidShowMoreButtonFast_true. vm_compute. reflexivity.
Defined.

(** ** The whitespace clean-up of [normalizeVenue] *)

Lemma trimStart_length (s : jsstring) :
  List.length (JSString.trimStart s) <= List.length s.
Proof.
  induction s as [|c s IH]; simpl; [lia|].
  destruct (Char.isSpace c); simpl; lia.
Qed.

Lemma skipn_trimStart (s : jsstring) :
  skipn (List.length s - List.length (JSString.trimStart s)) s
  = JSString.trimStart s.
Proof.
  destruct (trimStart_suffix s) as [pre E].
  remember (JSString.trimStart s) as t eqn:T. clear T. subst s.
  rewrite length_app.
  replace (List.length pre + List.length t - List.length t)
    with (List.length pre) by lia.
  induction pre as [|c pre IH]; [reflexivity | exact IH].
Qed.

Lemma trim_infix (s : jsstring) :
  exists pre post, s = pre ++ JSString.trim s ++ post.
Proof.
  unfold JSString.trim, JSString.trimEnd.
  destruct (trimStart_suffix s) as [pre E].
  destruct (trimStart_suffix (rev (JSString.trimStart s))) as [post F].
  apply (f_equal (@rev N)) in F. rewrite rev_involutive, rev_app_distr in F.
  exists pre, (rev post). rewrite <- F. exact E.
Qed.

Lemma singleSpaced_nil : singleSpaced [].
Proof. intros [|x pre] c post E; discriminate E. Qed.

Lemma singleSpaced_cons (c : N) (s : jsstring) :
  singleSpaced s ->
  (Char.isSpace c = true -> c = 32%N /\ isSpaceAt (hd_error s) = false) ->
  singleSpaced (c :: s).
Proof.
  intros H Hc [|x pre] y post E Hy.
  - injection E as -> ->. exact (Hc Hy).
  - injection E as -> E. exact (H _ _ _ E Hy).
Qed.

Lemma singleSpaced_infix (pre s post : jsstring) :
  singleSpaced (pre ++ s ++ post) -> singleSpaced s.
Proof.
  intros H p c q E Hc.
  destruct (H (pre ++ p) c (q ++ post)) as [H1 H2].
  - rewrite E, <- !app_assoc. reflexivity.
  - exact Hc.
  - split; [exact H1|]. destruct q; [reflexivity | exact H2].
Qed.

Lemma space_step (k : state -> option state) (l r : list N) :
  matcher false (Class [CSpace]) k (l, r)
  = match r with
    | c :: r' => if Char.isSpace c then k (c :: l, r') else None
    | [] => None
    end.
Proof.
  destruct r as [|c r]; simpl; [reflexivity|].
  rewrite orb_false_r. reflexivity.
Qed.

(** The iterations of [\s*] take all the whitespace there is. *)
Lemma star_spaces : forall (n : nat) (l r : list N),
  List.length r <= n ->
  exists l',
    repeatMatcher (matcher false (Class [CSpace])) true Some n (l, r)
    = Some (l', JSString.trimStart r).
Proof.
  induction n as [|n IH]; intros l r Hn.
  - destruct r; [|simpl in Hn; lia]. simpl. eauto.
  - cbn [repeatMatcher]. rewrite space_step. destruct r as [|c r].
    + simpl. eauto.
    + cbn [JSString.trimStart].
      destruct (Char.isSpace c) eqn:E; [|eauto].
      unfold remaining at 1 2. cbn [snd List.length].
      replace (List.length r =? S (List.length r)) with false
        by (symmetry; apply Nat.eqb_neq; lia).
      destruct (IH (c :: l) r) as [l' ->]; [simpl in Hn; lia|]. eauto.
Qed.

Lemma spaces_matcher (l r : list N) :
  match r with
  | c :: r' =>
      if Char.isSpace c then
        exists l',
          matcher (ignoreCase (rx "\s+")) (source (rx "\s+")) Some (l, r)
          = Some (l', JSString.trimStart r')
      else
        matcher (ignoreCase (rx "\s+")) (source (rx "\s+")) Some (l, r)
        = None
  | [] =>
      matcher (ignoreCase (rx "\s+")) (source (rx "\s+")) Some (l, r) = None
  end.
Proof.
  change (rx "\s+")
    with {| source := Seq (Class [CSpace]) (Star true (Class [CSpace]));
            ignoreCase := false |}.
  cbn [ignoreCase source].
  change (matcher false (Seq (Class [CSpace]) (Star true (Class [CSpace])))
            Some (l, r))
    with (matcher false (Class [CSpace])
            (fun x => repeatMatcher (matcher false (Class [CSpace])) true
                        Some (remaining x) x) (l, r)).
  rewrite space_step.
  destruct r as [|c r']; [reflexivity|].
  destruct (Char.isSpace c); [|reflexivity].
  apply star_spaces. unfold remaining. simpl. lia.
Qed.

Lemma replaceFrom_skip (p : pattern) (by_ : jsstring) :
  forall (skip : nat) (l r : list N),
    skip <= List.length r ->
    exists l',
      replaceFrom p by_ skip l r = replaceFrom p by_ 0 l' (skipn skip r).
Proof.
  induction skip as [|skip IH]; intros l r H.
  - exists l. reflexivity.
  - destruct r as [|c r]; [simpl in H; lia|].
    cbn [replaceFrom skipn]. apply IH. simpl in H. lia.
Qed.

Lemma replaceAll_spaces : forall (n : nat) (r l : list N),
  List.length r <= n ->
  singleSpaced (replaceFrom (rx "\s+") (js " ") 0 l r)
  /\ isSpaceAt (hd_error (replaceFrom (rx "\s+") (js " ") 0 l r))
     = isSpaceAt (hd_error r).
Proof.
  induction n as [|n IH]; intros r l Hn.
  - destruct r; [|simpl in Hn; lia].
    cbn [replaceFrom]. rewrite (spaces_matcher l []).
    split; [apply singleSpaced_nil | reflexivity].
  - destruct r as [|c r].
    + cbn [replaceFrom]. rewrite (spaces_matcher l []).
      split; [apply singleSpaced_nil | reflexivity].
    + cbn [replaceFrom]. pose proof (spaces_matcher l (c :: r)) as M.
      cbn beta iota in M. destruct (Char.isSpace c) eqn:E.
      * destruct M as [l' ->].
        pose proof (trimStart_length r) as L.
        replace (remaining (l, c :: r) - remaining (l', JSString.trimStart r))
          with (S (List.length r - List.length (JSString.trimStart r)))
          by (unfold remaining; cbn [snd List.length]; lia).
        destruct (@replaceFrom_skip (rx "\s+") (js " ")
                    (List.length r - List.length (JSString.trimStart r))
                    (c :: l) r) as [l2 ->]; [lia|].
        rewrite skipn_trimStart.
        destruct (IH (JSString.trimStart r) l2) as [S H];
          [simpl in Hn; lia|].
        rewrite trimStart_hd in H.
        change (js " " ++ ?x) with (32%N :: x).
        split.
        -- apply singleSpaced_cons; [exact S|]. intros _. auto.
        -- simpl. rewrite E. reflexivity.
      * rewrite M.
        destruct (IH r (c :: l)) as [S H]; [simpl in Hn; lia|].
        split.
        -- apply singleSpaced_cons; [exact S|]. congruence.
        -- reflexivity.
Qed.

(** X24: after the preprocessing of [normalizeVenue], the text that the
    rules and the fallback read has no whitespace at either end, and every
    whitespace code unit in it is one U+0020 followed by a code unit that
    is not whitespace. *)
Theorem X24_preprocessed_text_is_single_spaced :
  forall s : jsstring,
    singleSpaced (preprocess s) /\ isTrimmed (preprocess s) = true.
Proof.
  intros s.
  unfold preprocess. split; [|apply trim_trimmed].
  match goal with
  | |- singleSpaced (JSString.trim ?t) =>
      destruct (trim_infix t) as (pre & post & E);
      apply (@singleSpaced_infix pre _ post); rewrite <- E
  end.
  unfold replaceAll. eapply replaceAll_spaces. apply Nat.le_refl.
Qed.
